(** * ytlive: the FFmpeg stream supervisor of [server.js]

    A shallow embedding of the stream-process supervisor of the ytlive
    server: the FFmpeg argument construction, the callbacks registered on
    the spawned child process, [killStreamProcess], and the [/api/go-live],
    [/api/stop] and [/api/status] handlers, together with the stream-record
    queries of [routes/streams.js] and [routes/admin.js].

    Node runs every callback to completion on one thread; an [async]
    handler gives up control at each [await].  The embedding follows that
    execution model: every callback is a function on the server state, and
    a handler is a chain of such functions cut at its [await]s. *)

From Stdlib Require Import ZArith Ascii String DecimalString Bool Lia.
From stdpp Require Import base list strings.

(** ** JavaScript string primitives used by the server *)

Module JS.

(** [s.startsWith(p)] *)
Definition startsWith (s p : string) : bool := String.prefix p s.

(** [s.includes(p)] *)
Fixpoint includes (s p : string) : bool :=
  String.prefix p s ||
  match s with
  | EmptyString => false
  | String _ s' => includes s' p
  end.

(** [s.endsWith("/")] is what the regular expression [/\/?$/] looks at. *)
Fixpoint endsWithSlash (s : string) : bool :=
  match s with
  | EmptyString => false
  | String c EmptyString => Ascii.eqb c "/"
  | String _ s' => endsWithSlash s'
  end.

(** [s.replace(/\\/g, "/")]: every backslash becomes a forward slash. *)
Fixpoint replaceBackslashes (s : string) : string :=
  match s with
  | EmptyString => EmptyString
  | String c s' =>
      String (if Ascii.eqb c "\" then "/"%char else c) (replaceBackslashes s')
  end.

(** [s.replace(/\/?$/, "/")]: the pattern is anchored at the end of the
    input and is not global.  The leftmost match is the final slash when
    there is one (replaced by a slash: no change) and otherwise the empty
    match at the end (a slash is appended). *)
Definition ensureTrailingSlash (s : string) : string :=
  if endsWithSlash s then s else s +:+ "/".

(** [arr.join(" ")] *)
Definition join (sep : string) (l : list string) : string :=
  String.concat sep l.

(** Template-literal rendering of an exit code ([null] for a process
    ended by a signal) *)
Definition showCode (code : option Z) : string :=
  match code with
  | None => "null"
  | Some z => NilZero.string_of_int (Z.to_int z)
  end.

(** A JavaScript string is falsy exactly when it is empty; an absent
    body field ([undefined]) is falsy too. *)
Definition truthy (s : option string) : bool :=
  match s with
  | None | Some EmptyString => false
  | Some _ => true
  end.

End JS.

(** ** Command Builder: the argument list built by [startFFmpegStream] *)

(** The path normalisation applied to [inputSource] (server.js):
    [if (inputSource.startsWith("C:")) inputSource = inputSource.replace(/\\/g, "/")] *)
Definition normalizeInput (inputSource : string) : string :=
  if JS.startsWith inputSource "C:"
  then JS.replaceBackslashes inputSource
  else inputSource.

(** [`${streamUrl.replace(/\/?$/, "/")}${streamKey}`] *)
Definition rtmpUrl (streamUrl streamKey : string) : string :=
  JS.ensureTrailingSlash streamUrl +:+ streamKey.

(** The fixed encoding parameters between the input and the destination. *)
Definition encodingArgs : list string :=
  [ "-c:v"; "libx264";
    "-preset"; "veryfast";
    "-maxrate"; "3000k";
    "-bufsize"; "6000k";
    "-pix_fmt"; "yuv420p";
    "-g"; "50";
    "-c:a"; "aac";
    "-b:a"; "128k";
    "-ac"; "2";
    "-ar"; "44100";
    "-f"; "flv" ].

(** [ffmpegArgs] as [startFFmpegStream] computes it: it starts from
    [["-re"]], pushes the loop flag, and concatenates the rest. *)
Definition ffmpegArgs (inputSource streamUrl streamKey : string)
    (shouldLoop : bool) : list string :=
  let inputSource := normalizeInput inputSource in
  let rtmpUrl := rtmpUrl streamUrl streamKey in
  let ffmpegArgs := ["-re"] in
  let ffmpegArgs :=
    if shouldLoop then ffmpegArgs ++ ["-stream_loop"; "-1"] else ffmpegArgs in
  ffmpegArgs ++ (["-i"; inputSource] ++ encodingArgs ++ [rtmpUrl]).

(** The line written by
    [console.log("Starting FFmpeg with args:", ffmpegArgs.join(" "))]. *)
Definition startLogLine (args : list string) : string :=
  "Starting FFmpeg with args: " +:+ JS.join " " args.

(** The earlier server file builds the list without loop flag and without
    normalisation, and concatenates the destination as it is. *)
Module Legacy.

Definition rtmpUrl (streamUrl streamKey : string) : string :=
  streamUrl +:+ streamKey.

Definition ffmpegArgs (inputSource streamUrl streamKey : string)
    : list string :=
  [ "-re";
    "-i"; inputSource;
    "-c:v"; "libx264";
    "-preset"; "veryfast";
    "-maxrate"; "3000k";
    "-bufsize"; "6000k";
    "-pix_fmt"; "yuv420p";
    "-g"; "50";
    "-c:a"; "aac";
    "-b:a"; "128k";
    "-ac"; "2";
    "-ar"; "44100";
    "-f"; "flv";
    rtmpUrl streamUrl streamKey ].

End Legacy.

(** ** Supervisor state *)

(** The promise returned by one call of [startFFmpegStream].  [resolve]
    and [reject] settle a pending promise and do nothing to a settled
    one. *)
Inductive Promise :=
| Pending
| Resolved
| Rejected (message : string).

Definition resolve (p : Promise) : Promise :=
  match p with Pending => Resolved | _ => p end.

Definition reject (message : string) (p : Promise) : Promise :=
  match p with Pending => Rejected message | _ => p end.

Definition settled (p : Promise) : bool :=
  match p with Pending => false | _ => true end.

(** A [ChildProcess] object returned by [spawn], together with the closure
    of the [startFFmpegStream] call that created it: the local
    [streamStarted], the promise of the call and its 30 second timer. *)
Record ChildProcess := mkChildProcess {
  spawnargs : list string;
  killed : bool;               (* set once [kill] has delivered a signal *)
  signalsSent : list string;   (* signals delivered through [kill], oldest first *)
  exited : bool;               (* the operating-system process has ended *)
  streamStarted : bool;
  startPromise : Promise;
  startTimer : bool;           (* the [setTimeout(..., 30000)] has not fired yet *)
  exitWaiters : list nat       (* [killStreamProcess] promises listening for "exit" *)
}.

(** The promise created by one call of [killStreamProcess], with its
    [forceKill] timer. *)
Record KillPromise := mkKillPromise {
  forceKill : bool;            (* the 5 second timer is armed *)
  killResolved : bool
}.

(** A document of the [Stream] collection (models/Stream.js); the date
    fields are reduced to whether [endedAt] is set. *)
Record StreamDoc := mkStreamDoc {
  userId : nat;
  streamKey : string;
  streamUrl : string;
  videoSource : string;
  videoPath : string;
  status : string;
  ended : bool;
  errorMessage : option string
}.

(** The module-level variables of the server, the objects they refer to,
    the [Stream] collection and the console. *)
Record State := mkState {
  streamStatus : string;
  currentStreamProcess : option nat;   (* [null] or a reference into [procs] *)
  procs : list ChildProcess;
  kills : list KillPromise;
  streams : list StreamDoc;
  console : list string;               (* lines of console.log / console.error *)
  crashed : bool                       (* an exception escaped a timer callback *)
}.

Definition initial : State :=
  {| streamStatus := "idle"; currentStreamProcess := None; procs := [];
     kills := []; streams := []; console := []; crashed := false |}.

Definition set_streamStatus (s : string) (st : State) : State :=
  {| streamStatus := s; currentStreamProcess := currentStreamProcess st;
     procs := procs st; kills := kills st; streams := streams st;
     console := console st; crashed := crashed st |}.

Definition set_currentStreamProcess (h : option nat) (st : State) : State :=
  {| streamStatus := streamStatus st; currentStreamProcess := h;
     procs := procs st; kills := kills st; streams := streams st;
     console := console st; crashed := crashed st |}.

Definition set_procs (ps : list ChildProcess) (st : State) : State :=
  {| streamStatus := streamStatus st;
     currentStreamProcess := currentStreamProcess st;
     procs := ps; kills := kills st; streams := streams st;
     console := console st; crashed := crashed st |}.

Definition set_kills (ks : list KillPromise) (st : State) : State :=
  {| streamStatus := streamStatus st;
     currentStreamProcess := currentStreamProcess st;
     procs := procs st; kills := ks; streams := streams st;
     console := console st; crashed := crashed st |}.

Definition set_streams (ds : list StreamDoc) (st : State) : State :=
  {| streamStatus := streamStatus st;
     currentStreamProcess := currentStreamProcess st;
     procs := procs st; kills := kills st; streams := ds;
     console := console st; crashed := crashed st |}.

(** [console.log(line)] and [console.error(line)] *)
Definition log (line : string) (st : State) : State :=
  {| streamStatus := streamStatus st;
     currentStreamProcess := currentStreamProcess st;
     procs := procs st; kills := kills st; streams := streams st;
     console := console st ++ [line]; crashed := crashed st |}.

Definition throw_uncaught (st : State) : State :=
  {| streamStatus := streamStatus st;
     currentStreamProcess := currentStreamProcess st;
     procs := procs st; kills := kills st; streams := streams st;
     console := console st; crashed := true |}.

(** *** Operations on a [ChildProcess] *)

(** [child.kill(signal)]: the signal is delivered and [killed] becomes
    true while the process runs; on a process that has ended nothing
    happens. *)
Definition kill (signal : string) (p : ChildProcess) : ChildProcess :=
  if exited p then p
  else {| spawnargs := spawnargs p; killed := true;
          signalsSent := signalsSent p ++ [signal]; exited := exited p;
          streamStarted := streamStarted p; startPromise := startPromise p;
          startTimer := startTimer p; exitWaiters := exitWaiters p |}.

Definition set_exited (p : ChildProcess) : ChildProcess :=
  {| spawnargs := spawnargs p; killed := killed p;
     signalsSent := signalsSent p; exited := true;
     streamStarted := streamStarted p; startPromise := startPromise p;
     startTimer := startTimer p; exitWaiters := exitWaiters p |}.

Definition set_streamStarted (p : ChildProcess) : ChildProcess :=
  {| spawnargs := spawnargs p; killed := killed p;
     signalsSent := signalsSent p; exited := exited p;
     streamStarted := true; startPromise := startPromise p;
     startTimer := startTimer p; exitWaiters := exitWaiters p |}.

Definition map_startPromise (f : Promise -> Promise) (p : ChildProcess)
    : ChildProcess :=
  {| spawnargs := spawnargs p; killed := killed p;
     signalsSent := signalsSent p; exited := exited p;
     streamStarted := streamStarted p; startPromise := f (startPromise p);
     startTimer := startTimer p; exitWaiters := exitWaiters p |}.

Definition clear_startTimer (p : ChildProcess) : ChildProcess :=
  {| spawnargs := spawnargs p; killed := killed p;
     signalsSent := signalsSent p; exited := exited p;
     streamStarted := streamStarted p; startPromise := startPromise p;
     startTimer := false; exitWaiters := exitWaiters p |}.

Definition add_exitWaiter (k : nat) (p : ChildProcess) : ChildProcess :=
  {| spawnargs := spawnargs p; killed := killed p;
     signalsSent := signalsSent p; exited := exited p;
     streamStarted := streamStarted p; startPromise := startPromise p;
     startTimer := startTimer p; exitWaiters := exitWaiters p ++ [k] |}.

Definition update_proc (pid : nat) (f : ChildProcess -> ChildProcess)
    (st : State) : State :=
  set_procs (alter f pid (procs st)) st.

(** [resolve()] of the promise of [killStreamProcess] number [k] *)
Definition resolve_kill (k : nat) (st : State) : State :=
  set_kills
    (alter (fun kp => {| forceKill := forceKill kp; killResolved := true |})
           k (kills st)) st.

(** [clearTimeout(forceKill)] *)
Definition clearTimeout (k : nat) (st : State) : State :=
  set_kills
    (alter (fun kp => {| forceKill := false; killResolved := killResolved kp |})
           k (kills st)) st.

(** ** [killStreamProcess] *)

(** The executor of the promise built by [killStreamProcess].  The result
    is [None] when the promise is resolved on the spot (no handle, or a
    handle whose [killed] is already true) and [Some k] when the caller
    has to wait for promise [k]: SIGTERM has been sent, the 5 second
    [forceKill] timer is armed and an "exit" listener is attached to the
    current process. *)
Definition killStreamProcess (st : State) : State * option nat :=
  match currentStreamProcess st with
  | Some pid =>
      match procs st !! pid with
      | Some p =>
          if negb (killed p) then
            let st := update_proc pid (kill "SIGTERM") st in
            let k := length (kills st) in
            let st :=
              set_kills
                (kills st ++ [{| forceKill := true; killResolved := false |}])
                st in
            let st := update_proc pid (add_exitWaiter k) st in
            (st, Some k)
          else (st, None)
      | None => (st, None)
      end
  | None => (st, None)
  end.

(** The callback of the [forceKill] timer of promise [k]:
    [if (!currentStreamProcess.killed) currentStreamProcess.kill("SIGKILL"); resolve();]
    It reads the module-level handle when it runs; on [null] the property
    access throws and nothing catches the exception. *)
Definition forceKill_callback (k : nat) (st : State) : State :=
  match currentStreamProcess st with
  | Some pid =>
      let st :=
        match procs st !! pid with
        | Some p =>
            if negb (killed p) then update_proc pid (kill "SIGKILL") st else st
        | None => st
        end in
      resolve_kill k st
  | None => throw_uncaught st
  end.

(** The "exit" listener attached by [killStreamProcess]:
    [clearTimeout(forceKill); currentStreamProcess = null; resolve();] *)
Definition kill_onExit (k : nat) (st : State) : State :=
  let st := clearTimeout k st in
  let st := set_currentStreamProcess None st in
  resolve_kill k st.

(** The earlier server file guards the timer callback:
    [if (currentStreamProcess && !currentStreamProcess.killed)]. *)
Module LegacyKill.

Definition forceKill_callback (k : nat) (st : State) : State :=
  let st :=
    match currentStreamProcess st with
    | Some pid =>
        match procs st !! pid with
        | Some p =>
            if negb (killed p) then update_proc pid (kill "SIGKILL") st
            else st
        | None => st
        end
    | None => st
    end in
  resolve_kill k st.

End LegacyKill.

(** ** [startFFmpegStream] *)

(** The executor of the promise: it builds and logs the arguments, spawns
    the child, stores it in [currentStreamProcess], registers the
    callbacks below and arms the 30 second timer.  The result is the
    reference of the new child, which also identifies the promise.

    [spawn] is taken to return a child.  It does so whenever no argument
    holds a NUL character; on such an argument it throws instead, no
    process is started and the promise is rejected at once.  That case is
    outside this function: the properties that follow a request through
    the spawn require arguments without NUL character ([startable]
    below). *)
Definition startFFmpegStream (inputSource streamUrl streamKey : string)
    (shouldLoop : bool) (st : State) : State * nat :=
  let args := ffmpegArgs inputSource streamUrl streamKey shouldLoop in
  let st := log (startLogLine args) st in
  let pid := length (procs st) in
  let child :=
    {| spawnargs := args; killed := false; signalsSent := [];
       exited := false; streamStarted := false; startPromise := Pending;
       startTimer := true; exitWaiters := [] |} in
  let st := set_procs (procs st ++ [child]) st in
  let st := set_currentStreamProcess (Some pid) st in
  (st, pid).

(** [stdout.on("data", ...)] *)
Definition on_stdout (pid : nat) (data : string) (st : State) : State :=
  log ("FFmpeg stdout: " +:+ data) st.

(** The readiness test of the stderr callback *)
Definition readiness (output : string) : bool :=
  JS.includes output "Stream mapping:" || JS.includes output "Press [q] to stop".

(** [stderr.on("data", ...)] *)
Definition on_stderr (pid : nat) (data : string) (st : State) : State :=
  let output := data in
  let st := log ("FFmpeg stderr: " +:+ output) st in
  match procs st !! pid with
  | Some p =>
      if negb (streamStarted p) && readiness output then
        let st := update_proc pid set_streamStarted st in
        let st := set_streamStatus "live" st in
        update_proc pid (map_startPromise resolve) st
      else st
  | None => st
  end.

(** [on("error", ...)] *)
Definition on_error (pid : nat) (error : string) (st : State) : State :=
  let st := log ("FFmpeg process error: " +:+ error) st in
  let st := set_streamStatus "error" st in
  let st := set_currentStreamProcess None st in
  update_proc pid (map_startPromise (reject error)) st.

Definition showSignal (signal : option string) : string :=
  match signal with None => "null" | Some s => s end.

(** [code === 0] *)
Definition code_is_zero (code : option Z) : bool :=
  match code with Some z => Z.eqb z 0 | None => false end.

(** [on("exit", (code, signal) => ...)] of [startFFmpegStream] *)
Definition on_exit (pid : nat) (code : option Z) (signal : option string)
    (st : State) : State :=
  let st :=
    log ("FFmpeg process exited with code " +:+ JS.showCode code +:+
         " and signal " +:+ showSignal signal) st in
  let st :=
    if code_is_zero code then set_streamStatus "idle" st
    else match code with
         | Some _ => set_streamStatus "error" st
         | None => st
         end in
  let st := set_currentStreamProcess None st in
  match procs st !! pid with
  | Some p =>
      if negb (streamStarted p) && negb (code_is_zero code) then
        update_proc pid
          (map_startPromise
             (reject ("FFmpeg exited with code " +:+ JS.showCode code))) st
      else st
  | None => st
  end.

(** The callback of [setTimeout(..., 30000)] *)
Definition on_timeout (pid : nat) (st : State) : State :=
  match procs st !! pid with
  | Some p =>
      if negb (streamStarted p) then
        update_proc pid
          (map_startPromise (reject "FFmpeg failed to start within timeout")) st
      else st
  | None => st
  end.

(** Emission of "exit" on child [pid]: the process has ended, and the
    listeners run in the order of their registration, the one of
    [startFFmpegStream] first, then those of [killStreamProcess]. *)
Definition emit_exit (pid : nat) (code : option Z) (signal : option string)
    (st : State) : State :=
  let waiters :=
    match procs st !! pid with Some p => exitWaiters p | None => [] end in
  let st := update_proc pid set_exited st in
  let st := on_exit pid code signal st in
  foldl (fun st k => kill_onExit k st) st waiters.

(** Emission of "error" on child [pid] (the spawn failed): no "exit"
    follows. *)
Definition emit_error (pid : nat) (error : string) (st : State) : State :=
  let st := update_proc pid set_exited st in
  on_error pid error st.

(** ** [/api/status] *)

Record StatusResponse := mkStatusResponse {
  status_field : string;
  hasActiveProcess : bool
}.

(** [res.json({ status: streamStatus, hasActiveProcess: !!currentStreamProcess })] *)
Definition getStatus (st : State) : StatusResponse :=
  {| status_field := streamStatus st;
     hasActiveProcess :=
       match currentStreamProcess st with Some _ => true | None => false end |}.

(** ** Request handlers *)

(** [res.status(code).send(text)] and [res.json({ message, status })] *)
Inductive Response :=
| Send (code : nat) (text : string)
| Json (message : string) (status : string).

(** What a suspended handler awaits. *)
Inductive Wait :=
| WaitKill (k : nat)       (* [await killStreamProcess()] *)
| WaitStart (pid : nat)    (* [await startFFmpegStream(...)] *)
| WaitIO.                  (* a [Stream] query or save, or a file-system call *)

(** A handler after it has run up to its next [await], or to its
    response. *)
#[local] Set Warnings "-register-all".
Inductive Task :=
| Respond (r : Response)
| Await (w : Wait) (continue : State -> State * Task).

(** Whether the awaited promise is settled. *)
Definition ready (w : Wait) (st : State) : bool :=
  match w with
  | WaitKill k =>
      match kills st !! k with Some kp => killResolved kp | None => false end
  | WaitStart pid =>
      match procs st !! pid with
      | Some p => settled (startPromise p)
      | None => false
      end
  | WaitIO => true
  end.

(** [await killStreamProcess()]: a promise resolved by its executor lets
    the handler go on before any other callback runs. *)
Definition await_kill (r : State * option nat)
    (continue : State -> State * Task) : State * Task :=
  match r with
  | (st, Some k) => (st, Await (WaitKill k) continue)
  | (st, None) => continue st
  end.

(** The [loopVideo] body field: absent, a string (multipart field) or a
    boolean (JSON body). *)
Inductive LoopField :=
| LoopAbsent
| LoopString (s : string)
| LoopBool (b : bool).

(** The parts of a [/api/go-live] request the handler reads. *)
Record GoLiveRequest := mkGoLiveRequest {
  req_user : nat;                     (* [req.user._id] *)
  body_streamUrl : option string;
  body_streamKey : option string;
  body_videoLink : option string;
  body_loopVideo : LoopField;
  file_path : option string           (* [req.file.path] of an uploaded file *)
}.

(** [loopVideo === 'true' || loopVideo === true] *)
Definition shouldLoop (f : LoopField) : bool :=
  match f with
  | LoopString s => String.eqb s "true"
  | LoopBool b => b
  | LoopAbsent => false
  end.

Definition set_doc (id : nat) (f : StreamDoc -> StreamDoc) (st : State)
    : State :=
  set_streams (alter f id (streams st)) st.

Definition doc_status (s : string) (d : StreamDoc) : StreamDoc :=
  {| userId := userId d; streamKey := streamKey d; streamUrl := streamUrl d;
     videoSource := videoSource d; videoPath := videoPath d; status := s;
     ended := ended d; errorMessage := errorMessage d |}.

Definition doc_error (message : string) (d : StreamDoc) : StreamDoc :=
  {| userId := userId d; streamKey := streamKey d; streamUrl := streamUrl d;
     videoSource := videoSource d; videoPath := videoPath d;
     status := "error"; ended := true; errorMessage := Some message |}.

Definition doc_stopped (d : StreamDoc) : StreamDoc :=
  {| userId := userId d; streamKey := streamKey d; streamUrl := streamUrl d;
     videoSource := videoSource d; videoPath := videoPath d;
     status := "stopped"; ended := true; errorMessage := errorMessage d |}.

(** *** [/api/go-live] *)

(** After [await startFFmpegStream(...)]: the [try] branch on a resolved
    promise, the [catch] branch on a rejected one. *)
Definition goLive_afterStart (doc pid : nat) (st : State) : State * Task :=
  let outcome :=
    match procs st !! pid with Some p => startPromise p | None => Pending end in
  match outcome with
  | Rejected message =>
      let st := log ("Failed to start stream: Error: " +:+ message) st in
      let st := set_doc doc (doc_error message) st in
      (st, Await WaitIO (fun st =>
         let st := set_streamStatus "error" st in
         (st, Respond (Send 500 ("Failed to start stream: " +:+ message)))))
  | _ =>
      let st := set_doc doc (doc_status "live") st in
      (st, Await WaitIO (fun st =>
         (st, Respond (Json "Stream started successfully" "live"))))
  end.

(** After the first [await stream.save()] *)
Definition goLive_afterSave (doc : nat) (inputSource streamUrl streamKey : string)
    (loop : bool) (st : State) : State * Task :=
  let '(st, pid) := startFFmpegStream inputSource streamUrl streamKey loop st in
  (st, Await (WaitStart pid) (goLive_afterStart doc pid)).

(** From [streamStatus = "starting"] to the first [await stream.save()] *)
Definition goLive_afterKill (req : GoLiveRequest) (streamUrl streamKey : string)
    (st : State) : State * Task :=
  let st := set_streamStatus "starting" st in
  let loop := shouldLoop (body_loopVideo req) in
  let source :=
    match file_path req with
    | Some path => Some (path, "file", "Using uploaded file: " +:+ path)
    | None =>
        match body_videoLink req with
        | Some link =>
            if JS.truthy (Some link)
            then Some (link, "url", "Using video URL: " +:+ link)
            else None
        | None => None
        end
    end in
  match source with
  | None => (st, Respond (Send 400 "Either video file or video link is required"))
  | Some (inputSource, videoSource, line) =>
      let st := log line st in
      if negb (JS.includes streamUrl "rtmp://") then
        (st, Respond (Send 400 "Invalid RTMP stream URL"))
      else
        let doc := length (streams st) in
        let stream :=
          {| userId := req_user req; streamKey := streamKey;
             streamUrl := streamUrl; videoSource := videoSource;
             videoPath := inputSource; status := "starting";
             ended := false; errorMessage := None |} in
        let st := set_streams (streams st ++ [stream]) st in
        (st, Await WaitIO
               (goLive_afterSave doc inputSource streamUrl streamKey loop))
  end.

(** The handler of [POST /api/go-live], from its entry to its first
    [await] or response. *)
Definition goLive (req : GoLiveRequest) (st : State) : State * Task :=
  match body_streamUrl req, body_streamKey req with
  | Some streamUrl, Some streamKey =>
      if negb (JS.truthy (Some streamUrl)) || negb (JS.truthy (Some streamKey))
      then (st, Respond (Send 400 "Stream URL and Stream Key are required"))
      else
        match currentStreamProcess st with
        | Some _ =>
            await_kill (killStreamProcess st)
                       (goLive_afterKill req streamUrl streamKey)
        | None => goLive_afterKill req streamUrl streamKey st
        end
  | _, _ => (st, Respond (Send 400 "Stream URL and Stream Key are required"))
  end.

(** *** [/api/stop] *)

(** [Stream.findOne({ userId, status: 'live' })]: the first live stream of
    the user, as its position in the collection. *)
Fixpoint findLive (user : nat) (ds : list StreamDoc) : option nat :=
  match ds with
  | [] => None
  | d :: ds' =>
      if Nat.eqb (userId d) user && String.eqb (status d) "live"
      then Some 0
      else option_map S (findLive user ds')
  end.

(** The clean-up of old uploads touches only the uploads directory; its
    file-system awaits are one suspension here.  Then the response. *)
Definition stop_cleanup (st : State) : State * Task :=
  (st, Await WaitIO (fun st =>
     (st, Respond (Json "Stream stopped successfully" "idle")))).

(** After [await killStreamProcess()] *)
Definition stop_afterKill (activeStream : option nat) (st : State)
    : State * Task :=
  let st := set_streamStatus "idle" st in
  match activeStream with
  | Some doc =>
      let st := set_doc doc doc_stopped st in
      (st, Await WaitIO stop_cleanup)
  | None => stop_cleanup st
  end.

Definition stop_kill (activeStream : option nat) (st : State) : State * Task :=
  await_kill (killStreamProcess st) (stop_afterKill activeStream).

(** After [await Stream.findOne(...)] *)
Definition stop_afterFind (user : nat) (st : State) : State * Task :=
  match findLive user (streams st) with
  | Some doc =>
      let st := set_doc doc (doc_status "stopping") st in
      (st, Await WaitIO (stop_kill (Some doc)))
  | None => stop_kill None st
  end.

(** The handler of [POST /api/stop], from its entry to its first [await]. *)
Definition stop (user : nat) (st : State) : State * Task :=
  let st := set_streamStatus "stopping" st in
  (st, Await WaitIO (stop_afterFind user)).

(** A handler that runs with no other callback in between: every [await]
    whose promise is settled is resumed at once, until the response or an
    [await] that has to wait. *)
Fixpoint uninterrupted (fuel : nat) (r : State * Task) : State * Task :=
  match fuel with
  | 0 => r
  | S fuel' =>
      match r with
      | (st, Await w continue) =>
          if ready w st then uninterrupted fuel' (continue st) else r
      | (_, Respond _) => r
      end
  end.

Definition response (t : Task) : option Response :=
  match t with Respond r => Some r | Await _ _ => None end.

(** ** The event loop *)

(** The server: the module state and the handlers in flight, by request
    number. *)
Record Server := mkServer {
  state : State;
  tasks : list Task
}.

Definition boot : Server := {| state := initial; tasks := [] |}.

(** One turn of the event loop. *)
Inductive Event :=
| GoLive (req : GoLiveRequest)       (* a [/api/go-live] request arrives *)
| Stop (user : nat)                  (* a [/api/stop] request arrives *)
| Resume (request : nat)             (* an awaited promise lets a handler go on *)
| Stdout (pid : nat) (data : string)
| Stderr (pid : nat) (data : string)
| SpawnError (pid : nat) (error : string)
| Exit (pid : nat) (code : option Z) (signal : option string)
| StartTimeout (pid : nat)           (* 30 seconds after the spawn *)
| ForceKillTimeout (k : nat).        (* 5 seconds after SIGTERM *)

Definition with_state (sv : Server) (st : State) : Server :=
  {| state := st; tasks := tasks sv |}.

Definition accept (sv : Server) (r : State * Task) : Server :=
  {| state := fst r; tasks := tasks sv ++ [snd r] |}.

(** [step e sv] is [None] when [e] cannot happen in [sv]: the server has
    crashed, the handler is not waiting or its promise is not settled, the
    process does not exist or has ended already, the timer is not armed.
    A handler whose promise is settled may go on at any later turn; Node
    resumes it before the next I/O callback, which is one of the orders
    allowed here.  Exceptions thrown by the [Stream] calls, which the
    handlers catch and answer with 500, are left out. *)
Definition step (e : Event) (sv : Server) : option Server :=
  let st := state sv in
  if crashed st then None else
  match e with
  | GoLive req => Some (accept sv (goLive req st))
  | Stop user => Some (accept sv (stop user st))
  | Resume i =>
      match tasks sv !! i with
      | Some (Await w continue) =>
          if ready w st then
            let r := continue st in
            Some {| state := fst r; tasks := <[i := snd r]> (tasks sv) |}
          else None
      | _ => None
      end
  | Stdout pid data =>
      match procs st !! pid with
      | Some _ => Some (with_state sv (on_stdout pid data st))
      | None => None
      end
  | Stderr pid data =>
      match procs st !! pid with
      | Some _ => Some (with_state sv (on_stderr pid data st))
      | None => None
      end
  | SpawnError pid error =>
      match procs st !! pid with
      | Some p =>
          if exited p then None
          else Some (with_state sv (emit_error pid error st))
      | None => None
      end
  | Exit pid code signal =>
      match procs st !! pid with
      | Some p =>
          if exited p then None
          else Some (with_state sv (emit_exit pid code signal st))
      | None => None
      end
  | StartTimeout pid =>
      match procs st !! pid with
      | Some p =>
          if startTimer p then
            Some (with_state sv
                    (on_timeout pid (update_proc pid clear_startTimer st)))
          else None
      | None => None
      end
  | ForceKillTimeout k =>
      match kills st !! k with
      | Some kp =>
          if forceKill kp then
            Some (with_state sv (forceKill_callback k (clearTimeout k st)))
          else None
      | None => None
      end
  end.

Fixpoint run (es : list Event) (sv : Server) : option Server :=
  match es with
  | [] => Some sv
  | e :: es' =>
      match step e sv with
      | Some sv' => run es' sv'
      | None => None
      end
  end.

(** The handlers that have started and not yet responded. *)
Definition suspended (t : Task) : bool :=
  match t with Await _ _ => true | Respond _ => false end.

Definition inFlight (sv : Server) : nat :=
  length (List.filter suspended (tasks sv)).

(** The child processes that are running. *)
Definition isRunning (st : State) (pid : nat) : bool :=
  match procs st !! pid with
  | Some p => negb (exited p)
  | None => false
  end.

Definition running (st : State) : list nat :=
  List.filter (isRunning st) (seq 0 (length (procs st))).

(** ** Stream-record queries (routes/streams.js, routes/admin.js) *)

(** A stream document as it is serialised in a response: [streamKey] is
    absent when the query excludes it. *)
Record StreamView := mkStreamView {
  view_userId : nat;
  view_streamKey : option string;
  view_streamUrl : string;
  view_videoSource : string;
  view_videoPath : string;
  view_status : string;
  view_errorMessage : option string
}.

(** [.select('-streamKey')] *)
Definition select_minus_streamKey (d : StreamDoc) : StreamView :=
  {| view_userId := userId d; view_streamKey := None;
     view_streamUrl := streamUrl d; view_videoSource := videoSource d;
     view_videoPath := videoPath d; view_status := status d;
     view_errorMessage := errorMessage d |}.

(** A query without projection returns every field. *)
Definition select_all (d : StreamDoc) : StreamView :=
  {| view_userId := userId d; view_streamKey := Some (streamKey d);
     view_streamUrl := streamUrl d; view_videoSource := videoSource d;
     view_videoPath := videoPath d; view_status := status d;
     view_errorMessage := errorMessage d |}.

(** [.sort({ createdAt: -1 })]: the collection is kept in creation order,
    so the newest document comes first after a reversal. *)
Definition newest_first (ds : list StreamDoc) : list StreamDoc := rev ds.

(** [GET /api/streams/history]:
    [Stream.find({ userId }).sort({ createdAt: -1 }).skip(skip).limit(limit).select('-streamKey')] *)
Definition history (user skip limit : nat) (ds : list StreamDoc)
    : list StreamView :=
  map select_minus_streamKey
      (take limit
         (drop skip
            (newest_first
               (List.filter (fun d => Nat.eqb (userId d) user) ds)))).

(** [GET /api/admin/streams]:
    [Stream.find({}).populate('userId', 'username email').sort({ createdAt: -1 })] *)
Definition admin_streams (ds : list StreamDoc) : list StreamView :=
  map select_all (newest_first ds).

(** Two collections that agree on everything but the stream keys. *)
Definition same_but_keys (ds ds' : list StreamDoc) : Prop :=
  map select_minus_streamKey ds = map select_minus_streamKey ds'.

(** What has happened to the operating-system process behind a child:
    the signals sent to it through the handle, and whether it has ended. *)
Definition fate (p : ChildProcess) : list string * bool :=
  (signalsSent p, exited p).

Definition fates (st : State) : list (list string * bool) :=
  fate <$> procs st.

(** The status that the "exit" callback of [startFFmpegStream] leaves:
    idle on code 0, error on any other number, the previous one on
    [null]. *)
Definition status_after_exit (code : option Z) (before : string) : string :=
  match code with
  | Some z => if Z.eqb z 0 then "idle" else "error"
  | None => before
  end.

(** ** Invariants of the start promise *)

(** From one state of a child to a later one, a settled start promise
    keeps its value. *)
Definition proc_step (p p' : ChildProcess) : Prop :=
  settled (startPromise p) = true -> startPromise p' = startPromise p.

(** Once a readiness line has been seen the promise is settled, and while
    the promise is pending the 30 second timer is still armed. *)
Definition proc_ok (p : ChildProcess) : Prop :=
  (streamStarted p = true -> settled (startPromise p) = true)
  /\ (settled (startPromise p) = false -> startTimer p = true).

(** A change of the table of children: every child is still there, settled
    promises are kept, and [proc_ok] is preserved. *)
Definition procs_step (ps ps' : list ChildProcess) : Prop :=
  (forall pid p, ps !! pid = Some p ->
     exists p', ps' !! pid = Some p' /\ proc_step p p')
  /\ (Forall proc_ok ps -> Forall proc_ok ps').

(** Changes that leave the promise, the readiness flag and the timer of a
    child alone. *)
Definition keeps_closure (f : ChildProcess -> ChildProcess) : Prop :=
  forall p, startPromise (f p) = startPromise p
            /\ streamStarted (f p) = streamStarted p
            /\ startTimer (f p) = startTimer p.

(** Every continuation of a handler changes the table of children in that
    way, from whatever state it is resumed in. *)
Fixpoint task_sound (t : Task) : Prop :=
  match t with
  | Respond _ => True
  | Await _ continue =>
      forall st,
        match continue st with
        | (st', t') => procs_step (procs st) (procs st') /\ task_sound t'
        end
  end.

Definition handler_sound (h : State -> State * Task) : Prop :=
  forall st,
    match h st with
    | (st', t') => procs_step (procs st) (procs st') /\ task_sound t'
    end.

Definition server_ok (sv : Server) : Prop :=
  Forall proc_ok (procs (state sv)) /\ Forall task_sound (tasks sv).

(** ** Requests that reach the spawn *)

(** [spawn] throws, and starts no process, when one of its arguments holds
    a NUL character; the input source, the stream URL and the stream key
    are the arguments that come from the request. *)
Definition noNullByte (s : string) : Prop :=
  JS.includes s (String "000" EmptyString) = false.

(** The input source the go-live handler takes from a request: the path of
    the uploaded file, or else the video link when it is not empty. *)
Definition hasInput (req : GoLiveRequest) (inputSource : string) : Prop :=
  file_path req = Some inputSource
  \/ (file_path req = None /\ body_videoLink req = Some inputSource
      /\ JS.truthy (Some inputSource) = true).

(** A go-live request that passes every check of the handler and whose
    arguments [spawn] accepts. *)
Definition startable (req : GoLiveRequest)
    (streamUrl streamKey inputSource : string) : Prop :=
  body_streamUrl req = Some streamUrl
  /\ body_streamKey req = Some streamKey
  /\ JS.truthy (Some streamUrl) = true
  /\ JS.truthy (Some streamKey) = true
  /\ JS.includes streamUrl "rtmp://" = true
  /\ hasInput req inputSource
  /\ noNullByte streamUrl /\ noNullByte streamKey /\ noNullByte inputSource.

(** The child process as [startFFmpegStream] leaves it. *)
Definition newChild (inputSource streamUrl streamKey : string) (loop : bool)
    : ChildProcess :=
  {| spawnargs := ffmpegArgs inputSource streamUrl streamKey loop;
     killed := false; signalsSent := []; exited := false;
     streamStarted := false; startPromise := Pending;
     startTimer := true; exitWaiters := [] |}.

(** ** Example sessions *)

(** A go-live request that streams a remote clip. *)
Definition linkRequest (user : nat) (streamKey : string) : GoLiveRequest :=
  {| req_user := user;
     body_streamUrl := Some "rtmp://a.rtmp.youtube.com/live2";
     body_streamKey := Some streamKey;
     body_videoLink := Some "https://example.com/clip.mp4";
     body_loopVideo := LoopAbsent;
     file_path := None |}.

Definition after (es : list Event) : Server := default boot (run es boot).

(** The request is accepted, its record saved and FFmpeg spawned. *)
Definition toStarting : list Event :=
  [GoLive (linkRequest 7 "alpha-key"); Resume 0].

(** FFmpeg then prints a readiness line and the handler responds. *)
Definition toLive : list Event :=
  toStarting ++ [Stderr 0 "Press [q] to stop"; Resume 0; Resume 0].

Definition startingServer : Server := after toStarting.
Definition liveServer : Server := after toLive.

(** A go-live request with stream URL and key but neither an uploaded
    file nor a video link. *)
Definition noInputRequest : GoLiveRequest :=
  {| req_user := 7;
     body_streamUrl := Some "rtmp://a.rtmp.youtube.com/live2";
     body_streamKey := Some "alpha-key";
     body_videoLink := None;
     body_loopVideo := LoopAbsent;
     file_path := None |}.

(** A stop request whose process exits with [code] and [signal] while the
    handler awaits [killStreamProcess], with no other callback in
    between. *)
Definition stop_then_exit (user pid : nat) (code : option Z)
    (signal : option string) (st : State) : State * Task :=
  let r := uninterrupted 2 (stop user st) in
  uninterrupted 3 (emit_exit pid code signal (fst r), snd r).

(** ** Invariants of the supervisor state *)

(** The values that [streamStatus] is assigned in the server file, and the
    [enum] of the [status] path of the Stream schema. *)
Definition statusValues : list string :=
  ["idle"; "starting"; "live"; "stopping"; "error"].

Definition recordStatusValues : list string :=
  ["starting"; "live"; "stopping"; "stopped"; "error"].

(** The handle, when there is one, refers to a child that is running. *)
Definition handle_valid (st : State) : Prop :=
  match currentStreamProcess st with
  | Some pid => isRunning st pid = true
  | None => True
  end.

(** The argument list of a child starts with the native-rate flag and ends
    with a destination that includes the RTMP scheme. *)
Definition args_ok (p : ChildProcess) : Prop :=
  head (spawnargs p) = Some "-re"
  /\ exists dest,
       last (spawnargs p) = Some dest /\ JS.includes dest "rtmp://" = true.

(** Signals go out through [kill] only: SIGTERM and SIGKILL, and [killed]
    is set exactly when one has been delivered. *)
Definition signals_ok (p : ChildProcess) : Prop :=
  Forall (fun s => s = "SIGTERM" \/ s = "SIGKILL") (signalsSent p)
  /\ (killed p = true <-> signalsSent p <> []).

(** What holds of the state whatever the handle is. *)
Definition rest_ok (st : State) : Prop :=
  In (streamStatus st) statusValues
  /\ Forall (fun d => In (status d) recordStatusValues) (streams st)
  /\ Forall args_ok (procs st)
  /\ Forall signals_ok (procs st).

Definition state_ok (st : State) : Prop :=
  handle_valid st /\ rest_ok st.

(** Changes of a child that keep its arguments and [signals_ok]. *)
Definition keeps_child (f : ChildProcess -> ChildProcess) : Prop :=
  forall p, spawnargs (f p) = spawnargs p /\ (signals_ok p -> signals_ok (f p)).

(** A handler keeps an invariant of the state in each of its parts. *)
Fixpoint task_keeps (I : State -> Prop) (t : Task) : Prop :=
  match t with
  | Respond _ => True
  | Await _ continue =>
      forall st,
        I st ->
        match continue st with
        | (st', t') => I st' /\ task_keeps I t'
        end
  end.

Definition handler_keeps (I : State -> Prop) (h : State -> State * Task)
    : Prop :=
  forall st,
    I st ->
    match h st with
    | (st', t') => I st' /\ task_keeps I t'
    end.

(** A stop request whose process ignores SIGTERM: the [forceKill] timer of
    the kill promise fires while the handler awaits it, with no other
    callback in between. *)
Definition stop_then_forceKill (user : nat) (st : State) : State * Task :=
  let r := uninterrupted 2 (stop user st) in
  let k := length (kills st) in
  uninterrupted 3 (forceKill_callback k (clearTimeout k (fst r)), snd r).

(** Two go-live handlers and a stop interleave so that the timer armed for
    the first process fires when the second process is the current one. *)
Definition toStaleTimer : list Event :=
  [GoLive (linkRequest 7 "alpha-key"); Resume 0;
   GoLive (linkRequest 8 "bravo-key");
   GoLive (linkRequest 9 "charlie-key"); Resume 2].

(** ** Uploads: the multer configuration of the server *)

Module Upload.

(** The character class [a-zA-Z0-9.-] of the [filename] callback. *)
Definition keptChar (c : ascii) : bool :=
  let n := nat_of_ascii c in
  (Nat.leb 97 n && Nat.leb n 122)        (* a-z *)
  || (Nat.leb 65 n && Nat.leb n 90)      (* A-Z *)
  || (Nat.leb 48 n && Nat.leb n 57)      (* 0-9 *)
  || Nat.eqb n 46                        (* . *)
  || Nat.eqb n 45.                       (* - *)

(** [file.originalname.replace(/[^a-zA-Z0-9.-]/g, "_")] *)
Fixpoint sanitize (s : string) : string :=
  match s with
  | EmptyString => EmptyString
  | String c s' => String (if keptChar c then c else "_"%char) (sanitize s')
  end.

(** [`${timestamp}-${sanitized}`], with [timestamp = Date.now()] *)
Definition filename (timestamp : N) (originalname : string) : string :=
  NilZero.string_of_uint (N.to_uint timestamp) +:+ "-" +:+ sanitize originalname.

(** Case folding of a regular expression with the [i] flag and no [u]
    flag: only the ASCII letters fold onto each other. *)
Definition lowerChar (c : ascii) : ascii :=
  let n := nat_of_ascii c in
  if Nat.leb 65 n && Nat.leb n 90 then ascii_of_nat (n + 32) else c.

Fixpoint lower (s : string) : string :=
  match s with
  | EmptyString => EmptyString
  | String c s' => String (lowerChar c) (lower s')
  end.

(** [s] ends with [suffix] *)
Fixpoint endsWith (s suffix : string) : bool :=
  String.eqb s suffix
  || match s with
     | EmptyString => false
     | String _ s' => endsWith s' suffix
     end.

Definition extensions : list string :=
  ["mp4"; "avi"; "mov"; "mkv"; "flv"; "wmv"; "webm"].

(** [/\.(mp4|avi|mov|mkv|flv|wmv|webm)$/i.test(file.originalname)] *)
Definition allowedTypes (originalname : string) : bool :=
  existsb (fun ext => endsWith (lower originalname) ("." +:+ ext)) extensions.

(** The characters a stored file name is made of. *)
Definition nameChar (c : ascii) : bool := keptChar c || Ascii.eqb c "_".

Fixpoint allChars (f : ascii -> bool) (s : string) : bool :=
  match s with
  | EmptyString => true
  | String c s' => f c && allChars f s'
  end.

End Upload.

(** ** The [pre('save')] hook of the Stream schema *)

Module StreamTiming.

(** The date paths of a stream document, as the time values of their
    [Date] objects, and its [duration] in seconds; [None] is an unset
    path. *)
Record Timing := mkTiming {
  startedAt : option Z;
  endedAt : option Z;
  duration : option Z
}.

(** The time value of a [Date]: a whole number of milliseconds of
    magnitude at most 8.64e15, which is below 2^53 and exact as a
    double. *)
Definition timeValue (z : Z) : Prop :=
  (-8640000000000000 <= z <= 8640000000000000)%Z.

(** The double nearest to a whole number of magnitude below 2^54: the
    number itself below 2^53, where every whole number is a double, and
    from there on the nearest even number, an odd number going to its
    neighbour that is a multiple of 4 (round half to even). *)
Definition toDouble (n : Z) : Z :=
  if (Z.abs n <? 2 ^ 53)%Z then n
  else if Z.even n then n
  else if Z.even ((n + 1) / 2) then (n + 1)%Z
  else (n - 1)%Z.

(** [!this.duration]: unset and 0 are falsy. *)
Definition noDuration (d : option Z) : bool :=
  match d with
  | None => true
  | Some z => Z.eqb z 0
  end.

(** [if (this.endedAt && this.startedAt && !this.duration)
       this.duration = Math.floor((this.endedAt - this.startedAt) / 1000)]

    The subtraction is one of doubles: its result is [toDouble] of the
    exact difference of the two time values.  The quotient by 1000 is
    below 2^44 and is either a whole number or at least 0.001 away from
    the next one, more than the rounding error of the division (at most
    2^-10), so [Math.floor] of it is the floor of the exact quotient. *)
Definition preSave (t : Timing) : Timing :=
  match endedAt t, startedAt t with
  | Some e, Some s =>
      if noDuration (duration t)
      then {| startedAt := startedAt t; endedAt := endedAt t;
              duration := Some (toDouble (e - s) / 1000)%Z |}
      else t
  | _, _ => t
  end.

End StreamTiming.

(** ** [formatDuration] of the dashboard components *)

Module Dashboard.

Definition showZ (z : Z) : string := NilZero.string_of_int (Z.to_int z).

(** [Math.floor(seconds / 3600)], [Math.floor((seconds % 3600) / 60)] and
    [seconds % 60]; [%] takes the sign of the dividend.

    [seconds] is a whole number of magnitude below 2^53, as is every
    duration the pre-save hook stores.  There the remainders are exact and
    the quotient by 3600 is either whole or at least 1/3600 away from the
    next whole number, more than the rounding error of the division (at
    most 2^-12), so each [Math.floor] is the floor of the exact quotient,
    and the template literal prints the parts in plain decimal digits.
    Larger doubles and fractions are outside these definitions. *)
Definition hours (seconds : Z) : Z := (seconds / 3600)%Z.
Definition minutes (seconds : Z) : Z := (Z.rem seconds 3600 / 60)%Z.
Definition secs (seconds : Z) : Z := Z.rem seconds 60.

(** [!seconds]: [undefined] and 0 are falsy. *)
Definition noSeconds (seconds : option Z) : bool :=
  match seconds with
  | None => true
  | Some z => Z.eqb z 0
  end.

(** [formatDuration] of the admin dashboard *)
Definition formatDuration_admin (seconds : option Z) : string :=
  match seconds with
  | Some s =>
      if noSeconds seconds then "N/A"
      else showZ (hours s) +:+ "h " +:+ showZ (minutes s) +:+ "m " +:+
           showZ (secs s) +:+ "s"
  | None => "N/A"
  end.

(** [formatDuration] of the stream history *)
Definition formatDuration_history (seconds : option Z) : string :=
  match seconds with
  | Some s =>
      if noSeconds seconds then "N/A"
      else if Z.ltb 0 (hours s) then
        showZ (hours s) +:+ "h " +:+ showZ (minutes s) +:+ "m " +:+
        showZ (secs s) +:+ "s"
      else if Z.ltb 0 (minutes s) then
        showZ (minutes s) +:+ "m " +:+ showZ (secs s) +:+ "s"
      else showZ (secs s) +:+ "s"
  | None => "N/A"
  end.

End Dashboard.

(** ** The history route with its pagination (routes/streams.js) *)

Module History.

(** [parseInt(x) || d]: [NaN] (here [None]) and 0 are falsy. *)
Definition orDefault (parsed : option Z) (d : Z) : Z :=
  match parsed with
  | Some z => if Z.eqb z 0 then d else z
  | None => d
  end.

(** [Math.ceil(a / b)] on integers *)
Definition ceilDiv (a b : Z) : Z := (- ((- a) / b))%Z.

Record Pagination := mkPagination {
  currentPage : Z;
  totalPages : Z;
  totalStreams : nat;
  hasNext : bool;
  hasPrev : bool
}.

(** [Stream.countDocuments({ userId })] *)
Definition countDocuments (user : nat) (ds : list StreamDoc) : nat :=
  length (List.filter (fun d => Nat.eqb (userId d) user) ds).

(** The handler of [GET /history].  The result is [None] when the query is
    refused: MongoDB rejects a negative [skip], and the handler answers 500.
    A negative [limit] is sent to the server as its absolute value. *)
Definition getHistory (user : nat) (queryPage queryLimit : option Z)
    (ds : list StreamDoc) : option (list StreamView * Pagination) :=
  let page := orDefault queryPage 1 in
  let limit := orDefault queryLimit 10 in
  let skip := ((page - 1) * limit)%Z in
  if (skip <? 0)%Z then None
  else
    let streams :=
      history user (Z.to_nat skip) (Z.to_nat (Z.abs limit)) ds in
    let totalStreams := countDocuments user ds in
    let totalPages := ceilDiv (Z.of_nat totalStreams) limit in
    Some (streams,
          {| currentPage := page;
             totalPages := totalPages;
             totalStreams := totalStreams;
             hasNext := (page <? totalPages)%Z;
             hasPrev := (1 <? page)%Z |}).

(** The streams and the page count of a response; a refused query shows
    no streams. *)
Definition streamsOf (r : option (list StreamView * Pagination))
    : list StreamView :=
  match r with Some (views, _) => views | None => [] end.

Definition pagesOf (r : option (list StreamView * Pagination)) : Z :=
  match r with Some (_, pg) => totalPages pg | None => 0%Z end.

End History.

(** ** Stopping a stream from the admin routes (routes/admin.js) *)

Module Admin.

Inductive StopResponse :=
| NotFound                              (* 404, 'Stream not found' *)
| NotLive                               (* 400, 'Stream is not currently live' *)
| StopInitiated (stream : StreamView).  (* { message, stream } *)

(** [POST /streams/:streamId/stop], up to its response; a stream id is the
    position of the document in the collection. *)
Definition stopStream (streamId : nat) (st : State) : State * StopResponse :=
  match streams st !! streamId with
  | None => (st, NotFound)
  | Some stream =>
      if negb (String.eqb (status stream) "live") then (st, NotLive)
      else
        (set_doc streamId (doc_status "stopping") st,
         StopInitiated (select_all (doc_status "stopping" stream)))
  end.

(** The callback of its [setTimeout(..., 2000)] *)
Definition stopStream_timer (streamId : nat) (st : State) : State :=
  set_doc streamId doc_stopped st.

End Admin.

(** * Properties *)

(** ** Strings *)

Section StringFacts.

Lemma append_cons (x : ascii) (a b : string) :
  String x a +:+ b = String x (a +:+ b).
Proof. reflexivity. Qed.

Lemma append_assoc (a b c : string) : (a +:+ b) +:+ c = a +:+ (b +:+ c).
Proof.
  induction a as [|x a IH]; [reflexivity|].
  by rewrite !append_cons, IH.
Qed.

Lemma prefix_append (p t : string) : String.prefix p (p +:+ t) = true.
Proof.
  induction p as [|x p IH]; [by destruct t|].
  rewrite append_cons. simpl.
  destruct (ascii_dec x x); [exact IH | congruence].
Qed.

Lemma prefix_refl (p : string) : String.prefix p p = true.
Proof.
  induction p as [|x p IH]; simpl; [reflexivity|].
  destruct (ascii_dec x x); [exact IH | congruence].
Qed.

(** A string includes each of its suffixes. *)
Lemma includes_suffix (s p : string) : JS.includes (s +:+ p) p = true.
Proof.
  induction s as [|x s IH].
  - change ("" +:+ p) with p.
    destruct p; simpl; [reflexivity|].
    destruct (ascii_dec a a); [|congruence].
    by rewrite prefix_refl.
  - rewrite append_cons. cbn [JS.includes]. rewrite IH. apply orb_true_r.
Qed.

Lemma concat_snoc (sep : string) (l : list string) (x : string) :
  exists pre, String.concat sep (l ++ [x]) = pre +:+ x.
Proof.
  induction l as [|y l IH].
  - by exists "".
  - destruct IH as [pre Hpre].
    change ((y :: l) ++ [x]) with (y :: (l ++ [x])).
    destruct (l ++ [x]) as [|z l'] eqn:E.
    + by destruct l.
    + exists (y +:+ sep +:+ pre).
      change (String.concat sep (y :: z :: l'))
        with (y +:+ sep +:+ String.concat sep (z :: l')).
      by rewrite Hpre, !append_assoc.
Qed.

Lemma includes_backslash_cons (c : ascii) (s : string) :
  JS.includes (String c s) "\" = Ascii.eqb c "\" || JS.includes s "\".
Proof.
  cbn [JS.includes String.prefix].
  destruct (ascii_dec "\" c) as [<-|Hne].
  - by destruct s.
  - rewrite (proj2 (Ascii.eqb_neq c "\")); [reflexivity | congruence].
Qed.

(** After the replacement no backslash is left. *)
Lemma replaceBackslashes_clean (s : string) :
  JS.includes (JS.replaceBackslashes s) "\" = false.
Proof.
  induction s as [|c s IH]; [reflexivity|].
  cbn [JS.replaceBackslashes]. rewrite includes_backslash_cons, IH.
  destruct (Ascii.eqb c "\") eqn:E; [reflexivity|].
  by rewrite E.
Qed.

(** The replacement works character by character. *)
Lemma replaceBackslashes_get (s : string) (n : nat) :
  String.get n (JS.replaceBackslashes s) =
  option_map (fun c => if Ascii.eqb c "\" then "/"%char else c)
             (String.get n s).
Proof.
  revert n. induction s as [|c s IH]; intros [|n]; simpl; auto.
Qed.

Lemma replaceBackslashes_id (s : string) :
  JS.includes s "\" = false -> JS.replaceBackslashes s = s.
Proof.
  induction s as [|c s IH]; [reflexivity|].
  rewrite includes_backslash_cons. intros [Hc Hs]%orb_false_iff.
  cbn [JS.replaceBackslashes]. by rewrite Hc, IH.
Qed.

Lemma endsWithSlash_append_slash (s : string) :
  JS.endsWithSlash (s +:+ "/") = true.
Proof.
  induction s as [|c s IH]; [reflexivity|].
  rewrite append_cons. cbn [JS.endsWithSlash].
  destruct (s +:+ "/") eqn:E; [by destruct s | exact IH].
Qed.

(** The base URL always ends with a slash once the pattern is applied. *)
Lemma ensureTrailingSlash_ends (s : string) :
  JS.endsWithSlash (JS.ensureTrailingSlash s) = true.
Proof.
  unfold JS.ensureTrailingSlash.
  destruct (JS.endsWithSlash s) eqn:E; [exact E|].
  apply endsWithSlash_append_slash.
Qed.

End StringFacts.

(** ** The force-kill timer in the two server files *)

(** With a handle in [currentStreamProcess] the two callbacks do the same;
    without one the earlier file resolves the promise and the current file
    throws out of the timer. *)
Lemma forceKill_callback_versions (k : nat) (st : State) :
  match currentStreamProcess st with
  | Some _ => forceKill_callback k st = LegacyKill.forceKill_callback k st
  | None =>
      crashed (forceKill_callback k st) = true
      /\ LegacyKill.forceKill_callback k st = resolve_kill k st
  end.
Proof.
  unfold forceKill_callback, LegacyKill.forceKill_callback.
  by destruct (currentStreamProcess st).
Qed.

(** ** Command Builder *)

(** C4. For every input source, stream URL, stream key and loop flag the
    argument list is the read-at-native-rate flag, then (only when looping)
    the infinite-loop flag, then the input flag with the input source, the
    fixed H.264/AAC parameters (maxrate 3000k with bufsize 6000k, yuv420p,
    keyframe interval 50, AAC at 128k, 2 channels, 44100 Hz), the flv
    container flag, and the destination URL last.  The list is this closed
    expression of the inputs, so equal inputs give the same list. *)
Theorem ffmpegArgs_sequence (inputSource streamUrl streamKey : string)
    (loop : bool) :
  let args := ffmpegArgs inputSource streamUrl streamKey loop in
  args =
    ["-re"] ++ (if loop then ["-stream_loop"; "-1"] else []) ++
    ["-i"; normalizeInput inputSource;
     "-c:v"; "libx264"; "-preset"; "veryfast";
     "-maxrate"; "3000k"; "-bufsize"; "6000k";
     "-pix_fmt"; "yuv420p"; "-g"; "50";
     "-c:a"; "aac"; "-b:a"; "128k"; "-ac"; "2"; "-ar"; "44100";
     "-f"; "flv";
     rtmpUrl streamUrl streamKey]
  /\ head args = Some "-re"
  /\ last args = Some (rtmpUrl streamUrl streamKey)
  /\ take (if loop then 3 else 1) args =
       "-re" :: (if loop then ["-stream_loop"; "-1"] else [])
  /\ args !! (if loop then 3 else 1) = Some "-i"
  /\ args !! (if loop then 4 else 2) = Some (normalizeInput inputSource)
  /\ length args = (if loop then 28 else 26).
Proof.
  destruct loop; cbv zeta; repeat split; reflexivity.
Qed.

(** The earlier server file builds the same list as the current one does
    without looping, for an input that needs no normalisation and a base
    URL that already ends with a slash. *)
Lemma Legacy_ffmpegArgs_agree (inputSource streamUrl streamKey : string) :
  JS.startsWith inputSource "C:" = false ->
  JS.endsWithSlash streamUrl = true ->
  Legacy.ffmpegArgs inputSource streamUrl streamKey =
  ffmpegArgs inputSource streamUrl streamKey false.
Proof.
  intros Hc Hs.
  unfold ffmpegArgs, Legacy.ffmpegArgs, normalizeInput, rtmpUrl,
    Legacy.rtmpUrl, JS.ensureTrailingSlash.
  by rewrite Hc, Hs.
Qed.

(** C7, as the code has it. The input source is normalised only when it
    starts with "C:": then every backslash has become a forward slash and
    none is left; any other input source is used as it was given.  The
    normalised string is the argument that follows the input flag. *)
Theorem normalizeInput_only_drive_C (inputSource streamUrl streamKey : string)
    (loop : bool) :
  let arg := normalizeInput inputSource in
  ffmpegArgs inputSource streamUrl streamKey loop !! (if loop then 4 else 2)
    = Some arg
  /\ (if JS.startsWith inputSource "C:"
      then arg = JS.replaceBackslashes inputSource
           /\ JS.includes arg "\" = false
           /\ String.length arg = String.length inputSource
      else arg = inputSource).
Proof.
  cbv zeta. split; [by destruct loop|].
  unfold normalizeInput.
  destruct (JS.startsWith inputSource "C:"); [|reflexivity].
  split; [reflexivity|]. split; [apply replaceBackslashes_clean|].
  induction inputSource as [|c s IH]; simpl; [reflexivity | by rewrite IH].
Qed.

(** C7, as the claim states it, fails: a path on drive D keeps its
    backslashes in the argument list. *)
Lemma normalizeInput_keeps_backslashes_off_drive_C :
  ffmpegArgs "D:\videos\clip.mp4" "rtmp://a.rtmp.youtube.com/live2" "key" false
    !! 2 = Some "D:\videos\clip.mp4"
  /\ JS.includes "D:\videos\clip.mp4" "\" = true.
Proof. split; reflexivity. Qed.

(** ** The stream key in logs and responses *)

(** The line logged by [startFFmpegStream] ends with the destination URL,
    and so includes the stream key, whatever the inputs are. *)
Lemma startLogLine_includes_streamKey
    (inputSource streamUrl streamKey : string) (loop : bool) :
  JS.includes
    (startLogLine (ffmpegArgs inputSource streamUrl streamKey loop))
    streamKey = true.
Proof.
  unfold startLogLine, JS.join, ffmpegArgs.
  set (dest := rtmpUrl streamUrl streamKey).
  assert (exists l, forall front : list string,
            front ++ ["-i"; normalizeInput inputSource] ++ encodingArgs ++ [dest]
            = (front ++ l) ++ [dest]) as [l Hl].
  { exists (["-i"; normalizeInput inputSource] ++ encodingArgs).
    intros front. by rewrite <- !app_assoc. }
  rewrite Hl.
  destruct (concat_snoc " "
              ((if loop then ["-re"] ++ ["-stream_loop"; "-1"] else ["-re"]) ++ l)
              dest) as [pre ->].
  unfold dest, rtmpUrl. rewrite <- !append_assoc. apply includes_suffix.
Qed.

Lemma startFFmpegStream_console
    (inputSource streamUrl streamKey : string) (loop : bool) (st : State) :
  console (fst (startFFmpegStream inputSource streamUrl streamKey loop st)) =
  console st ++
    [startLogLine (ffmpegArgs inputSource streamUrl streamKey loop)].
Proof. reflexivity. Qed.

Lemma filter_user_select (user : nat) (ds : list StreamDoc) :
  map select_minus_streamKey
      (List.filter (fun d => Nat.eqb (userId d) user) ds) =
  List.filter (fun v => Nat.eqb (view_userId v) user)
              (map select_minus_streamKey ds).
Proof.
  induction ds as [|d ds IH]; [reflexivity|].
  cbn [List.filter map]. change (view_userId (select_minus_streamKey d))
    with (userId d).
  destruct (Nat.eqb (userId d) user); cbn [map]; by rewrite IH.
Qed.

(** The history query does what its comment says: its response does not
    depend on the stream keys stored in the collection. *)
Lemma history_hides_streamKey (user skip limit : nat)
    (ds ds' : list StreamDoc) :
  same_but_keys ds ds' ->
  history user skip limit ds = history user skip limit ds'.
Proof.
  unfold same_but_keys, history, newest_first. intros H.
  rewrite <- !firstn_map, <- !skipn_map, !map_rev, !filter_user_select.
  by rewrite H.
Qed.

(** C8 on the code. Two go-live requests that differ only in the stream
    key leave different console output, each line carrying its key, and
    the admin listing of streams returns the stored key in its response. *)
Theorem stream_key_reaches_console_and_admin_response :
  let state_for key :=
    state (after [GoLive (linkRequest 7 key); Resume 0]) in
  last (console (state_for "alpha-key")) =
    Some ("Starting FFmpeg with args: -re -i https://example.com/clip.mp4 " +:+
          "-c:v libx264 -preset veryfast -maxrate 3000k -bufsize 6000k " +:+
          "-pix_fmt yuv420p -g 50 -c:a aac -b:a 128k -ac 2 -ar 44100 -f flv " +:+
          "rtmp://a.rtmp.youtube.com/live2/alpha-key")
  /\ console (state_for "alpha-key") <> console (state_for "bravo-key")
  /\ same_but_keys (streams (state_for "alpha-key")) (streams (state_for "bravo-key"))
  /\ view_streamKey <$> head (admin_streams (streams (state_for "alpha-key")))
       = Some (Some "alpha-key")
  /\ view_streamKey <$> head (history 7 0 10 (streams (state_for "alpha-key")))
       = Some None.
Proof.
  cbv zeta. split; [reflexivity|]. split; [|repeat split; reflexivity].
  vm_compute. discriminate.
Qed.

(** ** Callbacks of the child process *)

Section Callbacks.

Implicit Types (st : State) (p : ChildProcess) (pid k : nat).

(** The "exit" listeners of [killStreamProcess] touch the handle and the
    kill promises only. *)
Lemma kill_listeners_frame (ws : list nat) st :
  let st' := foldl (fun st k => kill_onExit k st) st ws in
  streamStatus st' = streamStatus st
  /\ procs st' = procs st
  /\ console st' = console st
  /\ streams st' = streams st
  /\ crashed st' = crashed st
  /\ (currentStreamProcess st = None -> currentStreamProcess st' = None).
Proof.
  revert st. induction ws as [|k ws IH]; intros st; cbn [foldl].
  - by repeat split.
  - specialize (IH (kill_onExit k st)). cbv zeta in IH.
    destruct IH as (H1 & H2 & H3 & H4 & H5 & H6).
    repeat split; try (etrans; [eassumption|reflexivity]).
    intros _. by apply H6.
Qed.

Lemma lookup_update_proc pid f st p :
  procs st !! pid = Some p ->
  procs (update_proc pid f st) !! pid = Some (f p).
Proof.
  intros H. unfold update_proc. cbn [procs set_procs].
  by rewrite list_lookup_alter_eq, H.
Qed.

Lemma lookup_update_proc_ne pid pid' f st :
  pid <> pid' ->
  procs (update_proc pid f st) !! pid' = procs st !! pid'.
Proof.
  intros H. unfold update_proc. cbn [procs set_procs].
  by rewrite list_lookup_alter_ne.
Qed.

Lemma on_exit_effect pid code signal st p :
  procs st !! pid = Some p ->
  let st' := on_exit pid code signal st in
  streamStatus st' = status_after_exit code (streamStatus st)
  /\ currentStreamProcess st' = None
  /\ console st' =
       console st ++
         ["FFmpeg process exited with code " +:+ JS.showCode code +:+
          " and signal " +:+ showSignal signal]
  /\ kills st' = kills st
  /\ streams st' = streams st
  /\ crashed st' = crashed st
  /\ procs st' =
       if negb (streamStarted p) && negb (code_is_zero code)
       then alter
              (map_startPromise
                 (reject ("FFmpeg exited with code " +:+ JS.showCode code)))
              pid (procs st)
       else procs st.
Proof.
  intros Hp. unfold on_exit.
  set (line := "FFmpeg process exited with code " +:+ _).
  set (st1 := log line st).
  set (st2 := if code_is_zero code then _ else _).
  assert (procs st2 = procs st /\ console st2 = console st ++ [line]
          /\ kills st2 = kills st /\ streams st2 = streams st
          /\ crashed st2 = crashed st
          /\ streamStatus st2 = status_after_exit code (streamStatus st))
    as (E1 & E2 & E3 & E4 & E5 & E6).
  { unfold st2, status_after_exit, code_is_zero.
    destruct code as [z|]; [destruct (Z.eqb z 0)|]; by repeat split. }
  cbv zeta. cbn [procs set_currentStreamProcess]. rewrite E1, Hp.
  destruct (negb (streamStarted p) && negb (code_is_zero code));
    cbn; rewrite ?E1, ?E2, ?E3, ?E4, ?E5, ?E6; by repeat split.
Qed.

End Callbacks.

(** C1, as the code has it. When the process of a live session exits,
    the "exit" event is handled, the exit code and signal are logged and
    the handle is released; the status becomes error on a non-zero exit
    code, idle on exit code 0, and is left as it was (live) when the
    process was ended by a signal and the code is [null].  No new process
    is started, and the settled start promise is not touched. *)
Theorem exit_of_live_process (sv : Server) (pid : nat) (p : ChildProcess)
    (code : option Z) (signal : option string) :
  crashed (state sv) = false ->
  streamStatus (state sv) = "live" ->
  procs (state sv) !! pid = Some p ->
  exited p = false ->
  streamStarted p = true ->
  exists sv',
    step (Exit pid code signal) sv = Some sv'
    /\ streamStatus (state sv') =
         match code with
         | Some z => if Z.eqb z 0 then "idle" else "error"
         | None => "live"
         end
    /\ getStatus (state sv') =
         {| status_field := streamStatus (state sv');
            hasActiveProcess := false |}
    /\ procs (state sv') = alter set_exited pid (procs (state sv))
    /\ last (console (state sv')) =
         Some ("FFmpeg process exited with code " +:+ JS.showCode code +:+
               " and signal " +:+ showSignal signal)
    /\ tasks sv' = tasks sv.
Proof.
  intros Hc Hlive Hp Hex Hstarted.
  unfold step. rewrite Hc, Hp, Hex. eexists. split; [reflexivity|].
  cbn [state tasks with_state]. unfold emit_exit. rewrite Hp.
  set (st1 := update_proc pid set_exited (state sv)).
  destruct (kill_listeners_frame (exitWaiters p) (on_exit pid code signal st1))
    as (F1 & F2 & F3 & _ & _ & F6).
  destruct (on_exit_effect pid code signal st1 (set_exited p))
    as (O1 & O2 & O3 & _ & _ & _ & O7).
  { by apply lookup_update_proc. }
  cbn [streamStarted set_exited] in O7. rewrite Hstarted in O7. cbn in O7.
  unfold getStatus. rewrite F1, F2, F3, (F6 O2), O1, O3, O7.
  repeat split.
  - unfold status_after_exit. cbn. by rewrite Hlive.
  - by rewrite last_snoc.
Qed.

(** The live server of the example, when its process exits with code 1. *)
Lemma exit_of_live_process_witness :
  exists sv',
    step (Exit 0 (Some 1%Z) None) liveServer = Some sv'
    /\ streamStatus (state sv') = "error"
    /\ getStatus (state sv') =
         {| status_field := streamStatus (state sv');
            hasActiveProcess := false |}
    /\ procs (state sv') = alter set_exited 0 (procs (state liveServer))
    /\ last (console (state sv')) =
         Some "FFmpeg process exited with code 1 and signal null"
    /\ tasks sv' = tasks liveServer.
Proof.
  eapply (exit_of_live_process liveServer 0 _ (Some 1%Z) None); reflexivity.
Defined.

(** C1, as the claim states it, fails: a live process ended by an external
    SIGKILL leaves the status at live with no process behind it, and a live
    process that exits with code 0 leaves the status at idle, not error. *)
Lemma live_status_survives_signal_exit :
  streamStatus (state liveServer) = "live"
  /\ isRunning (state liveServer) 0 = true
  /\ (exists sv',
        step (Exit 0 None (Some "SIGKILL")) liveServer = Some sv'
        /\ isRunning (state sv') 0 = false
        /\ getStatus (state sv') =
             {| status_field := "live"; hasActiveProcess := false |})
  /\ (exists sv',
        step (Exit 0 (Some 0%Z) None) liveServer = Some sv'
        /\ getStatus (state sv') =
             {| status_field := "idle"; hasActiveProcess := false |}).
Proof.
  split; [reflexivity|]. split; [reflexivity|].
  split; eexists; (split; [reflexivity|]); repeat split; reflexivity.
Qed.

Section Frames.

Context {A B : Type}.

Lemma fmap_alter_same (f : A -> B) (g : A -> A) (i : nat) (l : list A) :
  (forall x, f (g x) = f x) -> f <$> alter g i l = f <$> l.
Proof.
  intros H. revert i. induction l as [|x l IH]; intros [|i]; cbn;
    rewrite ?H, ?IH; reflexivity.
Qed.

End Frames.

Lemma fates_update_proc (pid : nat) (f : ChildProcess -> ChildProcess)
    (st : State) :
  (forall p, fate (f p) = fate p) ->
  fates (update_proc pid f st) = fates st.
Proof. intros H. unfold fates, update_proc. cbn. by apply fmap_alter_same. Qed.

Lemma isRunning_lookup (st : State) (pid : nat) (p : ChildProcess) :
  procs st !! pid = Some p -> isRunning st pid = negb (exited p).
Proof. intros H. unfold isRunning. by rewrite H. Qed.

(** C2, as the code has it. When the 30 second timer fires before any
    readiness line, the start promise is rejected with the timeout error
    and the go-live handler answers 500 with that message and sets the
    status to error.  No signal is sent to any process and none has ended:
    the straggler keeps running and stays in [currentStreamProcess]. *)
Theorem readiness_timeout_keeps_process (sv : Server) (request pid doc : nat)
    (p : ChildProcess) :
  crashed (state sv) = false ->
  tasks sv !! request = Some (Await (WaitStart pid) (goLive_afterStart doc pid)) ->
  procs (state sv) !! pid = Some p ->
  exited p = false ->
  startTimer p = true ->
  streamStarted p = false ->
  startPromise p = Pending ->
  exists sv',
    run [StartTimeout pid; Resume request; Resume request] sv = Some sv'
    /\ tasks sv' !! request =
         Some (Respond (Send 500
           "Failed to start stream: FFmpeg failed to start within timeout"))
    /\ streamStatus (state sv') = "error"
    /\ fates (state sv') = fates (state sv)
    /\ isRunning (state sv') pid = true
    /\ currentStreamProcess (state sv') = currentStreamProcess (state sv)
    /\ kills (state sv') = kills (state sv).
Proof.
  intros Hc Ht Hp Hex Htimer Hstarted Hpending.
  pose proof (lookup_lt_Some _ _ _ Ht) as Hlen.
  set (msg := "FFmpeg failed to start within timeout").
  set (st1 := update_proc pid (map_startPromise (reject msg))
                (update_proc pid clear_startTimer (state sv))).
  assert (Hp1 : procs st1 !! pid =
                Some (map_startPromise (reject msg) (clear_startTimer p))).
  { unfold st1. by do 2 apply lookup_update_proc. }
  assert (Hstep1 : step (StartTimeout pid) sv = Some (with_state sv st1)).
  { unfold step. rewrite Hc, Hp, Htimer. unfold on_timeout.
    rewrite (lookup_update_proc _ _ _ _ Hp).
    cbn [streamStarted clear_startTimer]. by rewrite Hstarted. }
  destruct (goLive_afterStart doc pid st1) as [st2 t2] eqn:E2.
  unfold goLive_afterStart in E2. rewrite Hp1 in E2.
  cbn [startPromise map_startPromise clear_startTimer] in E2.
  rewrite Hpending in E2. cbn [reject] in E2. inversion E2 as [[Est2 Et2]].
  clear E2.
  assert (Hstep2 : step (Resume request) (with_state sv st1) =
                   Some {| state := st2; tasks := <[request := t2]> (tasks sv) |}).
  { unfold step. cbn [state tasks with_state]. 
    replace (crashed st1) with false by (symmetry; exact Hc).
    rewrite Ht. unfold ready. rewrite Hp1.
    cbn [startPromise map_startPromise clear_startTimer].
    rewrite Hpending. cbn [reject settled].
    unfold goLive_afterStart. rewrite Hp1.
    cbn [startPromise map_startPromise clear_startTimer].
    rewrite Hpending. cbn [reject fst snd]. by rewrite Est2, Et2. }
  eexists. split.
  { cbn [run]. rewrite Hstep1, Hstep2.
    unfold step. cbn [state tasks].
    replace (crashed st2) with false by (rewrite <- Est2; symmetry; exact Hc).
    rewrite list_lookup_insert_eq by exact Hlen. rewrite <- Et2.
    cbn [ready fst snd]. reflexivity. }
  cbn [state tasks].
  split; [by rewrite list_lookup_insert_eq by (by rewrite length_insert)|].
  split; [reflexivity|].
  assert (Hf : fates st1 = fates (state sv)).
  { unfold st1. by rewrite !fates_update_proc. }
  rewrite <- Est2. repeat split; try exact Hf.
  erewrite isRunning_lookup.
  2:{ cbn [set_streamStatus set_doc set_streams log procs]. exact Hp1. }
  cbn [exited map_startPromise clear_startTimer]. by rewrite Hex.
Qed.

(** The starting server of the example, when its timer fires. *)
Lemma readiness_timeout_keeps_process_witness :
  exists sv',
    run [StartTimeout 0; Resume 0; Resume 0] startingServer = Some sv'
    /\ tasks sv' !! 0 =
         Some (Respond (Send 500
           "Failed to start stream: FFmpeg failed to start within timeout"))
    /\ streamStatus (state sv') = "error"
    /\ fates (state sv') = fates (state startingServer)
    /\ isRunning (state sv') 0 = true
    /\ currentStreamProcess (state sv') =
         currentStreamProcess (state startingServer)
    /\ kills (state sv') = kills (state startingServer).
Proof.
  eapply (readiness_timeout_keeps_process startingServer 0 0 0 _);
    reflexivity.
Defined.

(** C2, as the claim states it, fails: after the timeout and the error
    response the process has received no signal, is still running, and is
    still the current process. *)
Lemma straggler_outlives_timeout :
  let sv := after (toStarting ++ [StartTimeout 0; Resume 0; Resume 0]) in
  tasks sv !! 0 =
    Some (Respond (Send 500
      "Failed to start stream: FFmpeg failed to start within timeout"))
  /\ fates (state sv) = [([], false)]
  /\ running (state sv) = [0]
  /\ getStatus (state sv) =
       {| status_field := "error"; hasActiveProcess := true |}.
Proof. cbv zeta. repeat split; reflexivity. Qed.

(** ** The start promise settles once *)

Section SettleOnce.

Implicit Types (st : State) (p : ChildProcess) (ps : list ChildProcess).

Lemma procs_step_refl ps : procs_step ps ps.
Proof. split; [|done]. intros pid p H. exists p. by split. Qed.

Lemma procs_step_trans ps1 ps2 ps3 :
  procs_step ps1 ps2 -> procs_step ps2 ps3 -> procs_step ps1 ps3.
Proof.
  intros [E1 O1] [E2 O2]. split; [|auto].
  intros pid p H. destruct (E1 _ _ H) as (p' & H' & S1).
  destruct (E2 _ _ H') as (p'' & H'' & S2).
  exists p''. split; [done|]. intros Hs. unfold proc_step in *.
  rewrite S2; [by apply S1 | by rewrite S1].
Qed.

Lemma procs_step_alter (f : ChildProcess -> ChildProcess) (pid : nat) ps :
  (forall p, ps !! pid = Some p ->
     proc_step p (f p) /\ (proc_ok p -> proc_ok (f p))) ->
  procs_step ps (alter f pid ps).
Proof.
  intros Hf. split.
  - intros pid' p H. rewrite list_lookup_alter. case_decide as Hd.
    + subst pid'. rewrite H. exists (f p). split; [done|]. by apply Hf.
    + exists p. by split.
  - intros Hall. apply Forall_alter; [done|]. intros p H. by apply Hf.
Qed.

Lemma procs_step_spawn ps (child : ChildProcess) :
  proc_ok child -> procs_step ps (ps ++ [child]).
Proof.
  intros Hc. split.
  - intros pid p H. exists p. split; [by apply lookup_app_l_Some | done].
  - intros Hall. apply Forall_app. split; [done | by constructor].
Qed.

Lemma procs_step_keeps f pid ps :
  keeps_closure f -> procs_step ps (alter f pid ps).
Proof.
  intros Hk. apply procs_step_alter. intros p _.
  destruct (Hk p) as (E1 & E2 & E3).
  unfold proc_step, proc_ok. rewrite E1, E2, E3. by split.
Qed.

Lemma keeps_kill signal : keeps_closure (kill signal).
Proof. intros p. unfold kill. by destruct (exited p). Qed.

Lemma keeps_set_exited : keeps_closure set_exited.
Proof. by intros p. Qed.

Lemma keeps_add_exitWaiter k : keeps_closure (add_exitWaiter k).
Proof. by intros p. Qed.

Lemma step_reject message p :
  proc_step p (map_startPromise (reject message) p)
  /\ (proc_ok p -> proc_ok (map_startPromise (reject message) p)).
Proof.
  unfold proc_step, proc_ok. cbn. destruct (startPromise p); cbn; split;
    try done; intros [H1 H2]; split; auto; discriminate.
Qed.

Lemma killStreamProcess_step st :
  procs_step (procs st) (procs (fst (killStreamProcess st))).
Proof.
  unfold killStreamProcess.
  destruct (currentStreamProcess st) as [pid|]; [|apply procs_step_refl].
  destruct (procs st !! pid) as [p|]; [|apply procs_step_refl].
  destruct (killed p); cbn; [apply procs_step_refl|].
  eapply procs_step_trans; apply procs_step_keeps;
    [apply keeps_kill | apply keeps_add_exitWaiter].
Qed.

Lemma forceKill_callback_step k st :
  procs_step (procs st) (procs (forceKill_callback k (clearTimeout k st))).
Proof.
  unfold forceKill_callback. cbn.
  destruct (currentStreamProcess st) as [pid|]; cbn; [|apply procs_step_refl].
  destruct (procs st !! pid) as [p|]; cbn; [|apply procs_step_refl].
  destruct (killed p); cbn; [apply procs_step_refl|].
  apply procs_step_keeps, keeps_kill.
Qed.

Lemma on_stderr_step pid data st :
  procs_step (procs st) (procs (on_stderr pid data st)).
Proof.
  unfold on_stderr. cbn [procs log].
  destruct (procs st !! pid) as [p|] eqn:Hp; [|apply procs_step_refl].
  destruct (negb (streamStarted p) && readiness data) eqn:E;
    [|apply procs_step_refl].
  cbn. rewrite list_alter_alter_eq. apply procs_step_alter.
  intros p' Hp'. rewrite Hp in Hp'. injection Hp' as <-.
  unfold proc_step, proc_ok. cbn. destruct (startPromise p); cbn;
    repeat split; try done; intros [H1 H2]; split; auto; discriminate.
Qed.

Lemma emit_error_step pid error st :
  procs_step (procs st) (procs (emit_error pid error st)).
Proof.
  unfold emit_error, on_error. cbn.
  eapply procs_step_trans; [apply procs_step_keeps, keeps_set_exited|].
  apply procs_step_alter. intros p _. apply step_reject.
Qed.

Lemma on_exit_step pid code signal st :
  procs_step (procs st) (procs (on_exit pid code signal st)).
Proof.
  destruct (procs st !! pid) as [p|] eqn:Hp.
  - destruct (on_exit_effect pid code signal st p Hp)
      as (_ & _ & _ & _ & _ & _ & ->).
    destruct (negb (streamStarted p) && negb (code_is_zero code));
      [|apply procs_step_refl].
    apply procs_step_alter. intros p' _. apply step_reject.
  - unfold on_exit.
    set (st2 := if code_is_zero code then _ else _).
    assert (E : procs st2 = procs st).
    { unfold st2. destruct (code_is_zero code); [done|]. by destruct code. }
    cbn [procs set_currentStreamProcess]. rewrite E, Hp. cbn. rewrite E.
    apply procs_step_refl.
Qed.

Lemma emit_exit_step pid code signal st :
  procs_step (procs st) (procs (emit_exit pid code signal st)).
Proof.
  unfold emit_exit.
  match goal with |- context [foldl ?f ?a ?l] =>
    destruct (kill_listeners_frame l a) as (_ & -> & _) end.
  eapply procs_step_trans; [|apply on_exit_step].
  apply procs_step_keeps, keeps_set_exited.
Qed.

Lemma on_timeout_step pid st :
  procs_step (procs st)
             (procs (on_timeout pid (update_proc pid clear_startTimer st))).
Proof.
  unfold on_timeout.
  destruct (procs st !! pid) as [p|] eqn:Hp.
  - rewrite (lookup_update_proc _ _ _ _ Hp). cbn [streamStarted clear_startTimer].
    destruct (streamStarted p) eqn:Hs; cbn.
    + apply procs_step_alter. intros p' Hp'. rewrite Hp in Hp'.
      injection Hp' as <-. unfold proc_step, proc_ok. cbn. rewrite Hs.
      split; [done|]. intros [H1 H2]. split; [done|].
      rewrite (H1 eq_refl). discriminate.
    + rewrite list_alter_alter_eq. apply procs_step_alter.
      intros p' Hp'. rewrite Hp in Hp'. injection Hp' as <-.
      unfold proc_step, proc_ok. cbn. rewrite Hs.
      destruct (startPromise p); cbn; repeat split; try done; discriminate.
  - assert (E : procs (update_proc pid clear_startTimer st) !! pid = None).
    { unfold update_proc. cbn. by rewrite list_lookup_alter_eq, Hp. }
    rewrite E. cbn. apply procs_step_alter. intros p' Hp'. congruence.
Qed.

Lemma startFFmpegStream_step inputSource streamUrl streamKey loop st :
  procs_step (procs st)
    (procs (fst (startFFmpegStream inputSource streamUrl streamKey loop st))).
Proof.
  cbn. apply procs_step_spawn. unfold proc_ok. cbn. split; [discriminate|done].
Qed.

End SettleOnce.

Section Handlers.

Implicit Types (st : State) (h : State -> State * Task).

Lemma handler_sound_same_procs h :
  (forall st, procs (fst (h st)) = procs st /\ task_sound (snd (h st))) ->
  handler_sound h.
Proof.
  intros H st. destruct (H st) as [E T]. destruct (h st) as [st' t'].
  cbn in *. rewrite E. split; [apply procs_step_refl | done].
Qed.

Lemma await_kill_sound st h :
  handler_sound h ->
  match await_kill (killStreamProcess st) h with
  | (st', t') => procs_step (procs st) (procs st') /\ task_sound t'
  end.
Proof.
  intros Hh. pose proof (killStreamProcess_step st) as Hk.
  destruct (killStreamProcess st) as [st1 [k|]]; cbn in *.
  - split; [done|]. exact Hh.
  - specialize (Hh st1). destruct (h st1) as [st' t'].
    destruct Hh as [Hs Ht]. split; [|done]. by eapply procs_step_trans.
Qed.

Lemma goLive_afterStart_sound doc pid : handler_sound (goLive_afterStart doc pid).
Proof.
  apply handler_sound_same_procs. intros st. unfold goLive_afterStart.
  destruct (match procs st !! pid with Some p => startPromise p | None => Pending end);
    cbn; (split; [done|]); intros st'; cbn; (split; [apply procs_step_refl|done]).
Qed.

Lemma goLive_afterSave_sound doc inputSource streamUrl streamKey loop :
  handler_sound (goLive_afterSave doc inputSource streamUrl streamKey loop).
Proof.
  intros st. unfold goLive_afterSave.
  pose proof (startFFmpegStream_step inputSource streamUrl streamKey loop st) as H.
  destruct (startFFmpegStream inputSource streamUrl streamKey loop st) as [st' pid].
  split; [exact H|]. apply goLive_afterStart_sound.
Qed.

Lemma goLive_afterKill_sound req streamUrl streamKey :
  handler_sound (goLive_afterKill req streamUrl streamKey).
Proof.
  intros st. unfold goLive_afterKill.
  match goal with |- context [match ?src with Some _ => _ | None => _ end] =>
    destruct src as [[[inputSource videoSource] line]|] end;
    [|split; [apply procs_step_refl | done]].
  destruct (negb (JS.includes streamUrl "rtmp://"));
    (split; [apply procs_step_refl|]); [done|].
  apply goLive_afterSave_sound.
Qed.

Lemma goLive_sound req st :
  match goLive req st with
  | (st', t') => procs_step (procs st) (procs st') /\ task_sound t'
  end.
Proof.
  unfold goLive.
  destruct (body_streamUrl req) as [streamUrl|];
    [|split; [apply procs_step_refl | done]].
  destruct (body_streamKey req) as [streamKey|];
    [|split; [apply procs_step_refl | done]].
  destruct (negb (JS.truthy (Some streamUrl)) || negb (JS.truthy (Some streamKey)));
    [split; [apply procs_step_refl | done]|].
  destruct (currentStreamProcess st).
  - apply await_kill_sound, goLive_afterKill_sound.
  - apply goLive_afterKill_sound.
Qed.

Lemma stop_cleanup_sound : handler_sound stop_cleanup.
Proof.
  intros st. split; [apply procs_step_refl|].
  intros st'. split; [apply procs_step_refl | done].
Qed.

Lemma stop_afterKill_sound activeStream :
  handler_sound (stop_afterKill activeStream).
Proof.
  intros st. unfold stop_afterKill. destruct activeStream as [doc|].
  - split; [apply procs_step_refl | apply stop_cleanup_sound].
  - apply (stop_cleanup_sound (set_streamStatus "idle" st)).
Qed.

Lemma stop_kill_sound activeStream : handler_sound (stop_kill activeStream).
Proof. intros st. apply await_kill_sound, stop_afterKill_sound. Qed.

Lemma stop_afterFind_sound user : handler_sound (stop_afterFind user).
Proof.
  intros st. unfold stop_afterFind.
  destruct (findLive user (streams st)) as [doc|].
  - split; [apply procs_step_refl | apply stop_kill_sound].
  - apply stop_kill_sound.
Qed.

Lemma stop_sound user st :
  match stop user st with
  | (st', t') => procs_step (procs st) (procs st') /\ task_sound t'
  end.
Proof. split; [apply procs_step_refl | apply stop_afterFind_sound]. Qed.

End Handlers.

(** Every turn of the event loop keeps settled promises, [proc_ok] and the
    soundness of the suspended handlers. *)
Lemma step_sound (e : Event) (sv sv' : Server) :
  Forall task_sound (tasks sv) ->
  step e sv = Some sv' ->
  procs_step (procs (state sv)) (procs (state sv'))
  /\ Forall task_sound (tasks sv').
Proof.
  intros Ht. unfold step. destruct (crashed (state sv)); [done|].
  destruct e as [req|user|i|pid data|pid data|pid error|pid code signal|pid|k].
  - intros [= <-]. pose proof (goLive_sound req (state sv)) as H.
    unfold accept. destruct (goLive req (state sv)) as [st' t']. cbn.
    destruct H as [H1 H2]. split; [done|]. apply Forall_app. by split; [|constructor].
  - intros [= <-]. pose proof (stop_sound user (state sv)) as H.
    unfold accept. destruct (stop user (state sv)) as [st' t']. cbn.
    destruct H as [H1 H2]. split; [done|]. apply Forall_app. by split; [|constructor].
  - destruct (tasks sv !! i) as [[r|w continue]|] eqn:Hi; try done.
    destruct (ready w (state sv)); [|done]. intros [= <-]. cbn.
    pose proof (Forall_lookup_1 _ _ _ _ Ht Hi (state sv)) as H.
    destruct (continue (state sv)) as [st' t']. cbn. destruct H as [H1 H2].
    split; [done|]. by apply Forall_insert.
  - destruct (procs (state sv) !! pid); [|done]. intros [= <-]. cbn.
    split; [apply procs_step_refl | done].
  - destruct (procs (state sv) !! pid); [|done]. intros [= <-]. cbn.
    split; [apply on_stderr_step | done].
  - destruct (procs (state sv) !! pid) as [p|]; [|done].
    destruct (exited p); [done|]. intros [= <-]. cbn.
    split; [apply emit_error_step | done].
  - destruct (procs (state sv) !! pid) as [p|]; [|done].
    destruct (exited p); [done|]. intros [= <-]. cbn.
    split; [apply emit_exit_step | done].
  - destruct (procs (state sv) !! pid) as [p|]; [|done].
    destruct (startTimer p); [|done]. intros [= <-]. cbn.
    split; [apply on_timeout_step | done].
  - destruct (kills (state sv) !! k) as [kp|]; [|done].
    destruct (forceKill kp); [|done]. intros [= <-]. cbn.
    split; [apply forceKill_callback_step | done].
Qed.

Lemma run_sound (es : list Event) (sv sv' : Server) :
  Forall task_sound (tasks sv) ->
  run es sv = Some sv' ->
  procs_step (procs (state sv)) (procs (state sv'))
  /\ Forall task_sound (tasks sv').
Proof.
  revert sv. induction es as [|e es IH]; intros sv Ht; cbn [run].
  - intros [= <-]. split; [apply procs_step_refl | done].
  - destruct (step e sv) as [sv1|] eqn:E; [|done]. intros Hrun.
    destruct (step_sound _ _ _ Ht E) as [S1 T1].
    destruct (IH sv1 T1 Hrun) as [S2 T2].
    split; [by eapply procs_step_trans | done].
Qed.

(** Every server reached from the boot state satisfies the invariant. *)
Lemma reachable_ok (es : list Event) (sv : Server) :
  run es boot = Some sv -> server_ok sv.
Proof.
  intros H. destruct (run_sound es boot sv) as [[_ S] T]; [by constructor|done|].
  split; [|done]. apply S. constructor.
Qed.

(** C3, as the code has it. On a server reached from boot, for every
    child process: (1) once its start promise is settled, no later event
    changes the verdict; (2) while the promise is pending the 30 second
    timer can still fire, and firing it rejects the promise with the
    timeout error; (3) an exit before any readiness line rejects the
    promise with "FFmpeg exited with code <code>" for every code other than
    0, [null] included, while an exit with code 0 leaves the promise
    pending, so that the verdict of that session is the timeout. *)
Theorem start_promise_settles_once (es : list Event) (sv : Server)
    (pid : nat) (p : ChildProcess) :
  run es boot = Some sv ->
  procs (state sv) !! pid = Some p ->
  (forall es' sv',
     run es' sv = Some sv' ->
     settled (startPromise p) = true ->
     startPromise <$> procs (state sv') !! pid = Some (startPromise p))
  /\ (crashed (state sv) = false ->
      startPromise p = Pending ->
      exists sv',
        step (StartTimeout pid) sv = Some sv'
        /\ startPromise <$> procs (state sv') !! pid =
             Some (Rejected "FFmpeg failed to start within timeout"))
  /\ (crashed (state sv) = false ->
      exited p = false ->
      startPromise p = Pending ->
      forall code signal,
      exists sv',
        step (Exit pid code signal) sv = Some sv'
        /\ startPromise <$> procs (state sv') !! pid =
             Some (if code_is_zero code then Pending
                   else Rejected ("FFmpeg exited with code " +:+
                                  JS.showCode code))).
Proof.
  intros Hrun Hp. destruct (reachable_ok _ _ Hrun) as [Hok Htasks].
  pose proof (Forall_lookup_1 _ _ _ _ Hok Hp) as [Hready Htimer].
  assert (Hpending : startPromise p = Pending ->
                     streamStarted p = false /\ startTimer p = true).
  { intros E. rewrite E in *. split; [|by apply Htimer].
    destruct (streamStarted p); [|done]. by specialize (Hready eq_refl). }
  split; [|split].
  - intros es' sv' Hrun' Hs.
    destruct (run_sound _ _ _ Htasks Hrun') as [[Hstep _] _].
    destruct (Hstep _ _ Hp) as (p' & -> & Hpp). cbn. by rewrite Hpp.
  - intros Hc E. destruct (Hpending E) as [Hs Ht].
    unfold step. rewrite Hc, Hp, Ht. eexists. split; [reflexivity|].
    cbn [state with_state]. unfold on_timeout.
    rewrite (lookup_update_proc _ _ _ _ Hp).
    cbn [streamStarted clear_startTimer]. rewrite Hs. cbn [negb].
    erewrite lookup_update_proc by (by apply lookup_update_proc).
    cbn. by rewrite E.
  - intros Hc Hex E code signal. destruct (Hpending E) as [Hs _].
    unfold step. rewrite Hc, Hp, Hex. eexists. split; [reflexivity|].
    cbn [state with_state]. unfold emit_exit. rewrite Hp.
    set (st1 := update_proc pid set_exited (state sv)).
    assert (Hp1 : procs st1 !! pid = Some (set_exited p))
      by (by apply lookup_update_proc).
    destruct (kill_listeners_frame (exitWaiters p)
                (on_exit pid code signal st1)) as (_ & -> & _).
    destruct (on_exit_effect pid code signal st1 _ Hp1)
      as (_ & _ & _ & _ & _ & _ & ->).
    cbn [streamStarted set_exited]. rewrite Hs. cbn [negb andb].
    destruct (code_is_zero code); cbn [negb].
    + rewrite Hp1. cbn. by rewrite E.
    + rewrite list_lookup_alter_eq, Hp1. cbn. by rewrite E.
Qed.

(** The start promise of the starting server of the example. *)
Lemma start_promise_settles_once_witness :
  (forall es' sv',
     run es' startingServer = Some sv' ->
     settled Pending = true ->
     startPromise <$> procs (state sv') !! 0 = Some Pending)
  /\ (crashed (state startingServer) = false ->
      Pending = Pending ->
      exists sv',
        step (StartTimeout 0) startingServer = Some sv'
        /\ startPromise <$> procs (state sv') !! 0 =
             Some (Rejected "FFmpeg failed to start within timeout"))
  /\ (crashed (state startingServer) = false ->
      false = false ->
      Pending = Pending ->
      forall code signal,
      exists sv',
        step (Exit 0 code signal) startingServer = Some sv'
        /\ startPromise <$> procs (state sv') !! 0 =
             Some (if code_is_zero code then Pending
                   else Rejected ("FFmpeg exited with code " +:+
                                  JS.showCode code))).
Proof.
  exact (start_promise_settles_once toStarting startingServer 0
           (mkChildProcess
              (ffmpegArgs "https://example.com/clip.mp4"
                 "rtmp://a.rtmp.youtube.com/live2" "alpha-key" false)
              false [] false false Pending true [])
           eq_refl eq_refl).
Defined.

(** C3, as the claim states it, fails: a process that exits with code 0
    before any readiness line settles nothing (the handler keeps waiting),
    and the verdict that reaches the caller 30 seconds later is the
    timeout, with no exit code in it. *)
Lemma exit_code_zero_is_no_verdict :
  let sv1 := after (toStarting ++ [Exit 0 (Some 0%Z) None]) in
  let sv2 :=
    after (toStarting ++
           [Exit 0 (Some 0%Z) None; StartTimeout 0; Resume 0; Resume 0]) in
  startPromise <$> procs (state sv1) !! 0 = Some Pending
  /\ step (Resume 0) sv1 = None
  /\ inFlight sv1 = 1
  /\ startPromise <$> procs (state sv2) !! 0 =
       Some (Rejected "FFmpeg failed to start within timeout")
  /\ tasks sv2 !! 0 =
       Some (Respond (Send 500
         "Failed to start stream: FFmpeg failed to start within timeout")).
Proof. cbv zeta. repeat split; reflexivity. Qed.

(** ** Configuration errors of go-live *)

(** A request without stream URL or without stream key is answered 400 at
    once and leaves the state as it was. *)
Lemma goLive_missing_credentials (req : GoLiveRequest) (st : State) :
  JS.truthy (body_streamUrl req) = false
  \/ JS.truthy (body_streamKey req) = false ->
  goLive req st =
    (st, Respond (Send 400 "Stream URL and Stream Key are required")).
Proof.
  unfold goLive.
  destruct (body_streamUrl req) as [[|c u]|], (body_streamKey req) as [[|c' k]|];
    cbn; intros [H|H]; done.
Qed.

(** C5 on the code. A go-live request with URL and key but no input
    source, sent while a stream is live: the handler first sends SIGTERM to
    the live process and waits for its exit, then sets the status to
    starting, and only then answers 400.  The status stays at starting with
    no process behind it.  On an idle server the same request moves the
    status from idle to starting. *)
Theorem goLive_without_input_stops_the_live_stream :
  let sv1 := after (toLive ++ [GoLive noInputRequest]) in
  let sv2 :=
    after (toLive ++
           [GoLive noInputRequest; Exit 0 None (Some "SIGTERM"); Resume 1]) in
  getStatus (state liveServer) =
    {| status_field := "live"; hasActiveProcess := true |}
  /\ fates (state liveServer) = [([], false)]
  /\ fates (state sv1) = [(["SIGTERM"], false)]
  /\ fates (state sv2) = [(["SIGTERM"], true)]
  /\ tasks sv2 !! 1 =
       Some (Respond (Send 400 "Either video file or video link is required"))
  /\ getStatus (state sv2) =
       {| status_field := "starting"; hasActiveProcess := false |}
  /\ goLive noInputRequest initial =
       (set_streamStatus "starting" initial,
        Respond (Send 400 "Either video file or video link is required")).
Proof. cbv zeta. repeat split; reflexivity. Qed.

(** ** Stop *)

(** C10. When no process handle is held, whatever the status is,
    [killStreamProcess] resolves on the spot and changes nothing, and the
    stop handler runs to its response: success with status "idle".  The
    status is idle afterwards (an error status is overwritten), no child
    is signalled, no kill promise or timer is created, and the handle is
    still [null]. *)
Theorem stop_without_process (user : nat) (st : State) :
  currentStreamProcess st = None ->
  killStreamProcess st = (st, None)
  /\ let r := uninterrupted 4 (stop user st) in
     snd r = Respond (Json "Stream stopped successfully" "idle")
     /\ streamStatus (fst r) = "idle"
     /\ currentStreamProcess (fst r) = None
     /\ procs (fst r) = procs st
     /\ kills (fst r) = kills st
     /\ console (fst r) = console st.
Proof.
  intros H. split; [unfold killStreamProcess; by rewrite H|].
  cbn [uninterrupted stop ready]. unfold stop_afterFind.
  cbn [streams set_streamStatus].
  destruct (findLive user (streams st)) as [doc|];
    cbn [uninterrupted ready]; unfold stop_kill, killStreamProcess;
    cbn [currentStreamProcess set_doc set_streams set_streamStatus];
    rewrite H; cbn; by repeat split.
Qed.

(** Stop on a server without process whose status is error. *)
Lemma stop_without_process_witness :
  let st := set_streamStatus "error" initial in
  killStreamProcess st = (st, None)
  /\ let r := uninterrupted 4 (stop 7 st) in
     snd r = Respond (Json "Stream stopped successfully" "idle")
     /\ streamStatus (fst r) = "idle"
     /\ currentStreamProcess (fst r) = None
     /\ procs (fst r) = procs st
     /\ kills (fst r) = kills st
     /\ console (fst r) = console st.
Proof.
  exact (stop_without_process 7 (set_streamStatus "error" initial) eq_refl).
Defined.

Lemma findLive_lookup (user : nat) (ds : list StreamDoc) (doc : nat) :
  findLive user ds = Some doc -> is_Some (ds !! doc).
Proof.
  revert doc. induction ds as [|d ds IH]; intros doc; cbn [findLive]; [done|].
  destruct (Nat.eqb (userId d) user && String.eqb (status d) "live").
  - intros [= <-]. by eexists.
  - destruct (findLive user ds) as [i|]; [|done]. intros [= <-]. by apply IH.
Qed.

Lemma lookup_snoc_length {A : Type} (l : list A) (x : A) :
  (l ++ [x]) !! length l = Some x.
Proof. by rewrite lookup_app_r, Nat.sub_diag. Qed.

Lemma kill_listeners_length (ws : list nat) (st : State) :
  length (kills (foldl (fun st k => kill_onExit k st) st ws)) =
  length (kills st).
Proof.
  revert st. induction ws as [|k ws IH]; intros st; cbn [foldl]; [done|].
  rewrite IH. unfold kill_onExit, resolve_kill, clearTimeout. cbn.
  by rewrite !length_alter.
Qed.

Lemma kill_onExit_resolves (k : nat) (st : State) :
  k < length (kills st) ->
  exists kp, kills (kill_onExit k st) !! k = Some kp /\ killResolved kp = true.
Proof.
  intros Hk. destruct (lookup_lt_is_Some_2 _ _ Hk) as [kp Hkp].
  unfold kill_onExit, resolve_kill, clearTimeout. cbn.
  rewrite !list_lookup_alter_eq, Hkp. by eexists.
Qed.

(** C6, as the code has it. Stop on a server that holds a running process
    that has not been signalled yet: SIGTERM is sent, and when the process
    exits, with any exit code and any signal, the handler sets the status
    to idle and answers success with status "idle"; the handle is
    released.  The status never depends on the exit code, and it is never
    "stopped": only the stream record of the user that was live, when
    there is one, is marked stopped, again for every exit code. *)
Theorem stop_then_exit_is_idle (user pid : nat) (p : ChildProcess)
    (code : option Z) (signal : option string) (st : State) :
  currentStreamProcess st = Some pid ->
  procs st !! pid = Some p ->
  killed p = false ->
  exited p = false ->
  let r := stop_then_exit user pid code signal st in
  snd r = Respond (Json "Stream stopped successfully" "idle")
  /\ streamStatus (fst r) = "idle"
  /\ currentStreamProcess (fst r) = None
  /\ fate <$> procs (fst r) !! pid = Some (signalsSent p ++ ["SIGTERM"], true)
  /\ match findLive user (streams st) with
     | Some doc => status <$> streams (fst r) !! doc = Some "stopped"
     | None => streams (fst r) = streams st
     end.
Proof.
  intros Hcur Hp Hkilled Hex. unfold stop_then_exit.
  set (a := findLive user (streams st)).
  set (k := length (kills st)).
  set (st1 := match a with
              | Some doc => set_doc doc (doc_status "stopping")
                              (set_streamStatus "stopping" st)
              | None => set_streamStatus "stopping" st
              end).
  set (st2 := update_proc pid (add_exitWaiter k)
                (set_kills (kills st1 ++ [{| forceKill := true;
                                             killResolved := false |}])
                   (update_proc pid (kill "SIGTERM") st1))).
  assert (Hst1 : currentStreamProcess st1 = Some pid /\ procs st1 = procs st
                 /\ kills st1 = kills st).
  { unfold st1. by destruct a. }
  destruct Hst1 as (C1 & P1 & K1).
  assert (Hkill : killStreamProcess st1 = (st2, Some k)).
  { unfold killStreamProcess. rewrite C1, P1, Hp, Hkilled. cbn [negb].
    unfold st2, k. cbn [kills update_proc set_procs]. by rewrite K1. }
  assert (Hready2 : ready (WaitKill k) st2 = false).
  { unfold ready, st2. cbn [kills update_proc set_procs set_kills].
    rewrite K1. unfold k. by rewrite lookup_snoc_length. }
  assert (Hr : uninterrupted 2 (stop user st) =
               (st2, Await (WaitKill k) (stop_afterKill a))).
  { cbn [uninterrupted stop ready]. unfold stop_afterFind.
    cbn [streams set_streamStatus]. fold a. destruct a as [doc|].
    - cbn [uninterrupted ready]. unfold stop_kill.
      change (set_doc doc (doc_status "stopping")
                (set_streamStatus "stopping" st)) with st1.
      rewrite Hkill. cbn [await_kill]. reflexivity.
    - unfold stop_kill.
      change (set_streamStatus "stopping" st) with st1.
      rewrite Hkill. cbn [await_kill uninterrupted]. by rewrite Hready2. }
  rewrite Hr. cbn [fst snd].
  (* the exit *)
  assert (Hp2 : procs st2 !! pid =
                Some (add_exitWaiter k (kill "SIGTERM" p))).
  { unfold st2. apply lookup_update_proc. cbn [procs set_kills].
    apply lookup_update_proc. by rewrite P1. }
  set (p2 := add_exitWaiter k (kill "SIGTERM" p)) in *.
  set (st3 := emit_exit pid code signal st2).
  set (st2' := on_exit pid code signal (update_proc pid set_exited st2)).
  assert (Hst3 : st3 = kill_onExit k
                   (foldl (fun st k => kill_onExit k st) st2' (exitWaiters p))).
  { unfold st3, emit_exit. rewrite Hp2.
    replace (exitWaiters p2) with (exitWaiters p ++ [k]).
    - by rewrite foldl_app.
    - unfold p2, kill. by rewrite Hex. }
  destruct (on_exit_effect pid code signal (update_proc pid set_exited st2)
              (set_exited p2)) as (_ & _ & _ & OK & OS & _ & OP).
  { by apply lookup_update_proc. }
  fold st2' in OK, OS, OP.
  destruct (kill_listeners_frame (exitWaiters p) st2')
    as (_ & FP & _ & FS & _ & _).
  cbv zeta in FP, FS.
  set (st2'' := foldl (fun st k => kill_onExit k st) st2' (exitWaiters p)) in *.
  assert (Hlen : k < length (kills st2'')).
  { unfold st2''. rewrite kill_listeners_length, OK. unfold st2.
    cbn [kills update_proc set_procs set_kills].
    rewrite K1, length_app. cbn. unfold k. lia. }
  destruct (kill_onExit_resolves k st2'' Hlen) as (kp & Hkp & Hres).
  rewrite <- Hst3 in Hkp.
  assert (Hready3 : ready (WaitKill k) st3 = true).
  { unfold ready. by rewrite Hkp. }
  assert (Hfate : fate (set_exited p2) = (signalsSent p ++ ["SIGTERM"], true)).
  { unfold fate, p2, kill. by rewrite Hex. }
  assert (Hprocs3 : fate <$> procs st3 !! pid =
                    Some (signalsSent p ++ ["SIGTERM"], true)).
  { rewrite Hst3. cbn [procs kill_onExit resolve_kill clearTimeout set_kills
                       set_currentStreamProcess].
    rewrite FP, OP. cbn [streamStarted set_exited].
    destruct (negb (streamStarted p2) && negb (code_is_zero code)).
    - rewrite list_lookup_alter_eq.
      rewrite (lookup_update_proc _ _ _ _ Hp2). cbn. by rewrite <- Hfate.
    - rewrite (lookup_update_proc _ _ _ _ Hp2). cbn. by rewrite <- Hfate. }
  assert (Hcur3 : currentStreamProcess st3 = None) by (by rewrite Hst3).
  assert (Hstreams3 : streams st3 = streams st1).
  { rewrite Hst3. cbn [streams kill_onExit resolve_kill clearTimeout set_kills
                       set_currentStreamProcess].
    by rewrite FS, OS. }
  clearbody st3.
  cbn [uninterrupted]. rewrite Hready3. unfold stop_afterKill.
  destruct a as [doc|] eqn:Ea; cbn [uninterrupted ready stop_cleanup fst snd].
  - cbn [streamStatus currentStreamProcess procs streams set_doc set_streams
         set_streamStatus].
    rewrite Hcur3, Hprocs3, Hstreams3. repeat split.
    destruct (findLive_lookup _ _ _ Ea) as [d Hd].
    unfold st1. cbn [streams set_doc set_streams set_streamStatus].
    by rewrite !list_lookup_alter_eq, Hd.
  - cbn [streamStatus currentStreamProcess procs streams set_streamStatus].
    by rewrite Hcur3, Hprocs3, Hstreams3.
Qed.

(** Stop at the live state of the example, for a process that ends on the
    SIGTERM of the stop. *)
Lemma stop_then_exit_is_idle_witness :
  let r := stop_then_exit 7 0 None (Some "SIGTERM") (state liveServer) in
  snd r = Respond (Json "Stream stopped successfully" "idle")
  /\ streamStatus (fst r) = "idle"
  /\ currentStreamProcess (fst r) = None
  /\ fate <$> procs (fst r) !! 0 = Some (["SIGTERM"], true)
  /\ status <$> streams (fst r) !! 0 = Some "stopped".
Proof.
  exact (stop_then_exit_is_idle 7 0
           (mkChildProcess
              (ffmpegArgs "https://example.com/clip.mp4"
                 "rtmp://a.rtmp.youtube.com/live2" "alpha-key" false)
              false [] false true Resolved true [])
           None (Some "SIGTERM") (state liveServer)
           eq_refl eq_refl eq_refl eq_refl).
Defined.

(** C6, as the claim states it, fails: after a stop and the exit of the
    process on SIGTERM the status is idle, not stopped; and when the
    process exits with code 1 instead, the error status set by the exit
    callback is overwritten with idle as soon as the handler goes on. *)
Lemma stop_status_is_idle_for_every_exit :
  let finish := [Resume 1; Resume 1; Resume 1] in
  let stopping := toLive ++ [Stop 7; Resume 1; Resume 1] in
  let clean := stopping ++ [Exit 0 None (Some "SIGTERM")] in
  let abnormal := stopping ++ [Exit 0 (Some 1%Z) None] in
  streamStatus (state (after stopping)) = "stopping"
  /\ fates (state (after stopping)) = [(["SIGTERM"], false)]
  /\ getStatus (state (after (clean ++ finish))) =
       {| status_field := "idle"; hasActiveProcess := false |}
  /\ tasks (after (clean ++ finish)) !! 1 =
       Some (Respond (Json "Stream stopped successfully" "idle"))
  /\ streamStatus (state (after abnormal)) = "error"
  /\ getStatus (state (after (abnormal ++ finish))) =
       {| status_field := "idle"; hasActiveProcess := false |}
  /\ tasks (after (abnormal ++ finish)) !! 1 =
       Some (Respond (Json "Stream stopped successfully" "idle")).
Proof. cbv zeta. repeat split; reflexivity. Qed.

(** ** Interleaving of handlers *)

Section Interleaving.

Implicit Types (sv : Server) (req : GoLiveRequest) (st : State).

(** A go-live request that passes the checks, on a server that holds no
    process: the handler sets the status, appends its record and is
    suspended at the save. *)
Lemma goLive_suspends req st (streamUrl streamKey inputSource : string) :
  startable req streamUrl streamKey inputSource ->
  currentStreamProcess st = None ->
  exists st',
    goLive req st =
      (st', Await WaitIO
              (goLive_afterSave (length (streams st)) inputSource streamUrl
                 streamKey (shouldLoop (body_loopVideo req))))
    /\ streamStatus st' = "starting"
    /\ currentStreamProcess st' = None
    /\ procs st' = procs st
    /\ crashed st' = crashed st
    /\ length (streams st') = S (length (streams st)).
Proof.
  intros (Hu & Hk & Htu & Htk & Hrtmp & Hin & _) Hcur.
  unfold goLive. rewrite Hu, Hk, Htu, Htk, Hcur. cbn [negb orb].
  unfold goLive_afterKill. rewrite Hrtmp. cbn [negb].
  destruct Hin as [Hf|(Hf & Hl & Htl)].
  - rewrite Hf. eexists. split; [reflexivity|]. cbn.
    rewrite length_app. cbn. repeat split; [done|lia].
  - rewrite Hf, Hl, Htl. eexists. split; [reflexivity|]. cbn.
    rewrite length_app. cbn. repeat split; [done|lia].
Qed.

Lemma goLive_afterSave_spawns (doc : nat) (inputSource streamUrl streamKey : string)
    (loop : bool) st :
  goLive_afterSave doc inputSource streamUrl streamKey loop st =
    (fst (startFFmpegStream inputSource streamUrl streamKey loop st),
     Await (WaitStart (length (procs st)))
           (goLive_afterStart doc (length (procs st)))).
Proof. reflexivity. Qed.

Lemma insert_snoc_first {A} (l : list A) (x y z : A) :
  <[length l := z]> (l ++ [x; y]) = l ++ [z; y].
Proof.
  rewrite insert_app_r_alt by lia. by rewrite Nat.sub_diag.
Qed.

Lemma insert_snoc_second {A} (l : list A) (x y z : A) :
  <[S (length l) := z]> (l ++ [x; y]) = l ++ [x; z].
Proof.
  rewrite insert_app_r_alt by lia.
  by replace (S (length l) - length l) with 1 by lia.
Qed.

(** C9, as the code has it.  Every turn of the event loop is one function
    on the state, and the status response is read from the state in one
    turn; but nothing serialises the handlers across their [await]s.  On
    every running server that holds no process, whatever handlers are
    suspended there, two go-live requests that pass the checks are both
    taken up: each sets the status and is suspended at the save of its
    record, and when they go on each spawns a process.  Both processes
    run, the handle refers to the second only, both handlers wait for
    their start promise, and a stop request is taken up behind them in
    the same way. *)
Theorem starts_are_not_serialized sv (req1 req2 : GoLiveRequest) (user : nat)
    (url1 key1 input1 url2 key2 input2 : string) :
  crashed (state sv) = false ->
  currentStreamProcess (state sv) = None ->
  startable req1 url1 key1 input1 ->
  startable req2 url2 key2 input2 ->
  let n := length (tasks sv) in
  let pid := length (procs (state sv)) in
  let doc := length (streams (state sv)) in
  exists sv1 sv2 sv3,
    run [GoLive req1; GoLive req2] sv = Some sv1
    /\ inFlight sv1 = inFlight sv + 2
    /\ getStatus (state sv1) =
         {| status_field := "starting"; hasActiveProcess := false |}
    /\ run [Resume n; Resume (S n)] sv1 = Some sv2
    /\ tasks sv2 =
         tasks sv ++
         [Await (WaitStart pid) (goLive_afterStart doc pid);
          Await (WaitStart (S pid)) (goLive_afterStart (S doc) (S pid))]
    /\ procs (state sv2) =
         procs (state sv) ++
         [newChild input1 url1 key1 (shouldLoop (body_loopVideo req1));
          newChild input2 url2 key2 (shouldLoop (body_loopVideo req2))]
    /\ getStatus (state sv2) =
         {| status_field := "starting"; hasActiveProcess := true |}
    /\ currentStreamProcess (state sv2) = Some (S pid)
    /\ isRunning (state sv2) pid = true
    /\ step (Stop user) sv2 = Some sv3
    /\ streamStatus (state sv3) = "stopping"
    /\ tasks sv3 = tasks sv2 ++ [Await WaitIO (stop_afterFind user)]
    /\ inFlight sv3 = inFlight sv + 3.
Proof.
  intros Hc Hcur Hr1 Hr2. cbv zeta.
  destruct (goLive_suspends req1 (state sv) url1 key1 input1 Hr1 Hcur)
    as (st1 & E1 & Hs1 & Hcur1 & Hp1 & Hc1 & Hd1).
  destruct (goLive_suspends req2 st1 url2 key2 input2 Hr2 Hcur1)
    as (st2 & E2 & Hs2 & Hcur2 & Hp2 & Hc2 & Hd2).
  rewrite Hc in Hc1. rewrite Hc1 in Hc2. rewrite Hp1 in Hp2.
  set (t1 := Await WaitIO
               (goLive_afterSave (length (streams (state sv))) input1 url1 key1
                  (shouldLoop (body_loopVideo req1)))) in *.
  set (t2 := Await WaitIO
               (goLive_afterSave (length (streams st1)) input2 url2 key2
                  (shouldLoop (body_loopVideo req2)))) in *.
  set (sv1 := {| state := st2; tasks := tasks sv ++ [t1; t2] |}).
  assert (R1 : run [GoLive req1; GoLive req2] sv = Some sv1).
  { cbn [run]. unfold step at 1. rewrite Hc, E1.
    unfold accept at 1. cbn [fst snd state tasks].
    unfold step at 1. cbn [state tasks]. rewrite Hc1, E2.
    unfold accept, sv1. cbn [fst snd state tasks].
    by rewrite <- app_assoc. }
  set (r1 := startFFmpegStream input1 url1 key1
               (shouldLoop (body_loopVideo req1)) st2).
  set (r2 := startFFmpegStream input2 url2 key2
               (shouldLoop (body_loopVideo req2)) (fst r1)).
  set (a1 := Await (WaitStart (length (procs (state sv))))
               (goLive_afterStart (length (streams (state sv)))
                  (length (procs (state sv))))).
  set (a2 := Await (WaitStart (S (length (procs (state sv)))))
               (goLive_afterStart (S (length (streams (state sv))))
                  (S (length (procs (state sv)))))).
  set (sv2 := {| state := fst r2; tasks := tasks sv ++ [a1; a2] |}).
  assert (R2 : run [Resume (length (tasks sv)); Resume (S (length (tasks sv)))] sv1
               = Some sv2).
  { assert (Hcr1 : crashed (fst r1) = false) by done.
    assert (Hpr1 : length (procs (fst r1)) = S (length (procs (state sv)))).
    { unfold r1, startFFmpegStream. cbn. rewrite Hp2, length_app. cbn. lia. }
    cbn [run]. unfold step at 1. unfold sv1. cbn [state tasks]. rewrite Hc2.
    rewrite lookup_app_r by lia. rewrite Nat.sub_diag.
    cbn [lookup list_lookup t1 ready].
    rewrite goLive_afterSave_spawns. fold r1. cbn [fst snd].
    rewrite insert_snoc_first.
    unfold step at 1. cbn [state tasks]. rewrite Hcr1.
    rewrite lookup_app_r by lia.
    replace (S (length (tasks sv)) - length (tasks sv)) with 1 by lia.
    cbn [lookup list_lookup t2 ready].
    rewrite goLive_afterSave_spawns. fold r2. cbn [fst snd].
    rewrite insert_snoc_second.
    unfold sv2, a1, a2. by rewrite Hp2, Hpr1, Hd1. }
  assert (P2 : procs (fst r2) =
               procs (state sv) ++
               [newChild input1 url1 key1 (shouldLoop (body_loopVideo req1));
                newChild input2 url2 key2 (shouldLoop (body_loopVideo req2))]).
  { unfold r2, r1, startFFmpegStream, newChild. cbn. rewrite Hp2.
    by rewrite <- app_assoc. }
  assert (S2 : streamStatus (fst r2) = "starting").
  { unfold r2, r1, startFFmpegStream. cbn. done. }
  assert (C2 : currentStreamProcess (fst r2) = Some (S (length (procs (state sv))))).
  { unfold r2, r1, startFFmpegStream. cbn. rewrite Hp2, length_app. cbn.
    f_equal. lia. }
  assert (K2 : crashed (fst r2) = false).
  { unfold r2, r1, startFFmpegStream. cbn. done. }
  exists sv1, sv2, (accept sv2 (stop user (state sv2))).
  split; [exact R1|].
  split.
  { unfold inFlight, sv1. cbn [tasks].
    rewrite List.filter_app, length_app. cbn. lia. }
  split.
  { unfold getStatus, sv1. cbn [state]. by rewrite Hs2, Hcur2. }
  split; [exact R2|].
  split; [done|].
  split; [exact P2|].
  split.
  { unfold getStatus, sv2. cbn [state]. by rewrite S2, C2. }
  split; [exact C2|].
  split.
  { unfold isRunning, sv2. cbn [state]. rewrite P2.
    rewrite lookup_app_r by lia. by rewrite Nat.sub_diag. }
  split.
  { unfold step. cbn [state sv2]. by rewrite K2. }
  split; [done|].
  split; [done|].
  unfold inFlight, accept, sv2. cbn [tasks snd stop].
  rewrite <- app_assoc. rewrite List.filter_app, length_app. cbn. lia.
Qed.

End Interleaving.

(** Two requests on the server as it boots. *)
Lemma starts_are_not_serialized_witness :
  exists sv1 sv2 sv3,
    run [GoLive (linkRequest 7 "alpha-key"); GoLive (linkRequest 8 "bravo-key")]
        boot = Some sv1
    /\ inFlight sv1 = inFlight boot + 2
    /\ getStatus (state sv1) =
         {| status_field := "starting"; hasActiveProcess := false |}
    /\ run [Resume 0; Resume 1] sv1 = Some sv2
    /\ tasks sv2 =
         [] ++
         [Await (WaitStart 0) (goLive_afterStart 0 0);
          Await (WaitStart 1) (goLive_afterStart 1 1)]
    /\ procs (state sv2) =
         [] ++
         [newChild "https://example.com/clip.mp4"
            "rtmp://a.rtmp.youtube.com/live2" "alpha-key" false;
          newChild "https://example.com/clip.mp4"
            "rtmp://a.rtmp.youtube.com/live2" "bravo-key" false]
    /\ getStatus (state sv2) =
         {| status_field := "starting"; hasActiveProcess := true |}
    /\ currentStreamProcess (state sv2) = Some 1
    /\ isRunning (state sv2) 0 = true
    /\ step (Stop 8) sv2 = Some sv3
    /\ streamStatus (state sv3) = "stopping"
    /\ tasks sv3 = tasks sv2 ++ [Await WaitIO (stop_afterFind 8)]
    /\ inFlight sv3 = inFlight boot + 3.
Proof.
  apply (starts_are_not_serialized boot
           (linkRequest 7 "alpha-key") (linkRequest 8 "bravo-key") 8
           "rtmp://a.rtmp.youtube.com/live2" "alpha-key"
           "https://example.com/clip.mp4"
           "rtmp://a.rtmp.youtube.com/live2" "bravo-key"
           "https://example.com/clip.mp4");
    try reflexivity;
    (repeat split; try (vm_compute; reflexivity));
    right; repeat split.
Defined.

(** C9, as the claim states it, fails: two go-live requests that arrive
    while no stream runs are both suspended at the save of their record,
    both have set the status, and both spawn a process when they go on.
    Two processes run, the handle refers to the second only, and a later
    stop ends the second and leaves the first running with the status at
    idle and no handle. *)
Lemma two_starts_interleave :
  let both := [GoLive (linkRequest 7 "alpha-key");
               GoLive (linkRequest 8 "bravo-key")] in
  let spawned := both ++ [Resume 0; Resume 1] in
  let stopped :=
    spawned ++ [Stop 8; Resume 2; Exit 1 None (Some "SIGTERM");
                Resume 2; Resume 2] in
  inFlight (after both) = 2
  /\ streamStatus (state (after both)) = "starting"
  /\ running (state (after spawned)) = [0; 1]
  /\ currentStreamProcess (state (after spawned)) = Some 1
  /\ fates (state (after stopped)) = [([], false); (["SIGTERM"], true)]
  /\ running (state (after stopped)) = [0]
  /\ tasks (after stopped) !! 2 =
       Some (Respond (Json "Stream stopped successfully" "idle"))
  /\ getStatus (state (after stopped)) =
       {| status_field := "idle"; hasActiveProcess := false |}.
Proof. cbv zeta. repeat split; reflexivity. Qed.

(** ** Invariants of every reachable state *)

Section StateInvariant.

Implicit Types (st : State) (p : ChildProcess) (pid k : nat).

Lemma rest_ok_same st st' :
  streamStatus st' = streamStatus st ->
  streams st' = streams st ->
  procs st' = procs st ->
  rest_ok st -> rest_ok st'.
Proof. unfold rest_ok. by intros -> -> ->. Qed.

Lemma rest_ok_status (s : string) st :
  In s statusValues -> rest_ok st -> rest_ok (set_streamStatus s st).
Proof. intros Hs (_ & H). by split. Qed.

Lemma rest_ok_update_proc pid f st :
  keeps_child f -> rest_ok st -> rest_ok (update_proc pid f st).
Proof.
  intros Hf (H1 & H2 & H3 & H4). repeat split; cbn; try done.
  - apply Forall_alter; [done|]. intros p _. unfold args_ok.
    by rewrite (proj1 (Hf p)).
  - apply Forall_alter; [done|]. intros p _. apply Hf.
Qed.

Lemma rest_ok_set_doc (doc : nat) (f : StreamDoc -> StreamDoc) st :
  (forall d, In (status (f d)) recordStatusValues) ->
  rest_ok st -> rest_ok (set_doc doc f st).
Proof.
  intros Hf (H1 & H2 & H3 & H4). repeat split; cbn; try done.
  apply Forall_alter; [done|]. intros d _ _. apply Hf.
Qed.

Lemma isRunning_update_proc pid pid' f st :
  (forall p, exited (f p) = exited p) ->
  isRunning (update_proc pid f st) pid' = isRunning st pid'.
Proof.
  intros Hf. unfold isRunning, update_proc. cbn.
  rewrite list_lookup_alter. case_decide; [subst|done].
  destruct (procs st !! pid') as [p|]; cbn; [by rewrite Hf | done].
Qed.

Lemma state_ok_update_proc pid f st :
  keeps_child f -> (forall p, exited (f p) = exited p) ->
  state_ok st -> state_ok (update_proc pid f st).
Proof.
  intros Hf He [Hh Hr]. split; [|by apply rest_ok_update_proc].
  unfold handle_valid in *. cbn.
  destruct (currentStreamProcess st); [|done].
  by rewrite isRunning_update_proc.
Qed.

Lemma state_ok_same_procs st st' :
  currentStreamProcess st' = currentStreamProcess st ->
  procs st' = procs st ->
  rest_ok st' ->
  state_ok st -> state_ok st'.
Proof.
  intros Hc Hp Hr [Hh _]. split; [|done].
  unfold handle_valid, isRunning in *. by rewrite Hc, Hp.
Qed.

Lemma state_ok_released st :
  currentStreamProcess st = None -> rest_ok st -> state_ok st.
Proof. intros Hc Hr. split; [|done]. unfold handle_valid. by rewrite Hc. Qed.

Lemma child_kill (signal : string) :
  signal = "SIGTERM" \/ signal = "SIGKILL" -> keeps_child (kill signal).
Proof.
  intros Hs p. unfold kill. destruct (exited p); [done|]. split; [done|].
  intros [H1 H2]. split; cbn.
  - apply Forall_app. split; [done|]. by constructor.
  - split; [intros _; by destruct (signalsSent p) | done].
Qed.

Lemma child_closure f :
  (forall p, spawnargs (f p) = spawnargs p
             /\ signalsSent (f p) = signalsSent p
             /\ killed (f p) = killed p) ->
  keeps_child f.
Proof.
  intros H p. destruct (H p) as (E1 & E2 & E3). split; [done|].
  unfold signals_ok. by rewrite E2, E3.
Qed.

Lemma child_set_exited : keeps_child set_exited.
Proof. by apply child_closure. Qed.

Lemma child_set_streamStarted : keeps_child set_streamStarted.
Proof. by apply child_closure. Qed.

Lemma child_map_startPromise g : keeps_child (map_startPromise g).
Proof. by apply child_closure. Qed.

Lemma child_clear_startTimer : keeps_child clear_startTimer.
Proof. by apply child_closure. Qed.

Lemma child_add_exitWaiter k : keeps_child (add_exitWaiter k).
Proof. by apply child_closure. Qed.

Lemma exited_kill (signal : string) p : exited (kill signal p) = exited p.
Proof. unfold kill. by destruct (exited p) eqn:E. Qed.

Lemma state_ok_status (s : string) st :
  In s statusValues -> state_ok st -> state_ok (set_streamStatus s st).
Proof.
  intros Hs H. apply (state_ok_same_procs st); [done | done | | done].
  apply rest_ok_status; [done | apply H].
Qed.

Lemma state_ok_log (line : string) st : state_ok st -> state_ok (log line st).
Proof.
  intros H. apply (state_ok_same_procs st); [done | done | | done].
  apply (rest_ok_same st); [done | done | done | apply H].
Qed.

Lemma state_ok_set_kills ks st : state_ok st -> state_ok (set_kills ks st).
Proof.
  intros H. apply (state_ok_same_procs st); [done | done | | done].
  apply (rest_ok_same st); [done | done | done | apply H].
Qed.

Lemma state_ok_throw st : state_ok st -> state_ok (throw_uncaught st).
Proof.
  intros H. apply (state_ok_same_procs st); [done | done | | done].
  apply (rest_ok_same st); [done | done | done | apply H].
Qed.

Lemma state_ok_set_doc (doc : nat) (f : StreamDoc -> StreamDoc) st :
  (forall d, In (status (f d)) recordStatusValues) ->
  state_ok st -> state_ok (set_doc doc f st).
Proof.
  intros Hf H. apply (state_ok_same_procs st); [done | done | | done].
  apply rest_ok_set_doc; [done | apply H].
Qed.

Lemma killStreamProcess_ok st :
  state_ok st -> state_ok (fst (killStreamProcess st)).
Proof.
  intros H. unfold killStreamProcess.
  destruct (currentStreamProcess st) as [pid|]; [|done].
  destruct (procs st !! pid) as [p|]; [|done].
  destruct (killed p); [done|]. cbn [negb fst].
  apply state_ok_update_proc; [apply child_add_exitWaiter | done |].
  apply state_ok_set_kills.
  apply state_ok_update_proc;
    [apply child_kill; by left | apply exited_kill | done].
Qed.

Lemma forceKill_callback_ok k st :
  state_ok st -> state_ok (forceKill_callback k (clearTimeout k st)).
Proof.
  intros H. unfold forceKill_callback.
  assert (H0 : state_ok (clearTimeout k st)) by (by apply state_ok_set_kills).
  destruct (currentStreamProcess (clearTimeout k st)) as [pid|];
    [|by apply state_ok_throw].
  apply state_ok_set_kills.
  destruct (procs (clearTimeout k st) !! pid) as [p|]; [|done].
  destruct (killed p); [done|]. cbn [negb].
  apply state_ok_update_proc;
    [apply child_kill; by right | apply exited_kill | done].
Qed.

Lemma on_stderr_ok pid data st : state_ok st -> state_ok (on_stderr pid data st).
Proof.
  intros H. unfold on_stderr.
  assert (H0 : state_ok (log ("FFmpeg stderr: " +:+ data) st))
    by (by apply state_ok_log).
  destruct (procs (log ("FFmpeg stderr: " +:+ data) st) !! pid) as [p|]; [|done].
  destruct (negb (streamStarted p) && readiness data); [|done].
  apply state_ok_update_proc; [apply child_map_startPromise | done |].
  apply state_ok_status; [cbn; tauto|].
  by apply state_ok_update_proc; [apply child_set_streamStarted | |].
Qed.

Lemma emit_error_ok pid error st : state_ok st -> state_ok (emit_error pid error st).
Proof.
  intros [_ H]. unfold emit_error, on_error.
  apply state_ok_released; [done|].
  apply rest_ok_update_proc; [apply child_map_startPromise|].
  eapply rest_ok_same; [reflexivity | reflexivity | reflexivity |].
  apply rest_ok_status; [cbn; tauto|].
  eapply rest_ok_same; [reflexivity | reflexivity | reflexivity |].
  by apply rest_ok_update_proc; [apply child_set_exited|].
Qed.

Lemma on_exit_rest_ok pid code signal st :
  rest_ok st -> rest_ok (on_exit pid code signal st).
Proof.
  intros H. unfold on_exit.
  set (line := "FFmpeg process exited with code " +:+ _).
  set (st2 := if code_is_zero code then _ else _).
  assert (H2 : rest_ok st2).
  { assert (H1 : rest_ok (log line st))
      by (eapply rest_ok_same; [done | done | done | exact H]).
    unfold st2. destruct (code_is_zero code);
      [apply rest_ok_status; [cbn; tauto | done]|].
    destruct code; [apply rest_ok_status; [cbn; tauto | done] | done]. }
  assert (H3 : rest_ok (set_currentStreamProcess None st2))
    by (eapply rest_ok_same; [done | done | done | exact H2]).
  cbn [procs set_currentStreamProcess].
  destruct (procs st2 !! pid) as [p|]; [|done].
  destruct (negb (streamStarted p) && negb (code_is_zero code)); [|done].
  by apply rest_ok_update_proc; [apply child_map_startPromise|].
Qed.

Lemma emit_exit_ok pid code signal st :
  state_ok st -> state_ok (emit_exit pid code signal st).
Proof.
  intros [_ H]. unfold emit_exit.
  set (ws := match procs st !! pid with Some p => exitWaiters p | None => [] end).
  set (st1 := on_exit pid code signal (update_proc pid set_exited st)).
  assert (H1 : rest_ok st1).
  { apply on_exit_rest_ok. by apply rest_ok_update_proc; [apply child_set_exited|]. }
  assert (C1 : currentStreamProcess st1 = None).
  { unfold st1, on_exit. cbn [procs set_currentStreamProcess].
    match goal with |- context [match ?x with Some _ => _ | None => _ end] =>
      destruct x as [p|] end; [|done].
    by destruct (negb (streamStarted p) && negb (code_is_zero code)). }
  destruct (kill_listeners_frame ws st1) as (F1 & F2 & _ & F4 & _ & F6).
  apply state_ok_released; [by apply F6|].
  by eapply rest_ok_same.
Qed.

Lemma on_timeout_ok pid st :
  state_ok st ->
  state_ok (on_timeout pid (update_proc pid clear_startTimer st)).
Proof.
  intros H.
  assert (H1 : state_ok (update_proc pid clear_startTimer st))
    by (by apply state_ok_update_proc; [apply child_clear_startTimer | |]).
  unfold on_timeout.
  destruct (procs (update_proc pid clear_startTimer st) !! pid) as [p|]; [|done].
  destruct (negb (streamStarted p)); [|done].
  by apply state_ok_update_proc; [apply child_map_startPromise | |].
Qed.

End StateInvariant.

Section HandlersKeep.

Implicit Types (st : State) (h : State -> State * Task).

Lemma prefix_append_l (p s t : string) :
  String.prefix p s = true -> String.prefix p (s +:+ t) = true.
Proof.
  revert s. induction p as [|x p IH]; intros s; [by destruct (s +:+ t)|].
  destruct s as [|y s]; [done|]. rewrite append_cons.
  cbn [String.prefix]. destruct (ascii_dec x y); [apply IH | done].
Qed.

Lemma includes_append_l (s t p : string) :
  JS.includes s p = true -> JS.includes (s +:+ t) p = true.
Proof.
  induction s as [|x s IH].
  - cbn [JS.includes]. rewrite orb_false_r. destruct p; [|done].
    intros _. by destruct t.
  - rewrite append_cons. cbn [JS.includes].
    intros [H|H]%orb_true_iff; apply orb_true_iff.
    + left. by apply (prefix_append_l p (String x s) t).
    + right. by apply IH.
Qed.

Lemma rtmpUrl_includes_scheme (streamUrl streamKey : string) :
  JS.includes streamUrl "rtmp://" = true ->
  JS.includes (rtmpUrl streamUrl streamKey) "rtmp://" = true.
Proof.
  intros H. unfold rtmpUrl, JS.ensureTrailingSlash.
  destruct (JS.endsWithSlash streamUrl); by repeat apply includes_append_l.
Qed.

Lemma startFFmpegStream_ok inputSource streamUrl streamKey loop st :
  JS.includes streamUrl "rtmp://" = true ->
  state_ok st ->
  state_ok (fst (startFFmpegStream inputSource streamUrl streamKey loop st)).
Proof.
  intros Hurl [_ (H1 & H2 & H3 & H4)]. split.
  - unfold handle_valid, isRunning. cbn. by rewrite lookup_snoc_length.
  - repeat split; cbn; try done.
    + apply Forall_app. split; [done|]. constructor; [|done]. split.
      * by destruct loop.
      * exists (rtmpUrl streamUrl streamKey).
        split; [by destruct loop | by apply rtmpUrl_includes_scheme].
    + apply Forall_app. split; [done|]. constructor; [|done].
      split; [done|]. by split.
Qed.

Lemma await_kill_keeps st h :
  handler_keeps state_ok h ->
  state_ok st ->
  match await_kill (killStreamProcess st) h with
  | (st', t') => state_ok st' /\ task_keeps state_ok t'
  end.
Proof.
  intros Hh H. pose proof (killStreamProcess_ok st H) as Hk.
  destruct (killStreamProcess st) as [st1 [k|]]; cbn in *.
  - by split.
  - by apply Hh.
Qed.

Lemma goLive_afterStart_keeps doc pid :
  handler_keeps state_ok (goLive_afterStart doc pid).
Proof.
  intros st H. unfold goLive_afterStart.
  destruct (match procs st !! pid with Some p => startPromise p | None => Pending end).
  - split; [apply state_ok_set_doc; [cbn; tauto | done]|].
    intros st' H'. by split.
  - split; [apply state_ok_set_doc; [cbn; tauto | done]|].
    intros st' H'. by split.
  - split; [apply state_ok_set_doc; [cbn; tauto | by apply state_ok_log]|].
    intros st' H'. split; [|done]. apply state_ok_status; [cbn; tauto | done].
Qed.

Lemma goLive_afterSave_keeps doc inputSource streamUrl streamKey loop :
  JS.includes streamUrl "rtmp://" = true ->
  handler_keeps state_ok
    (goLive_afterSave doc inputSource streamUrl streamKey loop).
Proof.
  intros Hurl st H. unfold goLive_afterSave.
  pose proof (startFFmpegStream_ok inputSource streamUrl streamKey loop st
                Hurl H) as H'.
  destruct (startFFmpegStream inputSource streamUrl streamKey loop st)
    as [st' pid].
  split; [exact H' | apply goLive_afterStart_keeps].
Qed.

Lemma state_ok_new_doc (d : StreamDoc) st :
  In (status d) recordStatusValues ->
  state_ok st -> state_ok (set_streams (streams st ++ [d]) st).
Proof.
  intros Hd H. apply (state_ok_same_procs st); [done | done | | done].
  destruct H as [_ (H1 & H2 & H3 & H4)]. repeat split; cbn; try done.
  apply Forall_app. split; [done | by constructor].
Qed.

Lemma goLive_afterKill_keeps req streamUrl streamKey :
  handler_keeps state_ok (goLive_afterKill req streamUrl streamKey).
Proof.
  intros st H. unfold goLive_afterKill.
  assert (H1 : state_ok (set_streamStatus "starting" st))
    by (apply state_ok_status; [cbn; tauto | done]).
  match goal with |- context [match ?src with Some _ => _ | None => _ end] =>
    destruct src as [[[inputSource videoSource] line]|] end; [|by split].
  destruct (JS.includes streamUrl "rtmp://") eqn:Hurl; cbn [negb].
  - split; [|by apply goLive_afterSave_keeps].
    apply state_ok_new_doc; [cbn; tauto | by apply state_ok_log].
  - split; [by apply state_ok_log | done].
Qed.

Lemma goLive_keeps req st :
  state_ok st ->
  match goLive req st with
  | (st', t') => state_ok st' /\ task_keeps state_ok t'
  end.
Proof.
  intros H. unfold goLive.
  destruct (body_streamUrl req) as [streamUrl|]; [|by split].
  destruct (body_streamKey req) as [streamKey|]; [|by split].
  destruct (negb (JS.truthy (Some streamUrl)) || negb (JS.truthy (Some streamKey)));
    [by split|].
  destruct (currentStreamProcess st).
  - by apply await_kill_keeps; [apply goLive_afterKill_keeps|].
  - by apply goLive_afterKill_keeps.
Qed.

Lemma stop_cleanup_keeps : handler_keeps state_ok stop_cleanup.
Proof. intros st H. split; [done|]. intros st' H'. by split. Qed.

Lemma stop_afterKill_keeps activeStream :
  handler_keeps state_ok (stop_afterKill activeStream).
Proof.
  intros st H. unfold stop_afterKill.
  assert (H1 : state_ok (set_streamStatus "idle" st))
    by (apply state_ok_status; [cbn; tauto | done]).
  destruct activeStream as [doc|].
  - split; [|apply stop_cleanup_keeps].
    apply state_ok_set_doc; [cbn; tauto | done].
  - by apply stop_cleanup_keeps.
Qed.

Lemma stop_kill_keeps activeStream :
  handler_keeps state_ok (stop_kill activeStream).
Proof. intros st H. by apply await_kill_keeps; [apply stop_afterKill_keeps|]. Qed.

Lemma stop_afterFind_keeps user : handler_keeps state_ok (stop_afterFind user).
Proof.
  intros st H. unfold stop_afterFind.
  destruct (findLive user (streams st)) as [doc|].
  - split; [|apply stop_kill_keeps].
    apply state_ok_set_doc; [cbn; tauto | done].
  - by apply stop_kill_keeps.
Qed.

Lemma stop_keeps user st :
  state_ok st ->
  match stop user st with
  | (st', t') => state_ok st' /\ task_keeps state_ok t'
  end.
Proof.
  intros H. split; [|apply stop_afterFind_keeps].
  apply state_ok_status; [cbn; tauto | done].
Qed.

End HandlersKeep.

Lemma step_keeps (e : Event) (sv sv' : Server) :
  state_ok (state sv) ->
  Forall (task_keeps state_ok) (tasks sv) ->
  step e sv = Some sv' ->
  state_ok (state sv') /\ Forall (task_keeps state_ok) (tasks sv').
Proof.
  intros Hs Ht. unfold step. destruct (crashed (state sv)); [done|].
  destruct e as [req|user|i|pid data|pid data|pid error|pid code signal|pid|k].
  - intros [= <-]. pose proof (goLive_keeps req (state sv) Hs) as H.
    unfold accept. destruct (goLive req (state sv)) as [st' t']. cbn.
    destruct H as [H1 H2]. split; [done|].
    apply Forall_app. by split; [|constructor].
  - intros [= <-]. pose proof (stop_keeps user (state sv) Hs) as H.
    unfold accept. destruct (stop user (state sv)) as [st' t']. cbn.
    destruct H as [H1 H2]. split; [done|].
    apply Forall_app. by split; [|constructor].
  - destruct (tasks sv !! i) as [[r|w continue]|] eqn:Hi; try done.
    destruct (ready w (state sv)); [|done]. intros [= <-]. cbn.
    pose proof (Forall_lookup_1 _ _ _ _ Ht Hi (state sv) Hs) as H.
    destruct (continue (state sv)) as [st' t']. cbn. destruct H as [H1 H2].
    split; [done|]. by apply Forall_insert.
  - destruct (procs (state sv) !! pid); [|done]. intros [= <-]. cbn.
    split; [by apply state_ok_log | done].
  - destruct (procs (state sv) !! pid); [|done]. intros [= <-]. cbn.
    split; [by apply on_stderr_ok | done].
  - destruct (procs (state sv) !! pid) as [p|]; [|done].
    destruct (exited p); [done|]. intros [= <-]. cbn.
    split; [by apply emit_error_ok | done].
  - destruct (procs (state sv) !! pid) as [p|]; [|done].
    destruct (exited p); [done|]. intros [= <-]. cbn.
    split; [by apply emit_exit_ok | done].
  - destruct (procs (state sv) !! pid) as [p|]; [|done].
    destruct (startTimer p); [|done]. intros [= <-]. cbn.
    split; [by apply on_timeout_ok | done].
  - destruct (kills (state sv) !! k) as [kp|]; [|done].
    destruct (forceKill kp); [|done]. intros [= <-]. cbn.
    split; [by apply forceKill_callback_ok | done].
Qed.

Lemma reachable_state_ok (es : list Event) (sv : Server) :
  run es boot = Some sv ->
  state_ok (state sv) /\ Forall (task_keeps state_ok) (tasks sv).
Proof.
  assert (G : forall es sv0 sv,
            state_ok (state sv0) ->
            Forall (task_keeps state_ok) (tasks sv0) ->
            run es sv0 = Some sv ->
            state_ok (state sv) /\ Forall (task_keeps state_ok) (tasks sv)).
  { clear. induction es as [|e es IH]; intros sv0 sv Hs Ht; cbn [run].
    - by intros [= <-].
    - destruct (step e sv0) as [sv1|] eqn:E; [|done].
      destruct (step_keeps _ _ _ Hs Ht E) as [Hs1 Ht1]. by apply IH. }
  apply G; [|by constructor].
  split; [done|]. repeat split; cbn; try tauto; constructor.
Qed.

(** Whenever the status response reports an active process, the handle
    refers to a child that has been spawned and has not ended. *)
Theorem active_process_is_running (es : list Event) (sv : Server) :
  run es boot = Some sv ->
  hasActiveProcess (getStatus (state sv)) = true ->
  exists pid p,
    currentStreamProcess (state sv) = Some pid
    /\ procs (state sv) !! pid = Some p
    /\ exited p = false.
Proof.
  intros Hrun. destruct (reachable_state_ok _ _ Hrun) as [[Hh _] _].
  unfold getStatus, handle_valid, isRunning in *. cbn.
  destruct (currentStreamProcess (state sv)) as [pid|]; [|done].
  destruct (procs (state sv) !! pid) as [p|] eqn:Hp; [|done].
  intros _. exists pid, p. split; [done|]. split; [done|].
  destruct (exited p); [cbn in Hh; discriminate | reflexivity].
Qed.

Lemma active_process_is_running_witness :
  exists pid p,
    currentStreamProcess (state liveServer) = Some pid
    /\ procs (state liveServer) !! pid = Some p
    /\ exited p = false.
Proof.
  apply (active_process_is_running toLive liveServer);
    vm_compute; reflexivity.
Defined.

(** The status of the supervisor is always one of idle, starting, live,
    stopping and error; it is never "stopped". *)
Theorem streamStatus_values (es : list Event) (sv : Server) :
  run es boot = Some sv ->
  In (streamStatus (state sv)) statusValues
  /\ streamStatus (state sv) <> "stopped".
Proof.
  intros Hrun. destruct (reachable_state_ok _ _ Hrun) as [[_ (H & _)] _].
  split; [done|]. intros E. rewrite E in H. cbn in H.
  repeat destruct H as [H|H]; done.
Qed.

Lemma streamStatus_values_witness :
  In (streamStatus (state liveServer)) statusValues
  /\ streamStatus (state liveServer) <> "stopped".
Proof.
  apply (streamStatus_values toLive liveServer); vm_compute; reflexivity.
Defined.

(** Every status that the go-live and stop handlers write to a stream
    record is a value of the [enum] of the schema. *)
Theorem record_status_in_schema (es : list Event) (sv : Server) :
  run es boot = Some sv ->
  Forall (fun d => In (status d) recordStatusValues) (streams (state sv)).
Proof.
  intros Hrun. by destruct (reachable_state_ok _ _ Hrun) as [[_ (_ & H & _)] _].
Qed.

Lemma record_status_in_schema_witness :
  Forall (fun d => In (status d) recordStatusValues)
         (streams (state liveServer)).
Proof.
  apply (record_status_in_schema toLive liveServer); vm_compute; reflexivity.
Defined.

(** Every FFmpeg process the server has spawned was given the native-rate
    flag first and, last, a destination that includes "rtmp://". *)
Theorem spawned_arguments_shape (es : list Event) (sv : Server) (pid : nat)
    (p : ChildProcess) :
  run es boot = Some sv ->
  procs (state sv) !! pid = Some p ->
  head (spawnargs p) = Some "-re"
  /\ exists dest,
       last (spawnargs p) = Some dest /\ JS.includes dest "rtmp://" = true.
Proof.
  intros Hrun Hp.
  destruct (reachable_state_ok _ _ Hrun) as [[_ (_ & _ & H & _)] _].
  exact (Forall_lookup_1 _ _ _ _ H Hp).
Qed.

Lemma spawned_arguments_shape_witness :
  head (ffmpegArgs "https://example.com/clip.mp4"
          "rtmp://a.rtmp.youtube.com/live2" "alpha-key" false) = Some "-re"
  /\ exists dest,
       last (ffmpegArgs "https://example.com/clip.mp4"
               "rtmp://a.rtmp.youtube.com/live2" "alpha-key" false) = Some dest
       /\ JS.includes dest "rtmp://" = true.
Proof.
  apply (spawned_arguments_shape toLive liveServer 0
           (mkChildProcess
              (ffmpegArgs "https://example.com/clip.mp4"
                 "rtmp://a.rtmp.youtube.com/live2" "alpha-key" false)
              false [] false true Resolved true []));
    vm_compute; reflexivity.
Defined.

(** The only signals the server ever sends to a child are SIGTERM and
    SIGKILL, and the [killed] flag of a child is set exactly when a signal
    has been delivered to it. *)
Theorem signals_sent_and_killed_flag (es : list Event) (sv : Server)
    (pid : nat) (p : ChildProcess) :
  run es boot = Some sv ->
  procs (state sv) !! pid = Some p ->
  Forall (fun s => s = "SIGTERM" \/ s = "SIGKILL") (signalsSent p)
  /\ (killed p = true <-> signalsSent p <> []).
Proof.
  intros Hrun Hp.
  destruct (reachable_state_ok _ _ Hrun) as [[_ (_ & _ & _ & H)] _].
  exact (Forall_lookup_1 _ _ _ _ H Hp).
Qed.

Lemma signals_sent_and_killed_flag_witness :
  Forall (fun s => s = "SIGTERM" \/ s = "SIGKILL") ["SIGTERM"]
  /\ (true = true <-> ["SIGTERM"] <> []).
Proof.
  apply (signals_sent_and_killed_flag (toLive ++ [Stop 7; Resume 1; Resume 1])
           (after (toLive ++ [Stop 7; Resume 1; Resume 1])) 0
           (mkChildProcess
              (ffmpegArgs "https://example.com/clip.mp4"
                 "rtmp://a.rtmp.youtube.com/live2" "alpha-key" false)
              true ["SIGTERM"] false true Resolved true [0]));
    vm_compute; reflexivity.
Defined.

(** ** Outcomes of a start *)

Section StartOutcomes.

Implicit Types (sv : Server) (p : ChildProcess) (request pid doc : nat).

(** The go-live handler after its start promise was rejected: the record
    is marked as failed, then the status is set to error and the answer is
    500 with the message of the rejection. *)
Lemma resume_after_rejected sv request pid doc p (message : string) :
  crashed (state sv) = false ->
  tasks sv !! request =
    Some (Await (WaitStart pid) (goLive_afterStart doc pid)) ->
  procs (state sv) !! pid = Some p ->
  startPromise p = Rejected message ->
  run [Resume request; Resume request] sv =
    Some {| state :=
              set_streamStatus "error"
                (set_doc doc (doc_error message)
                   (log ("Failed to start stream: Error: " +:+ message)
                        (state sv)));
            tasks :=
              <[request :=
                  Respond (Send 500 ("Failed to start stream: " +:+ message))]>
                (tasks sv) |}.
Proof.
  intros Hc Ht Hp Hm. pose proof (lookup_lt_Some _ _ _ Ht) as Hlen.
  cbn [run]. unfold step at 1. rewrite Hc, Ht. unfold ready.
  rewrite Hp, Hm. cbn [settled]. unfold goLive_afterStart. rewrite Hp, Hm.
  cbn [fst snd]. unfold step. cbn [state tasks].
  replace (crashed _) with false by (symmetry; exact Hc).
  rewrite list_lookup_insert_eq by exact Hlen. cbn [ready fst snd].
  by rewrite list_insert_insert_eq.
Qed.

(** The go-live handler after its start promise was resolved: the record
    is marked live and the answer is success. *)
Lemma resume_after_resolved sv request pid doc p :
  crashed (state sv) = false ->
  tasks sv !! request =
    Some (Await (WaitStart pid) (goLive_afterStart doc pid)) ->
  procs (state sv) !! pid = Some p ->
  startPromise p = Resolved ->
  run [Resume request; Resume request] sv =
    Some {| state := set_doc doc (doc_status "live") (state sv);
            tasks :=
              <[request := Respond (Json "Stream started successfully" "live")]>
                (tasks sv) |}.
Proof.
  intros Hc Ht Hp Hm. pose proof (lookup_lt_Some _ _ _ Ht) as Hlen.
  cbn [run]. unfold step at 1. rewrite Hc, Ht. unfold ready.
  rewrite Hp, Hm. cbn [settled]. unfold goLive_afterStart. rewrite Hp, Hm.
  cbn [fst snd]. unfold step. cbn [state tasks].
  replace (crashed _) with false by (symmetry; exact Hc).
  rewrite list_lookup_insert_eq by exact Hlen. cbn [ready fst snd].
  by rewrite list_insert_insert_eq.
Qed.

(** When a process that has not been seen ready prints a chunk with one of
    the two readiness markers, the go-live handler that waits for it
    answers success with status "live", the status is live, the record of
    the stream is marked live, and the process stays the one it was: no
    signal, no exit, the same handle. *)
Theorem start_succeeds_on_readiness sv request pid doc p (data : string) :
  crashed (state sv) = false ->
  tasks sv !! request =
    Some (Await (WaitStart pid) (goLive_afterStart doc pid)) ->
  procs (state sv) !! pid = Some p ->
  streamStarted p = false ->
  startPromise p = Pending ->
  readiness data = true ->
  exists sv',
    run [Stderr pid data; Resume request; Resume request] sv = Some sv'
    /\ tasks sv' !! request =
         Some (Respond (Json "Stream started successfully" "live"))
    /\ streamStatus (state sv') = "live"
    /\ currentStreamProcess (state sv') = currentStreamProcess (state sv)
    /\ fates (state sv') = fates (state sv)
    /\ streams (state sv') = alter (doc_status "live") doc (streams (state sv)).
Proof.
  intros Hc Ht Hp Hs Hm Hr.
  pose proof (lookup_lt_Some _ _ _ Ht) as Hlen.
  set (st1 := on_stderr pid data (state sv)).
  assert (E1 : st1 =
    update_proc pid (map_startPromise resolve)
      (set_streamStatus "live"
         (update_proc pid set_streamStarted
            (log ("FFmpeg stderr: " +:+ data) (state sv))))).
  { unfold st1, on_stderr. cbn [procs log]. by rewrite Hp, Hs, Hr. }
  assert (Hp1 : procs st1 !! pid =
                Some (map_startPromise resolve (set_streamStarted p))).
  { rewrite E1. apply lookup_update_proc. cbn [procs set_streamStatus].
    by apply lookup_update_proc. }
  assert (Hstep : step (Stderr pid data) sv = Some (with_state sv st1)).
  { unfold step. by rewrite Hc, Hp. }
  eexists. split.
  { change [Stderr pid data; Resume request; Resume request]
      with ([Stderr pid data] ++ [Resume request; Resume request]).
    cbn [run app]. rewrite Hstep.
    eapply (resume_after_resolved (with_state sv st1) request pid doc);
      [by rewrite E1 | exact Ht | exact Hp1 |].
    cbn. by rewrite Hm. }
  cbn [state tasks]. split; [by rewrite list_lookup_insert_eq|].
  rewrite E1. repeat split.
  unfold fates. cbn. by rewrite !fmap_alter_same.
Qed.

(** When a process exits before any readiness marker with an exit code
    other than 0 (a number, or [null] after a signal), the go-live handler
    that waits for it answers 500 with "FFmpeg exited with code" and the
    code, the status is error, the handle is released and the record of
    the stream is marked as failed with that message. *)
Theorem start_fails_on_early_exit sv request pid doc p (code : option Z)
    (signal : option string) :
  crashed (state sv) = false ->
  tasks sv !! request =
    Some (Await (WaitStart pid) (goLive_afterStart doc pid)) ->
  procs (state sv) !! pid = Some p ->
  exited p = false ->
  streamStarted p = false ->
  startPromise p = Pending ->
  code_is_zero code = false ->
  let message := "FFmpeg exited with code " +:+ JS.showCode code in
  exists sv',
    run [Exit pid code signal; Resume request; Resume request] sv = Some sv'
    /\ tasks sv' !! request =
         Some (Respond (Send 500 ("Failed to start stream: " +:+ message)))
    /\ getStatus (state sv') =
         {| status_field := "error"; hasActiveProcess := false |}
    /\ isRunning (state sv') pid = false
    /\ streams (state sv') =
         alter (doc_error message) doc (streams (state sv)).
Proof.
  intros Hc Ht Hp Hex Hs Hm Hz message.
  pose proof (lookup_lt_Some _ _ _ Ht) as Hlen.
  set (st0 := update_proc pid set_exited (state sv)).
  set (st1 := emit_exit pid code signal (state sv)).
  assert (Hp0 : procs st0 !! pid = Some (set_exited p))
    by (by apply lookup_update_proc).
  destruct (on_exit_effect pid code signal st0 _ Hp0)
    as (_ & O2 & _ & _ & O5 & O6 & O7).
  cbn [streamStarted set_exited] in O7. rewrite Hs, Hz in O7. cbn [negb andb] in O7.
  destruct (kill_listeners_frame (exitWaiters p) (on_exit pid code signal st0))
    as (_ & F2 & _ & F4 & F5 & F6).
  cbv zeta in F2, F4, F5, F6.
  assert (E1 : st1 = foldl (fun st k => kill_onExit k st)
                       (on_exit pid code signal st0) (exitWaiters p)).
  { unfold st1, emit_exit. by rewrite Hp. }
  rewrite <- E1 in F2, F4, F5, F6.
  assert (Hp1 : procs st1 !! pid =
                Some (map_startPromise (reject message) (set_exited p))).
  { rewrite F2, O7, list_lookup_alter_eq. by rewrite Hp0. }
  assert (Hstep : step (Exit pid code signal) sv = Some (with_state sv st1)).
  { unfold step. by rewrite Hc, Hp, Hex. }
  eexists. split.
  { change [Exit pid code signal; Resume request; Resume request]
      with ([Exit pid code signal] ++ [Resume request; Resume request]).
    cbn [run app]. rewrite Hstep.
    eapply (resume_after_rejected (with_state sv st1) request pid doc _ message);
      [cbn [state with_state]; rewrite F5, O6; exact Hc | exact Ht | exact Hp1 |].
    cbn. by rewrite Hm. }
  cbn [state tasks]. split; [by rewrite list_lookup_insert_eq|].
  split; [|split].
  - unfold getStatus. cbn. by rewrite (F6 O2).
  - unfold isRunning. cbn. by rewrite Hp1.
  - cbn. by rewrite F4, O5.
Qed.

(** When the spawn of FFmpeg fails, the go-live handler answers 500 with
    the message of the error, the status is error and the handle is
    released. *)
Theorem start_fails_on_spawn_error sv request pid doc p (error : string) :
  crashed (state sv) = false ->
  tasks sv !! request =
    Some (Await (WaitStart pid) (goLive_afterStart doc pid)) ->
  procs (state sv) !! pid = Some p ->
  exited p = false ->
  startPromise p = Pending ->
  exists sv',
    run [SpawnError pid error; Resume request; Resume request] sv = Some sv'
    /\ tasks sv' !! request =
         Some (Respond (Send 500 ("Failed to start stream: " +:+ error)))
    /\ getStatus (state sv') =
         {| status_field := "error"; hasActiveProcess := false |}
    /\ isRunning (state sv') pid = false.
Proof.
  intros Hc Ht Hp Hex Hm.
  pose proof (lookup_lt_Some _ _ _ Ht) as Hlen.
  set (st1 := emit_error pid error (state sv)).
  assert (Hp1 : procs st1 !! pid =
                Some (map_startPromise (reject error) (set_exited p))).
  { unfold st1, emit_error, on_error. apply lookup_update_proc.
    cbn [procs set_currentStreamProcess set_streamStatus log].
    by apply lookup_update_proc. }
  assert (Hstep : step (SpawnError pid error) sv = Some (with_state sv st1)).
  { unfold step. by rewrite Hc, Hp, Hex. }
  eexists. split.
  { change [SpawnError pid error; Resume request; Resume request]
      with ([SpawnError pid error] ++ [Resume request; Resume request]).
    cbn [run app]. rewrite Hstep.
    eapply (resume_after_rejected (with_state sv st1) request pid doc _ error);
      [exact Hc | exact Ht | exact Hp1 |].
    cbn. by rewrite Hm. }
  cbn [state tasks]. split; [by rewrite list_lookup_insert_eq|].
  split; [done|]. unfold isRunning. cbn. 
  change (alter (map_startPromise (reject error)) pid
            (alter set_exited pid (procs (state sv)))) with (procs st1).
  by rewrite Hp1.
Qed.

(** A readiness marker printed after the start has already failed (after
    the timeout, say) still sets the status to live, although the verdict
    of the start stays the rejection. *)
Theorem late_readiness_sets_live sv pid p (data message : string) :
  crashed (state sv) = false ->
  procs (state sv) !! pid = Some p ->
  streamStarted p = false ->
  startPromise p = Rejected message ->
  readiness data = true ->
  exists sv',
    step (Stderr pid data) sv = Some sv'
    /\ streamStatus (state sv') = "live"
    /\ startPromise <$> procs (state sv') !! pid = Some (Rejected message)
    /\ tasks sv' = tasks sv.
Proof.
  intros Hc Hp Hs Hm Hr. unfold step. rewrite Hc, Hp.
  eexists. split; [reflexivity|]. cbn [state tasks with_state].
  unfold on_stderr. cbn [procs log]. rewrite Hp, Hs, Hr. cbn [negb andb].
  split; [done|]. split; [|done].
  erewrite lookup_update_proc.
  2:{ cbn [procs set_streamStatus]. by apply lookup_update_proc. }
  cbn. by rewrite Hm.
Qed.

End StartOutcomes.

Lemma start_succeeds_on_readiness_witness :
  exists sv',
    run [Stderr 0 "Press [q] to stop"; Resume 0; Resume 0] startingServer
      = Some sv'
    /\ tasks sv' !! 0 =
         Some (Respond (Json "Stream started successfully" "live"))
    /\ streamStatus (state sv') = "live"
    /\ currentStreamProcess (state sv') =
         currentStreamProcess (state startingServer)
    /\ fates (state sv') = fates (state startingServer)
    /\ streams (state sv') =
         alter (doc_status "live") 0 (streams (state startingServer)).
Proof.
  apply (start_succeeds_on_readiness startingServer 0 0 0
           (mkChildProcess
              (ffmpegArgs "https://example.com/clip.mp4"
                 "rtmp://a.rtmp.youtube.com/live2" "alpha-key" false)
              false [] false false Pending true [])
           "Press [q] to stop");
    vm_compute; reflexivity.
Defined.

Lemma start_fails_on_early_exit_witness :
  exists sv',
    run [Exit 0 (Some 1%Z) None; Resume 0; Resume 0] startingServer = Some sv'
    /\ tasks sv' !! 0 =
         Some (Respond (Send 500
           ("Failed to start stream: " +:+
            ("FFmpeg exited with code " +:+ JS.showCode (Some 1%Z)))))
    /\ getStatus (state sv') =
         {| status_field := "error"; hasActiveProcess := false |}
    /\ isRunning (state sv') 0 = false
    /\ streams (state sv') =
         alter (doc_error ("FFmpeg exited with code " +:+ JS.showCode (Some 1%Z)))
               0 (streams (state startingServer)).
Proof.
  apply (start_fails_on_early_exit startingServer 0 0 0
           (mkChildProcess
              (ffmpegArgs "https://example.com/clip.mp4"
                 "rtmp://a.rtmp.youtube.com/live2" "alpha-key" false)
              false [] false false Pending true [])
           (Some 1%Z) None);
    vm_compute; reflexivity.
Defined.

Lemma start_fails_on_spawn_error_witness :
  exists sv',
    run [SpawnError 0 "spawn ffmpeg ENOENT"; Resume 0; Resume 0] startingServer
      = Some sv'
    /\ tasks sv' !! 0 =
         Some (Respond (Send 500
           ("Failed to start stream: " +:+ "spawn ffmpeg ENOENT")))
    /\ getStatus (state sv') =
         {| status_field := "error"; hasActiveProcess := false |}
    /\ isRunning (state sv') 0 = false.
Proof.
  apply (start_fails_on_spawn_error startingServer 0 0 0
           (mkChildProcess
              (ffmpegArgs "https://example.com/clip.mp4"
                 "rtmp://a.rtmp.youtube.com/live2" "alpha-key" false)
              false [] false false Pending true [])
           "spawn ffmpeg ENOENT");
    vm_compute; reflexivity.
Defined.

Lemma late_readiness_sets_live_witness :
  let sv := after (toStarting ++ [StartTimeout 0; Resume 0; Resume 0]) in
  streamStatus (state sv) = "error"
  /\ exists sv',
       step (Stderr 0 "Press [q] to stop") sv = Some sv'
       /\ streamStatus (state sv') = "live"
       /\ startPromise <$> procs (state sv') !! 0 =
            Some (Rejected "FFmpeg failed to start within timeout")
       /\ tasks sv' = tasks sv.
Proof.
  split; [vm_compute; reflexivity|].
  apply (late_readiness_sets_live
           (after (toStarting ++ [StartTimeout 0; Resume 0; Resume 0])) 0
           (mkChildProcess
              (ffmpegArgs "https://example.com/clip.mp4"
                 "rtmp://a.rtmp.youtube.com/live2" "alpha-key" false)
              false [] false false
              (Rejected "FFmpeg failed to start within timeout") false [])
           "Press [q] to stop" "FFmpeg failed to start within timeout");
    vm_compute; reflexivity.
Defined.

(** ** Termination of a process *)

Section Termination.

Implicit Types (sv : Server) (st : State) (p : ChildProcess) (pid k : nat).

(** A second [killStreamProcess] while the first one waits for the exit
    sends no second signal and does not wait: the [killed] flag set by the
    delivered SIGTERM makes its promise resolve on the spot, although the
    process still runs. *)
Theorem second_kill_sends_nothing st pid p :
  currentStreamProcess st = Some pid ->
  procs st !! pid = Some p ->
  killed p = false ->
  exited p = false ->
  let r := killStreamProcess st in
  snd r = Some (length (kills st))
  /\ killStreamProcess (fst r) = (fst r, None)
  /\ fate <$> procs (fst r) !! pid = Some (signalsSent p ++ ["SIGTERM"], false).
Proof.
  intros Hcur Hp Hk Hex. cbv zeta.
  set (st1 := update_proc pid (add_exitWaiter (length (kills st)))
                (set_kills (kills st ++ [{| forceKill := true;
                                            killResolved := false |}])
                   (update_proc pid (kill "SIGTERM") st))).
  assert (E : killStreamProcess st = (st1, Some (length (kills st)))).
  { unfold killStreamProcess. by rewrite Hcur, Hp, Hk. }
  rewrite E. cbn [fst snd]. split; [done|].
  assert (Hp1 : procs st1 !! pid =
                Some (add_exitWaiter (length (kills st)) (kill "SIGTERM" p))).
  { unfold st1. apply lookup_update_proc. cbn [procs set_kills].
    by apply lookup_update_proc. }
  split.
  - unfold killStreamProcess.
    replace (currentStreamProcess st1) with (Some pid) by (by rewrite <- Hcur).
    rewrite Hp1. unfold kill. by rewrite Hex.
  - rewrite Hp1. unfold kill, fate. by rewrite Hex.
Qed.

Lemma stop_sends_sigterm (user : nat) st pid p :
  currentStreamProcess st = Some pid ->
  procs st !! pid = Some p ->
  killed p = false ->
  exists st2,
    uninterrupted 2 (stop user st) =
      (st2, Await (WaitKill (length (kills st)))
                  (stop_afterKill (findLive user (streams st))))
    /\ procs st2 =
         alter (add_exitWaiter (length (kills st))) pid
           (alter (kill "SIGTERM") pid (procs st))
    /\ kills st2 =
         kills st ++ [{| forceKill := true; killResolved := false |}]
    /\ currentStreamProcess st2 = Some pid
    /\ crashed st2 = crashed st.
Proof.
  intros Hcur Hp Hk.
  set (a := findLive user (streams st)).
  set (st1 := match a with
              | Some doc => set_doc doc (doc_status "stopping")
                              (set_streamStatus "stopping" st)
              | None => set_streamStatus "stopping" st
              end).
  assert (Hst1 : currentStreamProcess st1 = Some pid /\ procs st1 = procs st
                 /\ kills st1 = kills st /\ crashed st1 = crashed st).
  { unfold st1. by destruct a. }
  destruct Hst1 as (C1 & P1 & K1 & X1).
  destruct (killStreamProcess st1) as [st2 r] eqn:Hkill.
  assert (Hr : r = Some (length (kills st))
               /\ procs st2 = alter (add_exitWaiter (length (kills st))) pid
                                (alter (kill "SIGTERM") pid (procs st))
               /\ kills st2 = kills st ++ [{| forceKill := true;
                                              killResolved := false |}]
               /\ currentStreamProcess st2 = Some pid
               /\ crashed st2 = crashed st).
  { unfold killStreamProcess in Hkill. rewrite C1, P1, Hp, Hk in Hkill.
    cbn [negb] in Hkill. injection Hkill as <- <-. cbn. by rewrite K1, P1. }
  destruct Hr as (-> & P2 & K2 & C2 & X2).
  exists st2. split; [|done].
  assert (Hready : ready (WaitKill (length (kills st))) st2 = false).
  { unfold ready. by rewrite K2, lookup_snoc_length. }
  cbn [uninterrupted stop ready]. unfold stop_afterFind.
  cbn [streams set_streamStatus]. fold a. destruct a as [doc|].
  - cbn [uninterrupted ready]. unfold stop_kill.
    change (set_doc doc (doc_status "stopping")
              (set_streamStatus "stopping" st)) with st1.
    by rewrite Hkill.
  - unfold stop_kill. change (set_streamStatus "stopping" st) with st1.
    rewrite Hkill. cbn [await_kill uninterrupted]. by rewrite Hready.
Qed.

(** Stop on a process that ignores SIGTERM.  When the 5 second timer
    fires, the process is the current one and its [killed] flag is set, so
    no SIGKILL is sent; the promise is resolved all the same and the
    handler answers success with status "idle".  The process keeps running
    and stays in [currentStreamProcess]: the status is idle while the
    status response reports an active process. *)
Theorem stop_on_unresponsive_process (user : nat) st pid p :
  currentStreamProcess st = Some pid ->
  procs st !! pid = Some p ->
  killed p = false ->
  exited p = false ->
  let r := stop_then_forceKill user st in
  snd r = Respond (Json "Stream stopped successfully" "idle")
  /\ getStatus (fst r) = {| status_field := "idle"; hasActiveProcess := true |}
  /\ currentStreamProcess (fst r) = Some pid
  /\ fate <$> procs (fst r) !! pid = Some (signalsSent p ++ ["SIGTERM"], false)
  /\ crashed (fst r) = crashed st.
Proof.
  intros Hcur Hp Hk Hex. unfold stop_then_forceKill.
  destruct (stop_sends_sigterm user st pid p Hcur Hp Hk)
    as (st2 & -> & P2 & K2 & C2 & X2).
  cbn [fst snd]. set (k := length (kills st)).
  assert (Hp2 : procs st2 !! pid = Some (add_exitWaiter k (kill "SIGTERM" p))).
  { by rewrite P2, !list_lookup_alter_eq, Hp. }
  set (st3 := forceKill_callback k (clearTimeout k st2)).
  assert (E3 : st3 = resolve_kill k (clearTimeout k st2)).
  { unfold st3, forceKill_callback. cbn [currentStreamProcess clearTimeout
      set_kills procs]. rewrite C2, Hp2. unfold kill. by rewrite Hex. }
  assert (Hready : ready (WaitKill k) st3 = true).
  { rewrite E3. unfold ready, resolve_kill, clearTimeout, k. cbn.
    by rewrite !list_lookup_alter_eq, K2, lookup_snoc_length. }
  assert (F3 : procs st3 = procs st2 /\ currentStreamProcess st3 = Some pid
               /\ crashed st3 = crashed st).
  { rewrite E3. by repeat split. }
  destruct F3 as (P3 & C3 & X3). clearbody st3.
  cbn [uninterrupted]. rewrite Hready. unfold stop_afterKill.
  assert (Hfate : fate <$> procs st3 !! pid =
                  Some (signalsSent p ++ ["SIGTERM"], false)).
  { rewrite P3, Hp2. unfold kill, fate. by rewrite Hex. }
  destruct (findLive user (streams st)) as [doc|];
    cbn [uninterrupted ready stop_cleanup fst snd];
    unfold getStatus;
    cbn [streamStatus currentStreamProcess procs crashed set_doc set_streams
         set_streamStatus];
    by rewrite C3, Hfate, X3.
Qed.

(** The force-kill timer signals whatever process is current when it
    fires.  A process that has not been signalled receives SIGKILL, also
    when the timer was armed for another process, and the promise of the
    timer is resolved. *)
Theorem forceKill_timer_signals_current_process sv k (kp : KillPromise) pid p :
  crashed (state sv) = false ->
  kills (state sv) !! k = Some kp ->
  forceKill kp = true ->
  currentStreamProcess (state sv) = Some pid ->
  procs (state sv) !! pid = Some p ->
  killed p = false ->
  exited p = false ->
  exists sv',
    step (ForceKillTimeout k) sv = Some sv'
    /\ fate <$> procs (state sv') !! pid =
         Some (signalsSent p ++ ["SIGKILL"], false)
    /\ kills (state sv') !! k =
         Some {| forceKill := false; killResolved := true |}.
Proof.
  intros Hc Hkp Hf Hcur Hp Hk Hex. unfold step. rewrite Hc, Hkp, Hf.
  eexists. split; [reflexivity|]. cbn [state with_state].
  unfold forceKill_callback.
  cbn [currentStreamProcess clearTimeout set_kills procs].
  rewrite Hcur, Hp, Hk. cbn [negb]. split.
  - cbn [procs resolve_kill set_kills update_proc set_procs clearTimeout].
    rewrite list_lookup_alter_eq, Hp. cbn [fmap option_fmap option_map].
    unfold kill, fate. by rewrite Hex.
  - cbn [kills resolve_kill set_kills update_proc set_procs clearTimeout].
    by rewrite !list_lookup_alter_eq, Hkp.
Qed.

(** When the force-kill timer fires while no process is held, the callback
    of the current server file reads a property of [null]: the exception
    is not caught, and no further event is handled. *)
Theorem forceKill_timer_without_handle_crashes sv k (kp : KillPromise) :
  crashed (state sv) = false ->
  kills (state sv) !! k = Some kp ->
  forceKill kp = true ->
  currentStreamProcess (state sv) = None ->
  exists sv',
    step (ForceKillTimeout k) sv = Some sv'
    /\ crashed (state sv') = true
    /\ killResolved <$> kills (state sv') !! k = Some (killResolved kp)
    /\ forall e, step e sv' = None.
Proof.
  intros Hc Hkp Hf Hcur. unfold step at 1. rewrite Hc, Hkp, Hf.
  eexists. split; [reflexivity|]. cbn [state with_state].
  unfold forceKill_callback.
  cbn [currentStreamProcess clearTimeout set_kills]. rewrite Hcur.
  split; [done|]. split.
  - cbn. by rewrite list_lookup_alter_eq, Hkp.
  - intros e. unfold step. reflexivity.
Qed.

End Termination.

Lemma second_kill_sends_nothing_witness :
  let r := killStreamProcess (state liveServer) in
  snd r = Some 0
  /\ killStreamProcess (fst r) = (fst r, None)
  /\ fate <$> procs (fst r) !! 0 = Some (["SIGTERM"], false).
Proof.
  apply (second_kill_sends_nothing (state liveServer) 0
           (mkChildProcess
              (ffmpegArgs "https://example.com/clip.mp4"
                 "rtmp://a.rtmp.youtube.com/live2" "alpha-key" false)
              false [] false true Resolved true []));
    vm_compute; reflexivity.
Defined.

Lemma stop_on_unresponsive_process_witness :
  let r := stop_then_forceKill 7 (state liveServer) in
  snd r = Respond (Json "Stream stopped successfully" "idle")
  /\ getStatus (fst r) = {| status_field := "idle"; hasActiveProcess := true |}
  /\ currentStreamProcess (fst r) = Some 0
  /\ fate <$> procs (fst r) !! 0 = Some (["SIGTERM"], false)
  /\ crashed (fst r) = false.
Proof.
  apply (stop_on_unresponsive_process 7 (state liveServer) 0
           (mkChildProcess
              (ffmpegArgs "https://example.com/clip.mp4"
                 "rtmp://a.rtmp.youtube.com/live2" "alpha-key" false)
              false [] false true Resolved true []));
    vm_compute; reflexivity.
Defined.

(** The timer armed for the first process of [toStaleTimer] hits the
    second. *)
Lemma forceKill_timer_signals_current_process_witness :
  exitWaiters <$> procs (state (after toStaleTimer)) !! 0 = Some [0]
  /\ exitWaiters <$> procs (state (after toStaleTimer)) !! 1 = Some []
  /\ exists sv',
       step (ForceKillTimeout 0) (after toStaleTimer) = Some sv'
       /\ fate <$> procs (state sv') !! 1 = Some (["SIGKILL"], false)
       /\ kills (state sv') !! 0 =
            Some {| forceKill := false; killResolved := true |}.
Proof.
  split; [vm_compute; reflexivity|]. split; [vm_compute; reflexivity|].
  apply (forceKill_timer_signals_current_process (after toStaleTimer) 0
           {| forceKill := true; killResolved := false |} 1
           (mkChildProcess
              (ffmpegArgs "https://example.com/clip.mp4"
                 "rtmp://a.rtmp.youtube.com/live2" "charlie-key" false)
              false [] false false Pending true []));
    vm_compute; reflexivity.
Defined.

(** After [toStaleTimer] the second process exits; the timer of the first
    then finds no handle. *)
Lemma forceKill_timer_without_handle_crashes_witness :
  let sv := after (toStaleTimer ++ [Exit 1 (Some 1%Z) None]) in
  exists sv',
    step (ForceKillTimeout 0) sv = Some sv'
    /\ crashed (state sv') = true
    /\ killResolved <$> kills (state sv') !! 0 = Some false
    /\ forall e, step e sv' = None.
Proof.
  apply (forceKill_timer_without_handle_crashes
           (after (toStaleTimer ++ [Exit 1 (Some 1%Z) None])) 0
           {| forceKill := true; killResolved := false |});
    vm_compute; reflexivity.
Defined.

(** ** A go-live request on a server without process *)

Section GoLiveFacts.

Implicit Types (req : GoLiveRequest) (st : State).

(** A go-live request that passes the checks (stream URL with "rtmp://",
    stream key, an uploaded file or else a video link, and no NUL character
    in any of them), on a server that holds no process: once its record
    is saved, FFmpeg is spawned with the arguments built from the input
    source, the URL, the key and the loop flag, the new child is the
    current process, the status is starting and the handler waits for the
    start promise.  An uploaded file takes precedence over a video
    link. *)
Theorem goLive_spawns req st (streamUrl streamKey inputSource : string) :
  startable req streamUrl streamKey inputSource ->
  currentStreamProcess st = None ->
  let r := uninterrupted 1 (goLive req st) in
  let pid := length (procs st) in
  let doc := length (streams st) in
  snd r = Await (WaitStart pid) (goLive_afterStart doc pid)
  /\ getStatus (fst r) =
       {| status_field := "starting"; hasActiveProcess := true |}
  /\ currentStreamProcess (fst r) = Some pid
  /\ procs (fst r) =
       procs st ++
       [newChild inputSource streamUrl streamKey
                 (shouldLoop (body_loopVideo req))]
  /\ exists videoSource,
       streams (fst r) =
         streams st ++
         [{| userId := req_user req; streamKey := streamKey;
             streamUrl := streamUrl; videoSource := videoSource;
             videoPath := inputSource; status := "starting";
             ended := false; errorMessage := None |}]
       /\ (videoSource = "file" <-> file_path req = Some inputSource).
Proof.
  intros (Hu & Hk & Htu & Htk & Hrtmp & Hin & _) Hcur. cbv zeta.
  unfold goLive. rewrite Hu, Hk, Htu, Htk, Hcur. cbn [negb orb].
  unfold goLive_afterKill. rewrite Hrtmp. cbn [negb].
  destruct Hin as [Hf|(Hf & Hl & Htl)].
  - rewrite Hf. cbn [uninterrupted ready]. unfold goLive_afterSave.
    cbn. repeat split. exists "file". by repeat split.
  - rewrite Hf, Hl, Htl. cbn [uninterrupted ready]. unfold goLive_afterSave.
    cbn. repeat split. exists "url". repeat split; [done|congruence].
Qed.

Lemma goLive_spawns_witness :
  let req := linkRequest 7 "alpha-key" in
  let r := uninterrupted 1 (goLive req initial) in
  snd r = Await (WaitStart 0) (goLive_afterStart 0 0)
  /\ getStatus (fst r) =
       {| status_field := "starting"; hasActiveProcess := true |}
  /\ currentStreamProcess (fst r) = Some 0
  /\ procs (fst r) =
       [] ++
       [newChild "https://example.com/clip.mp4"
          "rtmp://a.rtmp.youtube.com/live2" "alpha-key"
          (shouldLoop (body_loopVideo req))]
  /\ exists videoSource,
       streams (fst r) =
         [] ++
         [{| userId := 7; streamKey := "alpha-key";
             streamUrl := "rtmp://a.rtmp.youtube.com/live2";
             videoSource := videoSource;
             videoPath := "https://example.com/clip.mp4";
             status := "starting"; ended := false; errorMessage := None |}]
       /\ (videoSource = "file" <->
           file_path req = Some "https://example.com/clip.mp4").
Proof.
  apply (goLive_spawns (linkRequest 7 "alpha-key") initial
           "rtmp://a.rtmp.youtube.com/live2" "alpha-key"
           "https://example.com/clip.mp4");
    try reflexivity;
    (repeat split; try (vm_compute; reflexivity));
    right; repeat split.
Defined.

(** A go-live request with stream URL, stream key and an input source, an
    uploaded file or else a video link, whose stream URL does not contain
    "rtmp://", on a server that holds no process: it is answered 400 and
    spawns nothing and saves no record; but the status has been set to
    starting before the check and stays there. *)
Theorem goLive_invalid_url req st (streamUrl streamKey inputSource : string) :
  body_streamUrl req = Some streamUrl ->
  body_streamKey req = Some streamKey ->
  JS.truthy (Some streamUrl) = true ->
  JS.truthy (Some streamKey) = true ->
  JS.includes streamUrl "rtmp://" = false ->
  hasInput req inputSource ->
  currentStreamProcess st = None ->
  let r := goLive req st in
  snd r = Respond (Send 400 "Invalid RTMP stream URL")
  /\ getStatus (fst r) =
       {| status_field := "starting"; hasActiveProcess := false |}
  /\ procs (fst r) = procs st
  /\ streams (fst r) = streams st.
Proof.
  intros Hu Hk Htu Htk Hrtmp Hin Hcur. cbv zeta.
  unfold goLive. rewrite Hu, Hk, Htu, Htk, Hcur. cbn [negb orb].
  unfold goLive_afterKill. rewrite Hrtmp. cbn [negb].
  destruct Hin as [Hf|(Hf & Hl & Htl)].
  - rewrite Hf. unfold getStatus. cbn. by rewrite Hcur.
  - rewrite Hf, Hl, Htl. unfold getStatus. cbn. by rewrite Hcur.
Qed.

(** A request with a video link and no file. *)
Lemma goLive_invalid_url_witness :
  let req :=
    {| req_user := 7; body_streamUrl := Some "https://a.rtmp.youtube.com/live2";
       body_streamKey := Some "alpha-key";
       body_videoLink := Some "https://example.com/clip.mp4";
       body_loopVideo := LoopAbsent; file_path := None |} in
  let r := goLive req initial in
  snd r = Respond (Send 400 "Invalid RTMP stream URL")
  /\ getStatus (fst r) =
       {| status_field := "starting"; hasActiveProcess := false |}
  /\ procs (fst r) = procs initial
  /\ streams (fst r) = streams initial.
Proof.
  apply (goLive_invalid_url
           {| req_user := 7;
              body_streamUrl := Some "https://a.rtmp.youtube.com/live2";
              body_streamKey := Some "alpha-key";
              body_videoLink := Some "https://example.com/clip.mp4";
              body_loopVideo := LoopAbsent; file_path := None |}
           initial "https://a.rtmp.youtube.com/live2" "alpha-key"
           "https://example.com/clip.mp4");
    try (vm_compute; reflexivity).
  right. repeat split.
Defined.

End GoLiveFacts.

(** ** Uploads *)

Section UploadFacts.

Import Upload.

Lemma sanitize_chars (s : string) : allChars nameChar (sanitize s) = true.
Proof.
  induction s as [|c s IH]; [done|]. cbn [sanitize allChars].
  rewrite IH, andb_true_r. unfold nameChar.
  destruct (keptChar c) eqn:E; [by rewrite E | done].
Qed.

Lemma allChars_append (f : ascii -> bool) (a b : string) :
  allChars f (a +:+ b) = allChars f a && allChars f b.
Proof.
  induction a as [|c a IH]; [done|].
  rewrite append_cons. cbn [allChars]. by rewrite IH, andb_assoc.
Qed.

Lemma uint_chars (d : Decimal.uint) :
  allChars nameChar (NilEmpty.string_of_uint d) = true.
Proof. induction d; cbn [NilEmpty.string_of_uint allChars]; by rewrite ?IHd. Qed.

Lemma allChars_excludes (f : ascii -> bool) (c : ascii) (s : string) :
  f c = false -> allChars f s = true -> JS.includes s (String c "") = false.
Proof.
  intros Hc. induction s as [|x s IH]; [done|].
  cbn [allChars JS.includes String.prefix].
  intros [Hx Hs]%andb_true_iff. rewrite (IH Hs), orb_false_r.
  destruct (ascii_dec c x) as [->|]; [congruence | done].
Qed.

(** The name under which an upload is stored consists of letters, digits,
    dots, hyphens and underscores only, whatever the original name is: it
    contains no slash and no backslash, so it names a file directly in the
    uploads directory. *)
Theorem filename_is_confined (timestamp : N) (originalname : string) :
  allChars nameChar (filename timestamp originalname) = true
  /\ JS.includes (filename timestamp originalname) "/" = false
  /\ JS.includes (filename timestamp originalname) "\" = false.
Proof.
  assert (H : allChars nameChar (filename timestamp originalname) = true).
  { unfold filename. rewrite !allChars_append, sanitize_chars.
    rewrite andb_true_r. unfold NilZero.string_of_uint.
    destruct (N.to_uint timestamp) eqn:E; try done;
      rewrite <- E; apply uint_chars. }
  split; [done|]. split; by apply (allChars_excludes nameChar).
Qed.

Lemma sanitize_length (s : string) :
  String.length (sanitize s) = String.length s.
Proof. induction s as [|c s IH]; [done|]. cbn. by rewrite IH. Qed.

Lemma keptChar_sanitized (c : ascii) :
  keptChar (if keptChar c then c else "_"%char) = keptChar c.
Proof. destruct (keptChar c) eqn:E; [exact E | done]. Qed.

(** Sanitising keeps the length of the name, changes nothing in a name
    made of characters of the class only, and is idempotent. *)
Theorem sanitize_fixpoint (s : string) :
  String.length (sanitize s) = String.length s
  /\ (allChars keptChar s = true -> sanitize s = s)
  /\ sanitize (sanitize s) = sanitize s.
Proof.
  split; [apply sanitize_length|]. split.
  - induction s as [|c s IH]; [done|]. cbn [allChars sanitize].
    intros [Hc Hs]%andb_true_iff. by rewrite Hc, IH.
  - induction s as [|c s IH]; [done|]. cbn [sanitize]. rewrite IH.
    f_equal. destruct (keptChar c) eqn:E; [by rewrite E|].
    reflexivity.
Qed.

Lemma lowerChar_kept (c : ascii) :
  keptChar c = true -> keptChar (lowerChar c) = true.
Proof.
  intros H. unfold lowerChar.
  destruct (Nat.leb 65 (nat_of_ascii c) && Nat.leb (nat_of_ascii c) 90) eqn:E;
    [|exact H].
  apply andb_true_iff in E as [E1%Nat.leb_le E2%Nat.leb_le].
  unfold keptChar. rewrite nat_ascii_embedding by lia.
  assert (Nat.leb 97 (nat_of_ascii c + 32) = true) as ->
    by (apply Nat.leb_le; lia).
  by assert (Nat.leb (nat_of_ascii c + 32) 122 = true) as ->
    by (apply Nat.leb_le; lia).
Qed.

Lemma lowerChar_not_kept (c : ascii) :
  keptChar c = false -> lowerChar c = c.
Proof.
  intros H. unfold lowerChar.
  destruct (Nat.leb 65 (nat_of_ascii c) && Nat.leb (nat_of_ascii c) 90) eqn:E;
    [|reflexivity].
  unfold keptChar in H. rewrite E, orb_true_r in H. discriminate.
Qed.

Lemma lower_sanitize (s : string) : lower (sanitize s) = sanitize (lower s).
Proof.
  induction s as [|c s IH]; [done|]. cbn [lower sanitize]. rewrite IH.
  f_equal. destruct (keptChar c) eqn:E.
  - by rewrite (lowerChar_kept c E).
  - by rewrite (lowerChar_not_kept c E), E.
Qed.

Lemma endsWith_refl (s : string) : endsWith s s = true.
Proof. destruct s; cbn [endsWith]; by rewrite String.eqb_refl. Qed.

Lemma endsWith_sanitize (s suffix : string) :
  endsWith s suffix = true -> endsWith (sanitize s) (sanitize suffix) = true.
Proof.
  induction s as [|c s IH]; cbn [endsWith].
  - rewrite orb_false_r. intros <-%String.eqb_eq. reflexivity.
  - intros [<-%String.eqb_eq|H]%orb_true_iff.
    + apply endsWith_refl.
    + cbn [sanitize endsWith]. rewrite (IH H). apply orb_true_r.
Qed.

Lemma endsWith_append (a s suffix : string) :
  endsWith s suffix = true -> endsWith (a +:+ s) suffix = true.
Proof.
  intros H. induction a as [|c a IH]; [done|].
  rewrite append_cons. cbn [endsWith]. rewrite IH. apply orb_true_r.
Qed.

Lemma lower_append (a b : string) : lower (a +:+ b) = lower a +:+ lower b.
Proof.
  induction a as [|c a IH]; [done|].
  rewrite !append_cons. cbn [lower]. by rewrite IH.
Qed.

(** An upload that passes the file filter is stored under a name that
    passes it too: the sanitising and the timestamp prefix keep the video
    extension. *)
Theorem accepted_upload_keeps_extension (timestamp : N)
    (originalname : string) :
  allowedTypes originalname = true ->
  allowedTypes (sanitize originalname) = true
  /\ allowedTypes (filename timestamp originalname) = true.
Proof.
  unfold allowedTypes. intros H.
  assert (G : existsb
                (fun ext => endsWith (lower (sanitize originalname)) ("." +:+ ext))
                extensions = true).
  { apply existsb_exists in H as (ext & Hin & Hext).
    apply existsb_exists. exists ext. split; [done|].
    rewrite lower_sanitize.
    replace ("." +:+ ext) with (sanitize ("." +:+ ext)).
    - by apply endsWith_sanitize.
    - cbn in Hin. repeat (destruct Hin as [<-|Hin]; [reflexivity|]). done. }
  split; [exact G|].
  apply existsb_exists in G as (ext & Hin & Hext).
  apply existsb_exists. exists ext. split; [done|].
  unfold filename. rewrite !lower_append. by do 2 apply endsWith_append.
Qed.

Lemma accepted_upload_keeps_extension_witness :
  allowedTypes (sanitize "My Clip (1).MP4") = true
  /\ allowedTypes (filename 1700000000000 "My Clip (1).MP4") = true.
Proof.
  apply (accepted_upload_keeps_extension 1700000000000 "My Clip (1).MP4").
  vm_compute; reflexivity.
Defined.

End UploadFacts.

(** ** The duration of a stream record *)

Section TimingFacts.

Import StreamTiming.

Lemma toDouble_near (n : Z) : (Z.abs (toDouble n - n) <= 1)%Z.
Proof.
  unfold toDouble.
  destruct (Z.abs n <? 2 ^ 53)%Z; [lia|].
  destruct (Z.even n); [lia|].
  destruct (Z.even ((n + 1) / 2)); lia.
Qed.

Lemma toDouble_exact (n : Z) : (Z.abs n < 2 ^ 53)%Z -> toDouble n = n.
Proof.
  intros H. unfold toDouble.
  by destruct (Z.ltb_spec (Z.abs n) (2 ^ 53)); [|lia].
Qed.

Lemma toDouble_nonneg (n : Z) : (0 <= n)%Z -> (0 <= toDouble n)%Z.
Proof.
  intros H. unfold toDouble.
  destruct (Z.ltb_spec (Z.abs n) (2 ^ 53)); [lia|].
  destruct (Z.even n); [lia|].
  destruct (Z.even ((n + 1) / 2)); lia.
Qed.

(** Saving twice computes the same duration as saving once; a duration
    that is set and not zero is never recomputed; and for a record whose
    dates are time values, ended at or after its start, the duration is
    the number of whole seconds in the difference of the two dates as the
    hook computes it: the exact difference when that is below 2^53
    milliseconds, and at most one millisecond off it otherwise. *)
Theorem preSave_duration (t : Timing) :
  preSave (preSave t) = preSave t
  /\ (noDuration (duration t) = false -> preSave t = t)
  /\ (forall s e,
        startedAt t = Some s -> endedAt t = Some e ->
        noDuration (duration t) = true ->
        timeValue s -> timeValue e -> (s <= e)%Z ->
        exists d,
          duration (preSave t) = Some d
          /\ (0 <= d)%Z
          /\ (1000 * d <= toDouble (e - s) < 1000 * (d + 1))%Z
          /\ (Z.abs (toDouble (e - s) - (e - s)) <= 1)%Z
          /\ ((e - s < 2 ^ 53)%Z ->
              (1000 * d <= e - s < 1000 * (d + 1))%Z)).
Proof.
  split; [|split].
  - unfold preSave. destruct t as [[s|] [e|] d]; cbn; try done.
    destruct (noDuration d) eqn:Hd; cbn; [|by rewrite Hd].
    destruct (Z.eqb (toDouble (e - s) / 1000) 0); reflexivity.
  - intros H. unfold preSave. destruct (endedAt t), (startedAt t); try done.
    by rewrite H.
  - intros s e Hs He Hd _ _ Hle. unfold preSave. rewrite Hs, He, Hd. cbn.
    exists (toDouble (e - s) / 1000)%Z. split; [done|].
    pose proof (toDouble_nonneg (e - s) ltac:(lia)) as Hn.
    pose proof (Z.div_mod (toDouble (e - s)) 1000 ltac:(lia)) as Hdm.
    pose proof (Z.mod_pos_bound (toDouble (e - s)) 1000 ltac:(lia)) as Hb.
    split; [apply Z.div_pos; lia|]. split; [lia|].
    split; [apply toDouble_near|].
    intros Hlt. rewrite toDouble_exact in * by lia. lia.
Qed.

(** A stream of one hour, one minute and one and a half seconds, and one
    that spans nearly the whole range of dates, where the subtraction
    rounds. *)
Lemma preSave_duration_examples :
  duration (preSave {| startedAt := Some 1700000000000%Z;
                       endedAt := Some 1700003661500%Z;
                       duration := None |}) = Some 3661%Z
  /\ duration (preSave {| startedAt := Some (-8639999999999999)%Z;
                          endedAt := Some 8640000000000000%Z;
                          duration := None |}) = Some 17280000000000%Z.
Proof. split; reflexivity. Qed.

End TimingFacts.

(** ** Durations in the dashboard *)

Section DurationFacts.

Import Dashboard.

(** For a positive whole number of seconds below 2^53 the three parts
    shown by [formatDuration] are hours, minutes below 60 and seconds
    below 60 that add up to the input; the history view drops the leading
    parts that are zero, and shows the same text as the admin view from
    one hour on. *)
Theorem formatDuration_parts (s : Z) :
  (0 < s < 2 ^ 53)%Z ->
  (hours s * 3600 + minutes s * 60 + secs s = s)%Z
  /\ (0 <= hours s)%Z
  /\ (0 <= minutes s < 60)%Z
  /\ (0 <= secs s < 60)%Z
  /\ formatDuration_admin (Some s) =
       showZ (hours s) +:+ "h " +:+ showZ (minutes s) +:+ "m " +:+
       showZ (secs s) +:+ "s"
  /\ ((3600 <= s)%Z ->
       formatDuration_history (Some s) = formatDuration_admin (Some s))
  /\ ((s < 60)%Z -> formatDuration_history (Some s) = showZ s +:+ "s").
Proof.
  intros Hs. unfold hours, minutes, secs.
  rewrite !Z.rem_mod_nonneg by lia.
  pose proof (Z.div_mod s 3600 ltac:(lia)).
  pose proof (Z.mod_pos_bound s 3600 ltac:(lia)).
  pose proof (Z.div_mod (s mod 3600) 60 ltac:(lia)).
  pose proof (Z.mod_pos_bound (s mod 3600) 60 ltac:(lia)).
  pose proof (Z.mod_pos_bound s 60 ltac:(lia)).
  assert (E : ((s mod 3600) mod 60 = s mod 60)%Z).
  { apply Z.mod_mod_divide. exists 60%Z. lia. }
  assert (Hh : (0 <= s / 3600)%Z) by (apply Z.div_pos; lia).
  assert (Hm : (0 <= s mod 3600 / 60 < 60)%Z).
  { split; [apply Z.div_pos; lia|]. apply Z.div_lt_upper_bound; lia. }
  assert (Hn : noSeconds (Some s) = false).
  { unfold noSeconds. apply Z.eqb_neq. lia. }
  split; [lia|]. split; [lia|]. split; [lia|]. split; [lia|].
  split; [|split].
  - unfold formatDuration_admin, hours, minutes, secs. rewrite Hn.
    by rewrite !Z.rem_mod_nonneg by lia.
  - intros H3600. unfold formatDuration_history, formatDuration_admin. rewrite Hn.
    assert ((0 <? hours s)%Z = true) as ->; [|done].
    apply Z.ltb_lt. unfold hours.
    apply Z.div_str_pos. lia.
  - intros H60. unfold formatDuration_history. rewrite Hn.
    unfold hours, minutes, secs. rewrite !Z.rem_mod_nonneg by lia.
    rewrite (Z.div_small s 3600) by lia.
    rewrite (Z.mod_small s 3600) by lia.
    rewrite (Z.div_small s 60) by lia.
    rewrite (Z.mod_small s 60) by lia. done.
Qed.

Lemma formatDuration_parts_witness :
  (hours 3725 * 3600 + minutes 3725 * 60 + secs 3725 = 3725)%Z
  /\ (0 <= hours 3725)%Z
  /\ (0 <= minutes 3725 < 60)%Z
  /\ (0 <= secs 3725 < 60)%Z
  /\ formatDuration_admin (Some 3725%Z) =
       showZ (hours 3725) +:+ "h " +:+ showZ (minutes 3725) +:+ "m " +:+
       showZ (secs 3725) +:+ "s"
  /\ ((3600 <= 3725)%Z ->
       formatDuration_history (Some 3725%Z) = formatDuration_admin (Some 3725%Z))
  /\ ((3725 < 60)%Z -> formatDuration_history (Some 3725%Z) = showZ 3725 +:+ "s").
Proof. apply (formatDuration_parts 3725). lia. Defined.

End DurationFacts.

(** ** Pages of the stream history *)

Section HistoryFacts.

Import History.

Lemma history_slice (user skip limit : nat) (ds : list StreamDoc) :
  history user skip limit ds =
  take limit (drop skip (history user 0 (countDocuments user ds) ds)).
Proof.
  unfold history, countDocuments, newest_first.
  rewrite <- (length_rev (List.filter _ ds)).
  set (xs := rev (List.filter _ ds)).
  by rewrite drop_0, firstn_all, <- firstn_map, <- skipn_map.
Qed.

Lemma history_all_length (user : nat) (ds : list StreamDoc) :
  length (history user 0 (countDocuments user ds) ds) = countDocuments user ds.
Proof.
  unfold history, countDocuments, newest_first.
  rewrite <- (length_rev (List.filter _ ds)).
  set (xs := rev (List.filter _ ds)).
  by rewrite drop_0, firstn_all, length_map.
Qed.

Lemma history_length (user skip limit : nat) (ds : list StreamDoc) :
  length (history user skip limit ds) =
  Nat.min limit (countDocuments user ds - skip).
Proof.
  by rewrite history_slice, length_take, length_drop, history_all_length.
Qed.

Lemma hasNext_spec (page limit total : Z) :
  (1 <= limit)%Z ->
  (page <? ceilDiv total limit)%Z = (page * limit <? total)%Z.
Proof.
  intros Hl. unfold ceilDiv.
  pose proof (Z.div_mod (- total) limit ltac:(lia)) as E.
  pose proof (Z.mod_pos_bound (- total) limit ltac:(lia)) as B.
  destruct (Z.ltb_spec page (- (- total / limit)));
    destruct (Z.ltb_spec (page * limit) total); try reflexivity; nia.
Qed.

(** A page of the history with positive page number and limit holds at
    most [limit] streams; [hasNext] is true exactly when streams are left
    after this page, which is exactly when the next page is not empty; and
    [hasPrev] is true exactly from page 2 on. *)
Theorem history_page_flags (user : nat) (page limit : Z)
    (ds : list StreamDoc) :
  (1 <= page)%Z ->
  (1 <= limit)%Z ->
  exists views pg,
    getHistory user (Some page) (Some limit) ds = Some (views, pg)
    /\ currentPage pg = page
    /\ totalStreams pg = countDocuments user ds
    /\ length views =
         Nat.min (Z.to_nat limit)
                 (countDocuments user ds - Z.to_nat ((page - 1) * limit))
    /\ (hasNext pg = true <->
        (page * limit < Z.of_nat (countDocuments user ds))%Z)
    /\ (hasNext pg = true <->
        exists views' pg',
          getHistory user (Some (page + 1)%Z) (Some limit) ds
            = Some (views', pg')
          /\ views' <> [])
    /\ (hasPrev pg = true <-> (1 < page)%Z).
Proof.
  intros Hp Hl.
  assert (D : forall q, (1 <= q)%Z ->
            getHistory user (Some q) (Some limit) ds =
            Some (history user (Z.to_nat ((q - 1) * limit)) (Z.to_nat limit) ds,
                  {| currentPage := q;
                     totalPages :=
                       ceilDiv (Z.of_nat (countDocuments user ds)) limit;
                     totalStreams := countDocuments user ds;
                     hasNext :=
                       (q <? ceilDiv (Z.of_nat (countDocuments user ds)) limit)%Z;
                     hasPrev := (1 <? q)%Z |})).
  { intros q Hq. unfold getHistory, orDefault.
    destruct (Z.eqb_spec q 0); [lia|]. destruct (Z.eqb_spec limit 0); [lia|].
    destruct (Z.ltb_spec ((q - 1) * limit) 0); [nia|].
    by rewrite Z.abs_eq by lia. }
  eexists _, _. split; [apply D; lia|]. cbn [currentPage totalStreams hasNext hasPrev].
  split; [done|]. split; [done|]. split; [apply history_length|].
  rewrite hasNext_spec by lia. rewrite Z.ltb_lt.
  split; [done|]. split; [|apply Z.ltb_lt].
  rewrite D by lia. split.
  - intros H. eexists _, _. split; [reflexivity|].
    intros E%(f_equal length). rewrite history_length in E. cbn in E.
    replace (page + 1 - 1)%Z with page in E by lia. nia.
  - intros (views' & pg' & [= <- _] & Hne).
    destruct (Z.ltb_spec (page * limit) (Z.of_nat (countDocuments user ds)));
      [done|].
    exfalso. apply Hne. apply length_zero_iff_nil.
    rewrite history_length. replace (page + 1 - 1)%Z with page by lia. nia.
Qed.

Lemma history_page_flags_witness :
  exists views pg,
    getHistory 7 (Some 1%Z) (Some 10%Z) (streams (state liveServer))
      = Some (views, pg)
    /\ currentPage pg = 1%Z
    /\ totalStreams pg = countDocuments 7 (streams (state liveServer))
    /\ length views =
         Nat.min (Z.to_nat 10)
           (countDocuments 7 (streams (state liveServer))
            - Z.to_nat ((1 - 1) * 10))
    /\ (hasNext pg = true <->
        (1 * 10 < Z.of_nat (countDocuments 7 (streams (state liveServer))))%Z)
    /\ (hasNext pg = true <->
        exists views' pg',
          getHistory 7 (Some (1 + 1)%Z) (Some 10%Z) (streams (state liveServer))
            = Some (views', pg')
          /\ views' <> [])
    /\ (hasPrev pg = true <-> (1 < 1)%Z).
Proof.
  apply (history_page_flags 7 1 10 (streams (state liveServer))); lia.
Defined.

Lemma take_chunks {A : Type} (l n : nat) (xs : list A) :
  flat_map (fun i => take l (drop (i * l) xs)) (seq 0 n) = take (n * l) xs.
Proof.
  induction n as [|n IH]; [done|].
  rewrite seq_S, flat_map_app, IH. cbn [flat_map]. rewrite app_nil_r.
  rewrite take_take_drop. f_equal. lia.
Qed.

Lemma history_chunks (user limit pages : nat) (ds : list StreamDoc) :
  countDocuments user ds <= pages * limit ->
  flat_map (fun i => history user (i * limit) limit ds) (seq 0 pages) =
  map select_minus_streamKey
      (newest_first (List.filter (fun d => Nat.eqb (userId d) user) ds)).
Proof.
  intros H.
  rewrite (flat_map_ext _ (fun i =>
             take limit (drop (i * limit)
               (history user 0 (countDocuments user ds) ds))))
    by (intros i; apply history_slice).
  rewrite take_chunks, take_ge by (rewrite history_all_length; lia).
  unfold history, countDocuments, newest_first.
  rewrite <- (length_rev (List.filter _ ds)).
  set (xs := rev (List.filter _ ds)).
  by rewrite drop_0, firstn_all.
Qed.

Lemma getHistory_page (user : nat) (page limit : Z) (ds : list StreamDoc) :
  (1 <= page)%Z -> (1 <= limit)%Z ->
  getHistory user (Some page) (Some limit) ds =
  Some (history user (Z.to_nat (page - 1) * Z.to_nat limit) (Z.to_nat limit) ds,
        {| currentPage := page;
           totalPages := ceilDiv (Z.of_nat (countDocuments user ds)) limit;
           totalStreams := countDocuments user ds;
           hasNext :=
             (page <? ceilDiv (Z.of_nat (countDocuments user ds)) limit)%Z;
           hasPrev := (1 <? page)%Z |}).
Proof.
  intros Hp Hl. unfold getHistory, orDefault.
  destruct (Z.eqb_spec page 0); [lia|]. destruct (Z.eqb_spec limit 0); [lia|].
  destruct (Z.ltb_spec ((page - 1) * limit) 0); [nia|].
  rewrite Z.abs_eq by lia. by rewrite Z2Nat.inj_mul by lia.
Qed.

Lemma flat_map_seq_shift {A : Type} (f : nat -> list A) (n : nat) :
  flat_map f (seq 1 n) = flat_map (fun i => f (S i)) (seq 0 n).
Proof. by rewrite <- seq_shift, flat_map_concat_map, map_map,
                  <- flat_map_concat_map. Qed.

(** The pages of the history of a user, requested one after the other
    with the same positive limit from page 1 to the last page that the
    responses announce, on a collection that does not change in between:
    the streams of their responses, put together, are exactly the streams
    of that user, newest first and without their keys.  No stream is left
    out and none is shown twice. *)
Theorem history_pages_cover (user : nat) (limit : Z) (ds : list StreamDoc) :
  (1 <= limit)%Z ->
  let response page := getHistory user (Some (Z.of_nat page)) (Some limit) ds in
  flat_map (fun page => streamsOf (response page))
           (seq 1 (Z.to_nat (pagesOf (response 1)))) =
  map select_minus_streamKey
      (newest_first (List.filter (fun d => Nat.eqb (userId d) user) ds)).
Proof.
  intros Hl. cbv beta zeta.
  rewrite (getHistory_page user (Z.of_nat 1)) by lia.
  cbn [pagesOf totalPages].
  rewrite flat_map_seq_shift.
  rewrite (flat_map_ext _ (fun i =>
             history user (i * Z.to_nat limit) (Z.to_nat limit) ds)).
  2:{ intros i. rewrite getHistory_page by lia. cbn [streamsOf].
      do 2 f_equal. lia. }
  apply history_chunks.
  unfold ceilDiv.
  pose proof (Z.div_mod (- Z.of_nat (countDocuments user ds)) limit ltac:(lia)).
  pose proof (Z.mod_pos_bound (- Z.of_nat (countDocuments user ds)) limit
                ltac:(lia)).
  nia.
Qed.

(** The one stream of user 7, on pages of ten. *)
Lemma history_pages_cover_witness :
  let response page :=
    getHistory 7 (Some (Z.of_nat page)) (Some 10%Z) (streams (state liveServer)) in
  flat_map (fun page => streamsOf (response page))
           (seq 1 (Z.to_nat (pagesOf (response 1)))) =
  map select_minus_streamKey
      (newest_first
         (List.filter (fun d => Nat.eqb (userId d) 7)
                      (streams (state liveServer)))).
Proof.
  apply (history_pages_cover 7 10 (streams (state liveServer))). lia.
Defined.

(** A page number below 1 with a positive limit is not served: the skip is
    negative and the query is refused. *)
Lemma history_negative_page (user : nat) (page limit : Z) (ds : list StreamDoc) :
  (page < 0)%Z -> (1 <= limit)%Z ->
  getHistory user (Some page) (Some limit) ds = None.
Proof.
  intros Hp Hl. unfold getHistory, orDefault.
  destruct (Z.eqb_spec page 0); [lia|]. destruct (Z.eqb_spec limit 0); [lia|].
  destruct (Z.ltb_spec ((page - 1) * limit) 0); [done | nia].
Qed.

End HistoryFacts.

Lemma history_hides_streamKey_witness :
  history 7 0 10 (streams (state (after [GoLive (linkRequest 7 "alpha-key")]))) =
  history 7 0 10 (streams (state (after [GoLive (linkRequest 7 "bravo-key")]))).
Proof.
  apply (history_hides_streamKey 7 0 10). vm_compute. reflexivity.
Defined.

Lemma Legacy_ffmpegArgs_agree_witness :
  Legacy.ffmpegArgs "/srv/uploads/1700000000000-clip.mp4"
    "rtmp://a.rtmp.youtube.com/live2/" "alpha-key" =
  ffmpegArgs "/srv/uploads/1700000000000-clip.mp4"
    "rtmp://a.rtmp.youtube.com/live2/" "alpha-key" false.
Proof.
  apply (Legacy_ffmpegArgs_agree "/srv/uploads/1700000000000-clip.mp4"
           "rtmp://a.rtmp.youtube.com/live2/" "alpha-key");
    vm_compute; reflexivity.
Defined.

(** ** Stopping a stream from the admin routes *)

Section AdminFacts.

Import Admin.

(** The admin stop of a live stream record answers with the whole record,
    stream key included, and two seconds later marks it stopped; it never
    touches the supervisor: the status, the handle, the processes and the
    kill promises are what they were, so the FFmpeg process keeps
    streaming. *)
Theorem admin_stop_leaves_process (streamId : nat) (d : StreamDoc)
    (st : State) :
  streams st !! streamId = Some d ->
  status d = "live" ->
  let r := stopStream streamId st in
  let st' := stopStream_timer streamId (fst r) in
  snd r = StopInitiated (select_all (doc_status "stopping" d))
  /\ view_streamKey (select_all (doc_status "stopping" d)) = Some (streamKey d)
  /\ status <$> streams (fst r) !! streamId = Some "stopping"
  /\ status <$> streams st' !! streamId = Some "stopped"
  /\ streamStatus st' = streamStatus st
  /\ currentStreamProcess st' = currentStreamProcess st
  /\ procs st' = procs st
  /\ kills st' = kills st.
Proof.
  intros Hd Hs. cbv zeta. unfold stopStream. rewrite Hd, Hs. cbn [negb fst snd].
  repeat split.
  - cbn. by rewrite list_lookup_alter_eq, Hd.
  - cbn. by rewrite !list_lookup_alter_eq, Hd.
Qed.

Lemma admin_stop_leaves_process_witness :
  let st := state liveServer in
  let d := {| userId := 7; streamKey := "alpha-key";
              streamUrl := "rtmp://a.rtmp.youtube.com/live2";
              videoSource := "url";
              videoPath := "https://example.com/clip.mp4";
              status := "live"; ended := false; errorMessage := None |} in
  let r := stopStream 0 st in
  let st' := stopStream_timer 0 (fst r) in
  snd r = StopInitiated (select_all (doc_status "stopping" d))
  /\ view_streamKey (select_all (doc_status "stopping" d)) = Some (streamKey d)
  /\ status <$> streams (fst r) !! 0 = Some "stopping"
  /\ status <$> streams st' !! 0 = Some "stopped"
  /\ streamStatus st' = streamStatus st
  /\ currentStreamProcess st' = currentStreamProcess st
  /\ procs st' = procs st
  /\ kills st' = kills st.
Proof.
  apply (admin_stop_leaves_process 0
           {| userId := 7; streamKey := "alpha-key";
              streamUrl := "rtmp://a.rtmp.youtube.com/live2";
              videoSource := "url";
              videoPath := "https://example.com/clip.mp4";
              status := "live"; ended := false; errorMessage := None |}
           (state liveServer));
    vm_compute; reflexivity.
Defined.

(** A stream id that is not in the collection is answered 404, a record
    that is not live 400, and neither changes anything. *)
Lemma admin_stop_refused (streamId : nat) (st : State) :
  (forall d, streams st !! streamId = Some d -> status d <> "live") ->
  fst (stopStream streamId st) = st
  /\ snd (stopStream streamId st) =
       match streams st !! streamId with
       | None => NotFound
       | Some _ => NotLive
       end.
Proof.
  intros H. unfold stopStream.
  destruct (streams st !! streamId) as [d|]; [|done].
  specialize (H d eq_refl). apply String.eqb_neq in H. by rewrite H.
Qed.

End AdminFacts.

(** ** Normalisation in the command builder *)

Lemma replaceBackslashes_startsWith (s : string) :
  JS.startsWith (JS.replaceBackslashes s) "C:" = JS.startsWith s "C:".
Proof.
  unfold JS.startsWith. destruct s as [|a [|b s]]; cbn [JS.replaceBackslashes].
  - done.
  - cbn [String.prefix]. destruct (Ascii.eqb_spec a "\"); [by subst|done].
  - cbn [String.prefix].
    destruct (Ascii.eqb_spec a "\") as [->|]; [done|].
    destruct (ascii_dec "C" a); [|done].
    destruct (Ascii.eqb_spec b "\") as [->|]; [done|].
    destruct (ascii_dec ":" b); [|done].
    generalize (JS.replaceBackslashes s). intros r. by destruct r, s.
Qed.

(** Both normalisations of the command builder are idempotent: an input
    source and a stream URL that have been normalised once give the same
    argument list as the original ones. *)
Theorem command_normalisation_idempotent
    (inputSource streamUrl streamKey : string) (loop : bool) :
  normalizeInput (normalizeInput inputSource) = normalizeInput inputSource
  /\ JS.ensureTrailingSlash (JS.ensureTrailingSlash streamUrl) =
       JS.ensureTrailingSlash streamUrl
  /\ ffmpegArgs (normalizeInput inputSource) (JS.ensureTrailingSlash streamUrl)
       streamKey loop =
     ffmpegArgs inputSource streamUrl streamKey loop.
Proof.
  assert (H1 : normalizeInput (normalizeInput inputSource) =
               normalizeInput inputSource).
  { unfold normalizeInput.
    destruct (JS.startsWith inputSource "C:") eqn:E; [|by rewrite E].
    rewrite replaceBackslashes_startsWith, E.
    apply replaceBackslashes_id, replaceBackslashes_clean. }
  assert (H2 : JS.ensureTrailingSlash (JS.ensureTrailingSlash streamUrl) =
               JS.ensureTrailingSlash streamUrl).
  { unfold JS.ensureTrailingSlash at 1.
    by rewrite ensureTrailingSlash_ends. }
  split; [done|]. split; [done|].
  unfold ffmpegArgs, rtmpUrl. by rewrite H1, H2.
Qed.

(** A go-live request with an empty stream key, sent while a stream is
    live: nothing happens to the live stream. *)
Lemma goLive_missing_credentials_witness :
  goLive (linkRequest 7 "") (state liveServer) =
    (state liveServer,
     Respond (Send 400 "Stream URL and Stream Key are required")).
Proof.
  apply (goLive_missing_credentials (linkRequest 7 "") (state liveServer)).
  right. reflexivity.
Defined.
